(** * Tea diary bot: guided-entry flow, album debouncer and persistence gateway

    A shallow embedding of the parts of the bot that carry its invariants:

    - [Validators]  : [app/validators.py]  ([parse_float] over a model of
                      Python's [decimal.Decimal]);
    - [Tastings]    : [app/services/tastings.py] ([_next_seq_for_user],
                      [create_tasting]) over the [tastings] table of
                      [app/db/models.py] with its unique index on
                      (user_id, seq_no);
    - [Bot]         : the handlers of [app/main.py] that drive the photo
                      step, the album buffer, finalisation, the skip
                      callbacks and the quick flow (back / cancel).

    Handlers are written in a state-and-exception monad over a [World]
    holding the FSM storage, [ALBUM_BUFFER], the timer tasks, the database
    and the messages sent to the chat. *)

From Stdlib Require Import ZArith List String Ascii Bool Lia.
From stdpp Require Import base tactics option list gmap strings.

Local Open Scope string_scope.
Local Open Scope Z_scope.

(** ** Results of fallible Python code *)

Inductive Exn :=
| ValueError (msg : string)      (* raised by the validators *)
| InvalidOperation               (* decimal.InvalidOperation, not caught *)
| IntegrityError                 (* sqlalchemy.exc.IntegrityError *)
| OSError                        (* blob storage failure in save_photo_bytes *)
| TypeError                      (* int(None) and the like *)
| RuntimeError (msg : string).

Inductive Result (A : Type) :=
| Ok (a : A)
| Raise (e : Exn).
Arguments Ok {A} a.
Arguments Raise {A} e.

(** * app/validators.py *)

Module Validators.

(** [decimal.Decimal]: a finite value is (-1)^sign * coeff * 10^exp with
    [0 <= coeff]; infinities and NaNs are collapsed into [NonFinite]
    (every operation [parse_float] applies to them raises
    [InvalidOperation]). *)
Inductive Decimal :=
| Finite (sign : bool) (coeff : Z) (exp : Z)
| NonFinite.

(** Default context of the decimal module. *)
Definition prec : Z := 28.
Definition Emax : Z := 999999.
Definition Emin : Z := -999999.
Definition Etiny : Z := Emin - prec + 1.

(** Number of decimal digits of a coefficient ([len(self._int)]); the
    coefficient 0 is the one-digit string "0". *)
Fixpoint ndigits_fuel (fuel : nat) (c : Z) : Z :=
  match fuel with
  | O => 1
  | S f => if c <? 10 then 1 else 1 + ndigits_fuel f (c / 10)
  end.
Definition ndigits (c : Z) : Z := ndigits_fuel (Z.to_nat (Z.log2 c) + 1) c.

(** Signed numerator of a decimal at exponent [e] ([e <= exp]). *)
Definition scaled (sign : bool) (coeff exp e : Z) : Z :=
  (if sign then -1 else 1) * coeff * 10 ^ (exp - e).

(** Numeric comparison of two finite decimals. *)
Definition dec_compare (a b : Decimal) : option comparison :=
  match a, b with
  | Finite sa ca ea, Finite sb cb eb =>
      let e := Z.min ea eb in
      Some (scaled sa ca ea e ?= scaled sb cb eb e)
  | _, _ => None
  end.

Definition dec_lt (a b : Decimal) : option bool :=
  match dec_compare a b with
  | Some Lt => Some true
  | Some _ => Some false
  | None => None
  end.

(** [Decimal(10) ** -precision]: only its exponent matters to [quantize].
    A negative [precision] gives the integer 10^|precision|, exponent 0. *)
Definition quant_exp (precision : Z) : Z :=
  if 0 <=? precision then - precision else 0.

(** [Decimal._rescale(exp, ROUND_HALF_UP)]: pad with zeros when the target
    exponent is not above the current one, otherwise drop [k] digits and
    add one to the magnitude when the first dropped digit is 5 or more. *)
Definition rescale_half_up (sign : bool) (coeff exp target : Z) : Decimal :=
  if target <=? exp then Finite sign (coeff * 10 ^ (exp - target)) target
  else
    let p := 10 ^ (target - exp) in
    let q := coeff / p in
    let r := coeff mod p in
    Finite sign (if p <=? 2 * r then q + 1 else q) target.

(** [value.quantize(quant, rounding=ROUND_HALF_UP)] in the default context. *)
Definition quantize (d : Decimal) (target : Z) : Result Decimal :=
  match d with
  | NonFinite => Raise InvalidOperation
  | Finite sign coeff exp =>
      if negb ((Etiny <=? target) && (target <=? Emax)) then Raise InvalidOperation
      else if coeff =? 0 then Ok (Finite sign 0 target)
      else
        let adjusted := exp + ndigits coeff - 1 in
        if Emax <? adjusted then Raise InvalidOperation
        else if prec <? adjusted - target + 1 then Raise InvalidOperation
        else
          match rescale_half_up sign coeff exp target with
          | Finite s c e =>
              if Emax <? e + ndigits c - 1 then Raise InvalidOperation
              else if prec <? ndigits c then Raise InvalidOperation
              else Ok (Finite s c e)
          | NonFinite => Raise InvalidOperation
          end
  end.

(** *** Reading a numeric string *)

Definition is_digit (a : ascii) : bool :=
  let n := nat_of_ascii a in ((48 <=? n) && (n <=? 57))%nat.

Definition digit_val (a : ascii) : Z := Z.of_nat (nat_of_ascii a) - 48.

(** [str.strip()] for the ASCII white space of Python: TAB, LF, VT, FF, CR,
    FS, GS, RS, US and space. *)
Definition is_space (a : ascii) : bool :=
  let n := nat_of_ascii a in
  (((9 <=? n) && (n <=? 13)) || ((28 <=? n) && (n <=? 32)))%nat.

Fixpoint lstrip (s : list ascii) : list ascii :=
  match s with
  | a :: s' => if is_space a then lstrip s' else s
  | [] => []
  end.

Definition strip (s : list ascii) : list ascii :=
  rev (lstrip (rev (lstrip s))).

(** [text.replace(",", ".")] *)
Definition comma_to_dot (s : list ascii) : list ascii :=
  map (fun a => if Ascii.eqb a "," then "."%char else a) s.

Fixpoint span_digits (s : list ascii) : list ascii * list ascii :=
  match s with
  | a :: s' =>
      if is_digit a then let '(ds, rest) := span_digits s' in (a :: ds, rest)
      else ([], s)
  | [] => ([], [])
  end.

Definition int_of_digits (ds : list ascii) : Z :=
  fold_left (fun acc a => 10 * acc + digit_val a) ds 0.

Definition take_sign (s : list ascii) : bool * list ascii :=
  match s with
  | "-"%char :: s' => (true, s')
  | "+"%char :: s' => (false, s')
  | _ => (false, s)
  end.

Definition lower (a : ascii) : ascii :=
  let n := nat_of_ascii a in
  if ((65 <=? n) && (n <=? 90))%nat then ascii_of_nat (n + 32) else a.

(** The optional exponent part (E, optional sign, digits) followed by the
    end of the string. *)
Definition parse_exponent (s : list ascii) : option Z :=
  match s with
  | [] => Some 0
  | a :: s' =>
      if Ascii.eqb (lower a) "e" then
        let '(neg, s'') := take_sign s' in
        let '(ds, rest) := span_digits s'' in
        match ds, rest with
        | _ :: _, [] => Some (if neg then - int_of_digits ds else int_of_digits ds)
        | _, _ => None
        end
      else None
  end.

(** The non-numeric alternatives of the grammar: Inf, Infinity, NaN and
    sNaN with an optional diagnostic, in any letter case. *)
Definition is_special (s : list ascii) : bool :=
  let l := string_of_list_ascii (map lower s) in
  if String.eqb l "inf" then true
  else if String.eqb l "infinity" then true
  else
    let body :=
      match map lower s with
      | "s"%char :: t => t
      | t => t
      end in
    match body with
    | "n"%char :: "a"%char :: "n"%char :: diag =>
        match span_digits diag with
        | (_, []) => true
        | _ => false
        end
    | _ => false
    end.

(** [Decimal(text)]: surrounding white space and underscores are removed,
    then the string must be an optional sign, digits with an optional
    fractional part (at least one digit in all) and an optional exponent,
    or name a special value. [None] is [InvalidOperation]
    (ConversionSyntax), which [parse_float] turns into [ValueError]. *)
Definition Decimal_of_string (text : list ascii) : option Decimal :=
  let s := List.filter (fun a => negb (Ascii.eqb a "_")) (strip text) in
  let '(neg, s1) := take_sign s in
  let '(ip, s2) := span_digits s1 in
  let '(fp, s3) :=
    match s2 with
    | "."%char :: t => span_digits t
    | _ => ([], s2)
    end in
  match (ip ++ fp)%list with
  | [] => if is_special s1 then Some NonFinite else None
  | ds =>
      match parse_exponent s3 with
      | Some e => Some (Finite neg (int_of_digits ds) (e - Z.of_nat (List.length fp)))
      | None => if is_special s1 then Some NonFinite else None
      end
  end.

(** [parse_float(raw, min_value=, max_value=, error_message=, precision=)].
    [min_value] and [max_value] stand for [Decimal(str(min_value))] and
    [Decimal(str(max_value))]; the result is the decimal handed to the
    final [float(value)]. *)
Definition parse_float (raw : string) (min_value max_value : Decimal)
    (error_message : string) (precision : Z) : Result Decimal :=
  let text := comma_to_dot (strip (list_ascii_of_string raw)) in
  match text with
  | [] => Raise (ValueError error_message)
  | _ =>
      match Decimal_of_string text with
      | None => Raise (ValueError error_message)
      | Some value =>
          match quantize value (quant_exp precision) with
          | Raise e => Raise e
          | Ok value =>
              match dec_lt value min_value, dec_lt max_value value with
              | Some lo, Some hi =>
                  if lo || hi then Raise (ValueError error_message)
                  else Ok value
              | _, _ => Raise InvalidOperation
              end
          end
      end
  end.

(** [GRAMS_ERROR] and [parse_grams_value] of app/main.py. *)
Definition GRAMS_ERROR : string := "Граммовка от 0.1 до 50 г (например, 3.5).".

Definition parse_grams_value (raw : string) : Result Decimal :=
  parse_float raw (Finite false 1 (-1)) (Finite false 500 (-1)) GRAMS_ERROR 1.

(** *** Integers

    The text handed to these functions is read as ASCII characters, as
    above; the interpreter's limit on the length of an integer string is
    not reached. *)

(** The digits of a base-10 integer literal: at least one digit, single
    underscores between digits only. *)
Fixpoint int_digits (s : list ascii) (after_digit : bool) : option (list ascii) :=
  match s with
  | [] => if after_digit then Some [] else None
  | a :: s' =>
      if is_digit a then option_map (cons a) (int_digits s' true)
      else if Ascii.eqb a "_" then
        if after_digit then int_digits s' false else None
      else None
  end.

(** [int(text)]: white space around, an optional sign, the digits. [None]
    is [ValueError]. *)
Definition int_of_string (text : list ascii) : option Z :=
  let '(neg, s) := take_sign (strip text) in
  match int_digits s false with
  | Some ds => Some (if neg then - int_of_digits ds else int_of_digits ds)
  | None => None
  end.

(** [parse_int(raw, min_value=, max_value=, error_message=)] *)
Definition parse_int (raw : string) (min_value max_value : Z) (error_message : string)
  : Result Z :=
  let text := strip (list_ascii_of_string raw) in
  match int_of_string text with
  | None => Raise (ValueError error_message)
  | Some value =>
      if (value <? min_value) || (max_value <? value)
      then Raise (ValueError error_message)
      else Ok value
  end.

(** [re.split(r"[\s,;]+", text)]: the pieces between the maximal runs of
    separators; a run at the start or at the end of the text leaves an
    empty piece there. [cur] holds the piece being read, reversed. *)
Definition is_list_separator (a : ascii) : bool :=
  is_space a || Ascii.eqb a "," || Ascii.eqb a ";".

Fixpoint re_split (s cur : list ascii) (in_run : bool) : list (list ascii) :=
  match s with
  | [] => [rev cur]
  | a :: s' =>
      if is_list_separator a then
        if in_run then re_split s' [] true else rev cur :: re_split s' [] true
      else re_split s' (a :: cur) false
  end.

(** [part.isdigit()] *)
Definition isdigit (part : list ascii) : bool :=
  match part with
  | [] => false
  | _ => forallb is_digit part
  end.

(** The loop of [parse_infusions_list] over the pieces. *)
Fixpoint read_parts (parts : list (list ascii)) (min_value max_value : Z)
    (error_message : string) (values : list Z) : Result (list Z) :=
  match parts with
  | [] => Ok values
  | part :: rest =>
      match part with
      | [] => read_parts rest min_value max_value error_message values
      | _ =>
          if negb (isdigit part) then Raise (ValueError error_message)
          else
            let value := int_of_digits part in
            if (value <? min_value) || (max_value <? value)
            then Raise (ValueError error_message)
            else read_parts rest min_value max_value error_message
                   (values ++ [value])%list
      end
  end.

(** [parse_infusions_list(raw, min_value=, max_value=, max_count=,
    error_message=)] *)
Definition parse_infusions_list (raw : string) (min_value max_value max_count : Z)
    (error_message : string) : Result (list Z) :=
  let text := strip (list_ascii_of_string raw) in
  match text with
  | [] => Raise (ValueError error_message)
  | _ =>
      match read_parts (re_split text [] false) min_value max_value error_message [] with
      | Raise e => Raise e
      | Ok values =>
          match values with
          | [] => Raise (ValueError error_message)
          | _ =>
              if max_count <? Z.of_nat (List.length values)
              then Raise (ValueError error_message)
              else Ok values
          end
      end
  end.

(** [str(n)] for an integer: its decimal digits, after a minus sign when
    it is negative. *)
Definition digit_char (d : Z) : ascii := ascii_of_nat (Z.to_nat d + 48).

Fixpoint digits_fuel (fuel : nat) (n : Z) (acc : list ascii) : list ascii :=
  match fuel with
  | O => acc
  | S f =>
      if n <? 10 then digit_char n :: acc
      else digits_fuel f (n / 10) (digit_char (n mod 10) :: acc)
  end.

Definition str_of_nat (n : Z) : list ascii :=
  digits_fuel (Z.to_nat (Z.log2 n) + 1) n [].

Definition str_of_int (n : Z) : list ascii :=
  if n <? 0 then "-"%char :: str_of_nat (- n) else str_of_nat n.

(** [TEMP_ERROR] and [parse_temp_value] of app/main.py. *)
Definition TEMP_ERROR : string := "Температура от 40 до 100 °C.".

Definition parse_temp_value (raw : string) : Result Z :=
  parse_int raw 40 100 TEMP_ERROR.

End Validators.

(** * Python values kept in the FSM data and handed to persistence *)

(** A photo kept in the draft: the [PhotoDraft] dict of app/main.py. *)
Record PhotoDraft := {
  body : option string;
  filename_hint : option string;
  telegram_file_id : option string;
  telegram_file_unique_id : option string;
}.

(** An element of the [photos] argument of [create_tasting]: a bare
    Telegram file id or a [PhotoDraft] dict. *)
Inductive PhotoEntry :=
| PhotoStr (file_id : string)
| PhotoDict (d : PhotoDraft).

(** An infusion dict as built by [append_current_infusion_and_prompt]. *)
Record Infusion := {
  n : option Z;
  seconds : option Z;
  liquor_color : option string;
  taste : option string;
  special_notes : option string;
  inf_body : option string;
  aftertaste : option string;
}.

Inductive Value :=
| VNone
| VBool (b : bool)
| VInt (z : Z)
| VFloat (d : Validators.Decimal)
| VStr (s : string)
| VStrs (l : list string)
| VInfusions (l : list Infusion)
| VPhotos (l : list PhotoEntry).

Definition is_None (v : Value) : bool :=
  match v with VNone => true | _ => false end.

(** Python truthiness. *)
Definition truthy (v : Value) : bool :=
  match v with
  | VNone => false
  | VBool b => b
  | VInt z => negb (z =? 0)
  | VFloat (Validators.Finite _ c _) => negb (c =? 0)
  | VFloat Validators.NonFinite => true
  | VStr s => negb (String.eqb s "")
  | VStrs l => match l with [] => false | _ => true end
  | VInfusions l => match l with [] => false | _ => true end
  | VPhotos l => match l with [] => false | _ => true end
  end.

(** [v == z] for a Python value and an integer. *)
Definition int_eqb (v : Value) (z : Z) : bool :=
  match v with
  | VInt u => u =? z
  | VBool b => (if b then 1 else 0) =? z
  | _ => false
  end.

(** [a or b] *)
Definition py_or (a b : Value) : Value := if truthy a then a else b.

(** * app/services/tastings.py over the tables of app/db/models.py *)

Module Tastings.

Definition _MAX_CREATE_ATTEMPTS : nat := 2.

(** The [tasting_data] dict built by [finalize_save] and
    [finalize_quick_save]. *)
Record TastingData := {
  td_user_id : Value;
  td_name : Value;
  td_year : Value;
  td_region : Value;
  td_category : Value;
  td_grams : Value;
  td_temp_c : Value;
  td_tasted_at : Value;
  td_gear : Value;
  td_aroma_dry : Value;
  td_aroma_warmed : Value;
  td_aroma_after : Value;
  td_effects_csv : Value;
  td_scenarios_csv : Value;
  td_rating : Value;
  td_summary : Value;
}.

(** A committed row of [tastings]: [user_id] and [seq_no] are NOT NULL
    integers, [id] is the autoincrement primary key. *)
Record Tasting := {
  id : Z;
  user_id : Z;
  seq_no : Z;
  columns : TastingData;
}.

Record InfusionRow := {
  ir_tasting_id : Z;
  ir_infusion : Infusion;
}.

(** [SaveResult] of app/services/storage.py. *)
Record SaveResult := {
  storage_backend : string;
  object_key : option string;
  content_type : option string;
  size_bytes : Z;
}.

Record Photo := {
  ph_tasting_id : Z;
  ph_file_id : string;
  ph_storage_backend : string;
  ph_object_key : option string;
  ph_content_type : option string;
  ph_size_bytes : option Z;
  ph_telegram_file_id : option string;
  ph_telegram_file_unique_id : option string;
}.

Record Database := {
  tastings : list Tasting;
  infusions : list InfusionRow;
  photos : list Photo;
}.

(** [select(Tasting.seq_no).where(Tasting.user_id == user_id)] *)
Definition user_seq_nos (db : Database) (uid : Value) : list Z :=
  match uid with
  | VInt u =>
      map seq_no (List.filter (fun t => bool_decide (user_id t = u)) (tastings db))
  | _ => []
  end.

(** [.order_by(Tasting.seq_no.desc()).limit(1)] with [scalar_one_or_none] *)
Fixpoint first_desc (l : list Z) : option Z :=
  match l with
  | [] => None
  | x :: l' =>
      match first_desc l' with
      | None => Some x
      | Some y => Some (Z.max x y)
      end
  end.

(** [_next_seq_for_user]: [(last_seq or 0) + 1]. The row lock taken by
    [with_for_update] only delays the statement; it does not change the
    value read from the committed rows. *)
Definition _next_seq_for_user (db : Database) (uid : Value) : Z :=
  let last_seq := first_desc (user_seq_nos db uid) in
  match last_seq with
  | None => 0
  | Some z => if z =? 0 then 0 else z
  end + 1.

(** Autoincrement primary key. *)
Definition next_id (db : Database) : Z :=
  1 + fold_right Z.max 0 (map id (tastings db)).

(** [ux_tastings_user_seq]: the unique index on (user_id, seq_no). *)
Definition seq_taken (db : Database) (u s : Z) : bool :=
  existsb (fun t => bool_decide (user_id t = u) && bool_decide (seq_no t = s))
          (tastings db).

(** [session.add(tasting); session.flush()]: the INSERT fails with
    IntegrityError on a NULL in [user_id], [name] or [category] (NOT NULL
    columns without a default) and on a taken (user_id, seq_no) pair. *)
Definition insert_tasting (db : Database) (seq : Z) (td : TastingData)
  : Result (Database * Tasting) :=
  match td_user_id td with
  | VInt u =>
      if is_None (td_name td) || is_None (td_category td) then Raise IntegrityError
      else if seq_taken db u seq then Raise IntegrityError
      else
        let t := {| id := next_id db; user_id := u; seq_no := seq; columns := td |} in
        Ok ({| tastings := tastings db ++ [t];
               infusions := infusions db;
               photos := photos db |}, t)
  | _ => Raise IntegrityError
  end.

Section Gateway.

(** Blob storage: [save_photo_bytes(user_id, tasting_id, body,
    filename_hint=)]; it returns a [SaveResult] or raises [OSError] when the
    local write fails. *)
Variable save_photo_bytes : Value -> Z -> string -> string -> Result SaveResult.

(** The rows other sessions commit between the SELECT of attempt number
    [k] of this call and its INSERT. *)
Variable concurrent : nat -> Database -> Database.

(** The first loop of a transaction: one [Infusion] row per dict. *)
Definition add_infusions (tid : Z) (l : list Infusion) (db : Database) : Database :=
  {| tastings := tastings db;
     infusions := infusions db ++ map (fun i => {| ir_tasting_id := tid; ir_infusion := i |}) l;
     photos := photos db |}.

Definition add_photo (p : Photo) (db : Database) : Database :=
  {| tastings := tastings db; infusions := infusions db; photos := photos db ++ [p] |}.

(** The second loop: a bare file id is stored as it is; a dict without
    body or without telegram_file_id is skipped; otherwise the bytes go to
    blob storage first. *)
Fixpoint add_photos (uid : Value) (tid : Z) (l : list PhotoEntry) (db : Database)
  : Result Database :=
  match l with
  | [] => Ok db
  | PhotoStr fid :: l' =>
      add_photos uid tid l'
        (add_photo {| ph_tasting_id := tid; ph_file_id := fid;
                      ph_storage_backend := "local"; ph_object_key := None;
                      ph_content_type := None; ph_size_bytes := None;
                      ph_telegram_file_id := Some fid;
                      ph_telegram_file_unique_id := None |} db)
  | PhotoDict d :: l' =>
      match body d, telegram_file_id d with
      | Some b, Some tfid =>
          let hint :=
            match filename_hint d with
            | Some h => if String.eqb h "" then "photo.jpg" else h
            | None => "photo.jpg"
            end in
          match save_photo_bytes uid tid b hint with
          | Raise e => Raise e
          | Ok r =>
              add_photos uid tid l'
                (add_photo {| ph_tasting_id := tid; ph_file_id := tfid;
                              ph_storage_backend := storage_backend r;
                              ph_object_key := object_key r;
                              ph_content_type := content_type r;
                              ph_size_bytes := Some (size_bytes r);
                              ph_telegram_file_id := Some tfid;
                              ph_telegram_file_unique_id := telegram_file_unique_id d |} db)
          end
      | _, _ => add_photos uid tid l' db
      end
  end.

(** Everything a transaction does after its SELECT: the INSERT of the
    parent row, the two loops and the commit. An exception rolls back. *)
Definition write (db : Database) (seq : Z) (td : TastingData)
    (infs : list Infusion) (phs : list PhotoEntry) : Result (Database * Tasting) :=
  match insert_tasting db seq td with
  | Raise e => Raise e
  | Ok (db1, t) =>
      match add_photos (td_user_id td) (id t) phs (add_infusions (id t) infs db1) with
      | Raise e => Raise e
      | Ok db2 => Ok (db2, t)
      end
  end.

(** One pass through [with session.begin()]: attempt number [k]. *)
Definition transaction (k : nat) (db : Database) (td : TastingData)
    (infs : list Infusion) (phs : list PhotoEntry) : Database * Result Tasting :=
  let seq := _next_seq_for_user db (td_user_id td) in
  let db1 := concurrent k db in
  match write db1 seq td infs phs with
  | Ok (db2, t) => (db2, Ok t)
  | Raise e => (db1, Raise e)
  end.

(** The [while attempts < _MAX_CREATE_ATTEMPTS] loop. [fuel] bounds the
    number of iterations; the third component of the result is the value of
    the local variable [attempts] when the function is left. *)
Fixpoint create_loop (fuel attempts : nat) (db : Database) (td : TastingData)
    (infs : list Infusion) (phs : list PhotoEntry)
  : Database * Result Tasting * nat :=
  match fuel with
  | O => (db, Raise (RuntimeError "fuel"), attempts)
  | S fuel' =>
      if (attempts <? _MAX_CREATE_ATTEMPTS)%nat then
        let attempts := S attempts in
        match transaction attempts db td infs phs with
        | (db', Ok t) => (db', Ok t, attempts)
        | (db', Raise IntegrityError) =>
            if (_MAX_CREATE_ATTEMPTS <=? attempts)%nat
            then (db', Raise IntegrityError, attempts)
            else create_loop fuel' attempts db' td infs phs
        | (db', Raise e) => (db', Raise e, attempts)
        end
      else (db, Raise (RuntimeError "Failed to create tasting after retries"), attempts)
  end.

Definition create_tasting (db : Database) (td : TastingData)
    (infs : list Infusion) (phs : list PhotoEntry)
  : Database * Result Tasting * nat :=
  create_loop (S _MAX_CREATE_ATTEMPTS) 0 db td infs phs.

(** *** Two sessions creating at the same time

    Each session runs the loop of [create_tasting]; the database
    serialises their statements. A session is either about to run its
    SELECT, or holds the [seq_no] it computed and is about to write, or has
    left the function. *)
Inductive Session :=
| Selecting (attempts : nat)
| Writing (attempts : nat) (seq : Z)
| Returned (t : Tasting)
| Raised (e : Exn).

Definition session_step (td : TastingData) (infs : list Infusion)
    (phs : list PhotoEntry) (c : Session) (db : Database) : Session * Database :=
  match c with
  | Selecting a =>
      if (a <? _MAX_CREATE_ATTEMPTS)%nat
      then (Writing (S a) (_next_seq_for_user db (td_user_id td)), db)
      else (Raised (RuntimeError "Failed to create tasting after retries"), db)
  | Writing a seq =>
      match write db seq td infs phs with
      | Ok (db', t) => (Returned t, db')
      | Raise IntegrityError =>
          if (_MAX_CREATE_ATTEMPTS <=? a)%nat then (Raised IntegrityError, db)
          else (Selecting a, db)
      | Raise e => (Raised e, db)
      end
  | Returned _ | Raised _ => (c, db)
  end.

(** What one call of [create_tasting] was given. *)
Record Call := {
  call_data : TastingData;
  call_infusions : list Infusion;
  call_photos : list PhotoEntry;
}.

Record Race := {
  race_db : Database;
  first : Session;
  second : Session;
}.

(** The database runs the next statement of the first session ([true]) or
    of the second ([false]). *)
Definition race_step (a b : Call) (r : Race) (who : bool) : Race :=
  if who then
    let '(c, db) := session_step (call_data a) (call_infusions a) (call_photos a)
                                 (first r) (race_db r) in
    {| race_db := db; first := c; second := second r |}
  else
    let '(c, db) := session_step (call_data b) (call_infusions b) (call_photos b)
                                 (second r) (race_db r) in
    {| race_db := db; first := first r; second := c |}.

Definition race (a b : Call) (db : Database) (schedule : list bool) : Race :=
  fold_left (race_step a b) schedule
            {| race_db := db; first := Selecting 0; second := Selecting 0 |}.

End Gateway.

End Tastings.

(** * app/main.py *)

Module Bot.
Import Tastings.

(** ** Constants *)

(** [MAX_PHOTOS = max(1, int(os.getenv("PHOTO_LIMIT", "3")))], 3 when the
    variable does not hold an integer. The argument is the integer the
    variable holds, if any. *)
Definition MAX_PHOTOS_of (PHOTO_LIMIT : option Z) : Z :=
  match PHOTO_LIMIT with
  | Some v => Z.max 1 v
  | None => 3
  end.

(** [ALBUM_TIMEOUT = 2.0] seconds; the clock of the model counts
    milliseconds. *)
Definition ALBUM_TIMEOUT : Z := 2000.

Definition QUICK_CATEGORY_FALLBACK : string := "Другое".

Definition QUICK_CATEGORIES : list (string * string) :=
  [("green", "Зелёный"); ("white", "Белый"); ("oolong", "Улун");
   ("red", "Красный"); ("shu", "Шу Пуэр"); ("shen", "Шен Пуэр");
   ("hei", "Хэй Ча")].

Definition QUICK_GEAR : list (string * string) :=
  [("gaiwan", "Гайвань"); ("teapot", "Чайник"); ("teapot2", "Типот");
   ("flask", "Колба")].

Definition QUICK_TEMPS : list (Z * Z) :=
  [(75, 80); (80, 85); (85, 90); (90, 95); (95, 100)].

Definition QUICK_EFFECTS : list (string * string) :=
  [("warm", "Тепло"); ("relax", "Расслабление"); ("calm", "Спокойствие");
   ("focus", "Фокус"); ("energy", "Бодрость"); ("tone", "Тонус");
   ("inspire", "Вдохновение"); ("cozy", "Уют")].

(** ** FSM states: the strings aiogram stores ([State.state]) *)

Definition NewTasting_name : string := "NewTasting:name".
Definition NewTasting_year : string := "NewTasting:year".
Definition NewTasting_region : string := "NewTasting:region".
Definition NewTasting_category : string := "NewTasting:category".
Definition NewTasting_grams : string := "NewTasting:grams".
Definition NewTasting_temp_c : string := "NewTasting:temp_c".
Definition NewTasting_tasted_at : string := "NewTasting:tasted_at".
Definition NewTasting_gear : string := "NewTasting:gear".
Definition NewTasting_aroma_dry : string := "NewTasting:aroma_dry".
Definition NewTasting_aroma_warmed : string := "NewTasting:aroma_warmed".

Definition InfusionState_seconds : string := "InfusionState:seconds".
Definition InfusionState_color : string := "InfusionState:color".
Definition InfusionState_taste : string := "InfusionState:taste".
Definition InfusionState_special : string := "InfusionState:special".
Definition InfusionState_body : string := "InfusionState:body".
Definition InfusionState_aftertaste : string := "InfusionState:aftertaste".

Definition EffectsScenarios_effects : string := "EffectsScenarios:effects".
Definition EffectsScenarios_scenarios : string := "EffectsScenarios:scenarios".
Definition RatingSummary_rating : string := "RatingSummary:rating".
Definition RatingSummary_summary : string := "RatingSummary:summary".

Definition PhotoFlow_photos : string := "PhotoFlow:photos".

Definition QuickNote_name : string := "QuickNote:name".
Definition QuickNote_type_pick : string := "QuickNote:type_pick".
Definition QuickNote_type_custom : string := "QuickNote:type_custom".
Definition QuickNote_grams : string := "QuickNote:grams".
Definition QuickNote_temp_pick : string := "QuickNote:temp_pick".
Definition QuickNote_gear_pick : string := "QuickNote:gear_pick".
Definition QuickNote_gear_custom : string := "QuickNote:gear_custom".
Definition QuickNote_aroma : string := "QuickNote:aroma".
Definition QuickNote_taste : string := "QuickNote:taste".
Definition QuickNote_eff_pick : string := "QuickNote:eff_pick".
Definition QuickNote_eff_custom : string := "QuickNote:eff_custom".
Definition QuickNote_rating : string := "QuickNote:rating".
Definition QuickNote_note : string := "QuickNote:note".
Definition QuickNote_photos : string := "QuickNote:photos".

Definition QuickCancel_confirm : string := "QuickCancel:confirm".

(** ** The world the handlers run in *)

(** What aiogram's storage keeps for one user: the FSM state and the data
    dict ([state.get_data()], [state.update_data(...)]). *)
Record FSMRecord := {
  fsm_state : option string;
  fsm_data : gmap string Value;
}.

(** An element of [entry["files"]]. *)
Record AlbumFile := {
  file_id : string;
  file_unique_id : string;
}.

(** A value of [ALBUM_BUFFER]. [message] and [state] name the user whose
    chat is answered and whose FSM context is written; [task] is an index
    into the list of timer tasks. *)
Record AlbumEntry := {
  files : list AlbumFile;
  message : option Z;
  state : option Z;
  task : option nat;
}.

Inductive TaskStatus := Pending | Cancelled | Done.

(** An [asyncio] task running [_album_timeout_handler(key)]: it sleeps
    until [deadline]. *)
Record Task := {
  task_key : Z * string;
  deadline : Z;
  status : TaskStatus;
}.

(** Calls to the Telegram API, in the order they were made. A keyboard is
    the list of the [callback_data] of its buttons. *)
Inductive Output :=
| Answer (to : Z) (text : string) (keyboard : list string)
| CallbackAnswer (to : Z) (text : string) (show_alert : bool)
| DeleteMessage (to : Z) (message_id : Z)
| RemoveMarkup (to : Z) (message_id : Z)
| CloseInline (to : Z) (status : string)
| Progress (to : Z) (count limit : Z)
| PhotoPrompt (to : Z) (limit : Z) (keyboard : list string)
| LimitReached (to : Z) (count limit : Z)
| Card (to : Z) (tasting_id : Z) (photo_ids : list string).

Record World := {
  now : Z;
  storage : gmap Z FSMRecord;
  ALBUM_BUFFER : list ((Z * string) * AlbumEntry);
  tasks : list Task;
  database : Database;
  outbox : list Output;
  next_message_id : Z;
  gateway_calls : list (TastingData * list Infusion * list PhotoEntry);
}.

(** ** Handlers: state and exceptions *)

Definition M (A : Type) : Type := World -> Result A * World.

Definition ret {A} (a : A) : M A := fun w => (Ok a, w).

Definition bind {A B} (m : M A) (k : A -> M B) : M B :=
  fun w =>
    match m w with
    | (Ok a, w') => k a w'
    | (Raise e, w') => (Raise e, w')
    end.

Definition raise {A} (e : Exn) : M A := fun w => (Raise e, w).

Definition gets {A} (f : World -> A) : M A := fun w => (Ok (f w), w).

Definition modify (f : World -> World) : M unit := fun w => (Ok tt, f w).

Notation "'let*' x := m 'in' k" := (bind m (fun x => k))
  (at level 10, x pattern, m at level 100, k at level 200).
Notation "m >> k" := (bind m (fun _ => k))
  (at level 90, right associativity).

Fixpoint for_each {A} (l : list A) (f : A -> M unit) : M unit :=
  match l with
  | [] => ret tt
  | x :: l' => f x >> for_each l' f
  end.

Definition empty_record : FSMRecord := {| fsm_state := None; fsm_data := ∅ |}.

Definition record_of (w : World) (uid : Z) : FSMRecord :=
  default empty_record (storage w !! uid).

Definition set_record (uid : Z) (r : FSMRecord) (w : World) : World :=
  {| now := now w; storage := <[uid := r]> (storage w);
     ALBUM_BUFFER := ALBUM_BUFFER w; tasks := tasks w;
     database := database w; outbox := outbox w;
     next_message_id := next_message_id w;
       gateway_calls := gateway_calls w |}.

(** [await state.get_state()] *)
Definition get_state (uid : Z) : M (option string) :=
  gets (fun w => fsm_state (record_of w uid)).

(** [await state.set_state(s)] *)
Definition set_state (uid : Z) (s : option string) : M unit :=
  modify (fun w =>
    set_record uid {| fsm_state := s; fsm_data := fsm_data (record_of w uid) |} w).

(** [await state.get_data()] *)
Definition get_data (uid : Z) : M (gmap string Value) :=
  gets (fun w => fsm_data (record_of w uid)).

(** [data.get(key)] *)
Definition dget (data : gmap string Value) (key : string) : Value :=
  default VNone (data !! key).

(** [await state.update_data(k1=v1, ...)] *)
Definition update_data (uid : Z) (kvs : list (string * Value)) : M unit :=
  modify (fun w =>
    let r := record_of w uid in
    set_record uid
      {| fsm_state := fsm_state r;
         fsm_data := fold_left (fun d kv => <[fst kv := snd kv]> d) kvs (fsm_data r) |} w).

(** [await state.clear()]: the state becomes [None], the data [{}]. *)
Definition clear (uid : Z) : M unit :=
  modify (set_record uid empty_record).

Definition send (o : Output) : M unit :=
  modify (fun w =>
    {| now := now w; storage := storage w;
       ALBUM_BUFFER := ALBUM_BUFFER w; tasks := tasks w;
       database := database w; outbox := outbox w ++ [o];
       next_message_id := next_message_id w;
       gateway_calls := gateway_calls w |}).

(** A message sent to the chat; the result is its [message_id]. *)
Definition post (o : Output) : M Z :=
  fun w =>
    (Ok (next_message_id w),
     {| now := now w; storage := storage w;
        ALBUM_BUFFER := ALBUM_BUFFER w; tasks := tasks w;
        database := database w; outbox := outbox w ++ [o];
        next_message_id := next_message_id w + 1;
     gateway_calls := gateway_calls w |}).

(** [await message.answer(text, reply_markup=kb)] *)
Definition answer (to : Z) (text : string) (kb : list string) : M Z :=
  post (Answer to text kb).

(** [if prev_id: await bot.edit_message_reply_markup(..., reply_markup=None)],
    any exception suppressed. *)
Definition remove_markup_if_set (chat : Z) (message_id : Value) : M unit :=
  match message_id with
  | VInt i => if truthy message_id then send (RemoveMarkup chat i) else ret tt
  | _ => ret tt
  end.

(** [ask_next(after, state, text, kb)] *)
Definition ask_next (uid : Z) (text : string) (kb : list string) : M Z :=
  let* data := get_data uid in
  let prev_id := dget data "live_q_id" in
  remove_markup_if_set uid prev_id >>
  let* sent := answer uid text kb in
  update_data uid [("live_q_id", VInt sent)] >>
  ret sent.

(** [close_inline(call, status)]: the status is appended to the pressed
    message and its keyboard is removed. *)
Definition close_inline (uid : Z) (status : string) : M unit :=
  send (CloseInline uid status).

(** [await call.answer(text, show_alert=...)] *)
Definition call_answer (uid : Z) (text : string) (show_alert : bool) : M unit :=
  send (CallbackAnswer uid text show_alert).

(** ** Photo step, album buffer and finalisation *)

Definition set_album (buf : list ((Z * string) * AlbumEntry)) (ts : list Task)
    (w : World) : World :=
  {| now := now w; storage := storage w; ALBUM_BUFFER := buf; tasks := ts;
     database := database w; outbox := outbox w;
     next_message_id := next_message_id w;
       gateway_calls := gateway_calls w |}.

Definition key_eqb (a b : Z * string) : bool :=
  (fst a =? fst b) && String.eqb (snd a) (snd b).

(** [ALBUM_BUFFER.get(key)] *)
Fixpoint buffer_get (key : Z * string) (buf : list ((Z * string) * AlbumEntry))
  : option AlbumEntry :=
  match buf with
  | [] => None
  | (k, e) :: buf' => if key_eqb key k then Some e else buffer_get key buf'
  end.

(** [ALBUM_BUFFER[key] = entry]: a new key goes to the end of the dict, an
    existing key keeps its place. *)
Fixpoint buffer_set (key : Z * string) (e : AlbumEntry)
    (buf : list ((Z * string) * AlbumEntry)) : list ((Z * string) * AlbumEntry) :=
  match buf with
  | [] => [(key, e)]
  | (k, e') :: buf' =>
      if key_eqb key k then (k, e) :: buf' else (k, e') :: buffer_set key e buf'
  end.

Fixpoint buffer_remove (key : Z * string) (buf : list ((Z * string) * AlbumEntry))
  : list ((Z * string) * AlbumEntry) :=
  match buf with
  | [] => []
  | (k, e) :: buf' =>
      if key_eqb key k then buf' else (k, e) :: buffer_remove key buf'
  end.

(** [ALBUM_BUFFER.pop(key, None)] *)
Definition buffer_pop (key : Z * string) : M (option AlbumEntry) :=
  fun w =>
    (Ok (buffer_get key (ALBUM_BUFFER w)),
     set_album (buffer_remove key (ALBUM_BUFFER w)) (tasks w) w).

(** [if task and not task.done(): task.cancel()] *)
Definition cancel_task (t : option nat) : M unit :=
  match t with
  | None => ret tt
  | Some i =>
      modify (fun w =>
        match tasks w !! i with
        | Some tk =>
            match status tk with
            | Pending =>
                set_album (ALBUM_BUFFER w)
                  (<[i := {| task_key := task_key tk; deadline := deadline tk;
                             status := Cancelled |}]> (tasks w)) w
            | _ => w
            end
        | None => w
        end)
  end.

(** [asyncio.create_task(_album_timeout_handler(key))]: the new task sleeps
    for [ALBUM_TIMEOUT]. *)
Definition create_task (key : Z * string) : M nat :=
  fun w =>
    (Ok (length (tasks w)),
     set_album (ALBUM_BUFFER w)
       (tasks w ++ [{| task_key := key; deadline := now w + ALBUM_TIMEOUT;
                       status := Pending |}]) w).

(** [list(data.get("new_photos", []) or [])] *)
Definition photos_of (data : gmap string Value) : list PhotoEntry :=
  match dget data "new_photos" with
  | VPhotos l => l
  | _ => []
  end.

Definition zlen {A} (l : list A) : Z := Z.of_nat (length l).

(** What Telegram answers to [get_file] and [download_file]. *)
Inductive Fetched :=
| GetFileFailed
| DownloadFailed
| File (basename : string) (content : string).

(** An incoming photo message: sender, album id, and the largest size of
    the photo ([message.photo[-1]]). *)
Record PhotoMessage := {
  from_user : Z;
  media_group_id : option string;
  photo_file_id : string;
  photo_file_unique_id : string;
}.

(** ** Time zone offsets and comma-separated lists *)

(** [TZ_OFFSET_PATTERN.fullmatch(text)]: an optional sign, one or two
    digits, and optionally a colon or a dot followed by one or two
    digits. The result holds the groups sign, hours, and sep with
    minutes. *)
Definition upto_two_digits (s : list ascii) : list ascii * list ascii :=
  match s with
  | a :: b :: t =>
      if Validators.is_digit a then
        if Validators.is_digit b then ([a; b], t) else ([a], b :: t)
      else ([], s)
  | [a] => if Validators.is_digit a then ([a], []) else ([], s)
  | [] => ([], [])
  end.

Definition tz_offset_match (text : list ascii)
  : option (option ascii * list ascii * option (ascii * list ascii)) :=
  let '(sign, s1) :=
    match text with
    | a :: t =>
        if Ascii.eqb a "+" || Ascii.eqb a "-" then (Some a, t) else (None, text)
    | [] => (None, [])
    end in
  let '(hours, s2) := upto_two_digits s1 in
  match hours with
  | [] => None
  | _ =>
      match s2 with
      | [] => Some (sign, hours, None)
      | sep :: s3 =>
          if Ascii.eqb sep ":" || Ascii.eqb sep "." then
            let '(minutes, s4) := upto_two_digits s3 in
            match minutes, s4 with
            | _ :: _, [] => Some (sign, hours, Some (sep, minutes))
            | _, _ => None
            end
          else None
      end
  end.

(** [lowered.startswith("utc")] and [lowered[3:]] *)
Definition drop_utc (lowered : list ascii) : list ascii :=
  match lowered with
  | "u"%char :: "t"%char :: "c"%char :: rest => Validators.strip rest
  | _ => lowered
  end.

(** [parse_tz_offset(raw)]; the [ValueError] it raises has no message. *)
Definition parse_tz_offset (raw : string) : Result Z :=
  let text := Validators.strip (list_ascii_of_string raw) in
  match text with
  | [] => Raise (ValueError "")
  | _ =>
      let lowered := drop_utc (map Validators.lower text) in
      match tz_offset_match lowered with
      | None => Raise (ValueError "")
      | Some (sign, hours_token, tail) =>
          let negative :=
            match sign with
            | Some a => Ascii.eqb a "-"
            | None => false
            end in
          let hours := Validators.int_of_digits hours_token in
          let minutes :=
            match tail with
            | Some (sep, minutes_token) =>
                if Ascii.eqb sep ":" then
                  if String.eqb (string_of_list_ascii minutes_token) "30"
                  then Some 30 else None
                else
                  if String.eqb (string_of_list_ascii minutes_token) "5"
                  then Some 30 else None
            | None => Some 0
            end in
          match minutes with
          | None => Raise (ValueError "")
          | Some minutes =>
              if negb negative && (hours =? 14) && negb (minutes =? 0)
              then Raise (ValueError "")
              else if negative && (hours =? 12) && negb (minutes =? 0)
              then Raise (ValueError "")
              else
                let offset := hours * 60 + minutes in
                let offset := if negative then - offset else offset in
                if (offset <? -12 * 60) || (14 * 60 <? offset)
                then Raise (ValueError "")
                else Ok offset
          end
      end
  end.

(** [f"{minutes:02d}"] *)
Definition two_digits (n : Z) : list ascii :=
  let digits := Validators.str_of_int n in
  if (List.length digits <? 2)%nat then "0"%char :: digits else digits.

(** [format_tz_offset(offset_min)] *)
Definition format_tz_offset (offset_min : Z) : string :=
  let sign := if 0 <=? offset_min then "+"%char else "-"%char in
  let minutes_abs := Z.abs offset_min in
  let hours := minutes_abs / 60 in
  let minutes := minutes_abs mod 60 in
  string_of_list_ascii
    (if negb (minutes =? 0)
     then (list_ascii_of_string "UTC" ++ [sign] ++ Validators.str_of_int hours
           ++ [":"%char] ++ two_digits minutes)%list
     else (list_ascii_of_string "UTC" ++ [sign] ++ Validators.str_of_int hours)%list).

(** [raw.split(",")] *)
Fixpoint split_commas (s cur : list ascii) : list (list ascii) :=
  match s with
  | [] => [rev cur]
  | a :: s' =>
      if Ascii.eqb a "," then rev cur :: split_commas s' []
      else split_commas s' (a :: cur)
  end.

(** [", ".join(pieces)] *)
Fixpoint join_comma_space (pieces : list (list ascii)) : list ascii :=
  match pieces with
  | [] => []
  | [p] => p
  | p :: rest => (p ++ ","%char :: " "%char :: join_comma_space rest)%list
  end.

(** [_parse_quick_effects_csv(raw)]: the pieces between commas, stripped,
    without the empty ones. *)
Definition _parse_quick_effects_csv (raw : list ascii) : list (list ascii) :=
  List.filter (fun p => match p with [] => false | _ => true end)
              (map Validators.strip (split_commas raw [])).

(** [normalize_csv_text(raw)] *)
Definition normalize_csv_text (raw : list ascii) : list ascii :=
  join_comma_space
    (List.filter (fun p => match p with [] => false | _ => true end)
                 (map Validators.strip (split_commas raw []))).

(** ** The cursor of the "more" buttons

    Text is given by the bytes of its UTF-8 encoding: [str.encode("utf-8")]
    changes nothing, and [bytes.decode("utf-8")] returns the bytes when
    they are well formed. The two numbers are read as ASCII text. *)

(** The alphabet of [binascii.b2a_base64]. *)
Definition b64_alphabet : list ascii :=
  list_ascii_of_string
    "ABCDEFGHIJKLMNOPQRSTUVWXYZabcdefghijklmnopqrstuvwxyz0123456789+/".

Definition b64_char (d : N) : ascii := nth (N.to_nat d) b64_alphabet "="%char.

Fixpoint index_in (ch : ascii) (l : list ascii) (i : N) : option N :=
  match l with
  | [] => None
  | a :: l' => if Ascii.eqb a ch then Some i else index_in ch l' (i + 1)%N
  end.

(** [table_a2b_base64]: the value of a character of the alphabet. *)
Definition b64_index (ch : ascii) : option N := index_in ch b64_alphabet 0%N.

(** The six-bit groups of three bytes. *)
Definition q1 (a : ascii) : N := N.shiftr (N_of_ascii a) 2.
Definition q2 (a b : ascii) : N :=
  N.lor (N.shiftl (N.land (N_of_ascii a) 3) 4) (N.shiftr (N_of_ascii b) 4).
Definition q3 (b c : ascii) : N :=
  N.lor (N.shiftl (N.land (N_of_ascii b) 15) 2) (N.shiftr (N_of_ascii c) 6).
Definition q4 (c : ascii) : N := N.land (N_of_ascii c) 63.

(** [binascii.b2a_base64(data, newline=False)]: four characters for three
    bytes; a last group of one or two bytes is filled with zero bits and
    padded. *)
Fixpoint b2a_base64 (data : list ascii) : list ascii :=
  match data with
  | [] => []
  | [a] => [b64_char (q1 a); b64_char (q2 a zero); "="%char; "="%char]
  | [a; b] => [b64_char (q1 a); b64_char (q2 a b); b64_char (q3 b zero); "="%char]
  | a :: b :: c :: rest =>
      b64_char (q1 a) :: b64_char (q2 a b) :: b64_char (q3 b c) :: b64_char (q4 c)
      :: b2a_base64 rest
  end.

(** [binascii.a2b_base64(data)], not strict: characters outside the
    alphabet are passed over, a pad character ends the data once it
    completes the quad, and data that ends inside a quad is an error
    ([None]). *)
Fixpoint a2b_base64 (data : list ascii) (quad_pos : nat) (leftchar : N) (pads : nat)
    (out : list ascii) : option (list ascii) :=
  match data with
  | [] => if (quad_pos =? 0)%nat then Some out else None
  | ch :: rest =>
      if Ascii.eqb ch "=" then
        if ((2 <=? quad_pos) && (4 <=? quad_pos + (pads + 1)))%nat then Some out
        else a2b_base64 rest quad_pos leftchar
               (if (2 <=? quad_pos)%nat then (pads + 1)%nat else pads) out
      else
        match b64_index ch with
        | None => a2b_base64 rest quad_pos leftchar pads out
        | Some d =>
            match quad_pos with
            | 0%nat => a2b_base64 rest 1%nat d 0%nat out
            | 1%nat =>
                a2b_base64 rest 2%nat (N.land d 15) 0%nat
                  (out ++ [ascii_of_N (N.lor (N.shiftl leftchar 2) (N.shiftr d 4))])%list
            | 2%nat =>
                a2b_base64 rest 3%nat (N.land d 3) 0%nat
                  (out ++ [ascii_of_N (N.lor (N.shiftl leftchar 4) (N.shiftr d 2))])%list
            | _ =>
                a2b_base64 rest 0%nat 0%N 0%nat
                  (out ++ [ascii_of_N (N.lor (N.shiftl leftchar 6) d)])%list
            end
        end
  end.

(** [_urlsafe_encode_translation] and [_urlsafe_decode_translation] of
    the base64 module. *)
Definition _urlsafe_encode_translation (ch : ascii) : ascii :=
  if Ascii.eqb ch "+" then "-"%char else if Ascii.eqb ch "/" then "_"%char else ch.

Definition _urlsafe_decode_translation (ch : ascii) : ascii :=
  if Ascii.eqb ch "-" then "+"%char else if Ascii.eqb ch "_" then "/"%char else ch.

(** [base64.urlsafe_b64encode(data)] *)
Definition urlsafe_b64encode (data : list ascii) : list ascii :=
  map _urlsafe_encode_translation (b2a_base64 data).

(** [base64.urlsafe_b64decode(text)] for a str: text that is not ASCII is
    refused. *)
Definition urlsafe_b64decode (text : list ascii) : option (list ascii) :=
  if forallb (fun ch => (N_of_ascii ch <? 128)%N) text then
    a2b_base64 (map _urlsafe_decode_translation text) 0%nat 0%N 0%nat []
  else None.

(** [bytes.decode("utf-8")] succeeds on the well-formed byte sequences:
    no overlong forms, no surrogates, nothing above U+10FFFF. *)
Definition continuation (b : ascii) : bool :=
  let n := N_of_ascii b in ((128 <=? n) && (n <=? 191))%N.

Fixpoint utf8_valid (s : list ascii) : bool :=
  match s with
  | [] => true
  | b0 :: s1 =>
      let n0 := N_of_ascii b0 in
      if (n0 <=? 127)%N then utf8_valid s1
      else if ((194 <=? n0) && (n0 <=? 223))%N then
        match s1 with
        | b1 :: s2 => continuation b1 && utf8_valid s2
        | _ => false
        end
      else if ((224 <=? n0) && (n0 <=? 239))%N then
        match s1 with
        | b1 :: b2 :: s3 =>
            let n1 := N_of_ascii b1 in
            ((if (n0 =? 224)%N then 160 else 128) <=? n1)%N
            && (n1 <=? (if (n0 =? 237)%N then 159 else 191))%N
            && continuation b2 && utf8_valid s3
        | _ => false
        end
      else if ((240 <=? n0) && (n0 <=? 244))%N then
        match s1 with
        | b1 :: b2 :: b3 :: s4 =>
            let n1 := N_of_ascii b1 in
            ((if (n0 =? 240)%N then 144 else 128) <=? n1)%N
            && (n1 <=? (if (n0 =? 244)%N then 143 else 191))%N
            && continuation b2 && continuation b3 && utf8_valid s4
        | _ => false
        end
      else false
  end.

(** [text.rstrip("=")] *)
Fixpoint lstrip_pad (s : list ascii) : list ascii :=
  match s with
  | a :: s' => if Ascii.eqb a "=" then lstrip_pad s' else s
  | [] => []
  end.

Definition rstrip_pad (s : list ascii) : list ascii := rev (lstrip_pad (rev s)).

(** [encode_more_payload(uid, min_id, extra)] *)
Definition encode_more_payload (uid min_id : Z) (extra : list ascii) : list ascii :=
  let encoded_extra :=
    match extra with
    | [] => []
    | _ => rstrip_pad (urlsafe_b64encode extra)
    end in
  (Validators.str_of_int uid ++ "|"%char :: Validators.str_of_int min_id
   ++ "|"%char :: encoded_extra)%list.

(** The text before the first "|" and the text after it. *)
Fixpoint split_bar (s cur : list ascii) : option (list ascii * list ascii) :=
  match s with
  | [] => None
  | a :: s' =>
      if Ascii.eqb a "|" then Some (rev cur, s') else split_bar s' (a :: cur)
  end.

(** [payload.split("|", 2)] *)
Definition split_bars (payload : list ascii) : list (list ascii) :=
  match split_bar payload [] with
  | None => [payload]
  | Some (first, rest) =>
      match split_bar rest [] with
      | None => [first; rest]
      | Some (second, third) => [first; second; third]
      end
  end.

(** [decode_more_payload(payload)]. [None] is an exception: the
    [ValueError] of the function or of [int], [binascii.Error] or
    [UnicodeDecodeError], all of them [ValueError]s. *)
Definition decode_more_payload (payload : list ascii) : option (Z * Z * list ascii) :=
  match split_bars payload with
  | first :: second :: more =>
      match Validators.int_of_string first, Validators.int_of_string second with
      | Some uid, Some min_id =>
          let extra_enc := match more with e :: _ => e | [] => [] end in
          match extra_enc with
          | [] => Some (uid, min_id, [])
          | _ =>
              let padding :=
                repeat "="%char
                  (Z.to_nat ((- Z.of_nat (List.length extra_enc)) mod 4)) in
              match urlsafe_b64decode (extra_enc ++ padding)%list with
              | Some extra => if utf8_valid extra then Some (uid, min_id, extra) else None
              | None => None
              end
          end
      | _, _ => None
      end
  | _ => None
  end.

Section Handlers.

(** The integer held by the environment variable PHOTO_LIMIT, if any. *)
Variable PHOTO_LIMIT : option Z.
Definition MAX_PHOTOS : Z := MAX_PHOTOS_of PHOTO_LIMIT.

(** Telegram's file service. *)
Variable fetch : string -> Fetched.

(** Blob storage and the other database sessions (see [Tastings]). *)
Variable save_photo_bytes : Value -> Z -> string -> string -> Result SaveResult.
Variable concurrent : nat -> Database -> Database.

(** [get_user_now_hm(uid)]: the user's local time as HH:MM. *)
Variable get_user_now_hm : Z -> string.

(** [if progress_id: await bot.delete_message(chat_id, progress_id)], any
    exception suppressed. *)
Definition delete_if_set (chat : Z) (message_id : Value) : M unit :=
  match message_id with
  | VInt i => if truthy message_id then send (DeleteMessage chat i) else ret tt
  | _ => ret tt
  end.

(** [update_photo_progress(message, state, count, limit)] *)
Definition update_photo_progress (chat uid : Z) (count limit : Z) : M unit :=
  let* data := get_data uid in
  let progress_id := dget data "progress_msg_id" in
  delete_if_set chat progress_id >>
  let* sent := post (Progress chat count limit) in
  update_data uid [("progress_msg_id", VInt sent);
                   ("photo_count", VInt count);
                   ("photo_limit", VInt limit)].

(** [clear_photo_progress(bot, chat_id, state)] *)
Definition clear_photo_progress (chat uid : Z) : M unit :=
  let* data := get_data uid in
  let progress_id := dget data "progress_msg_id" in
  delete_if_set chat progress_id >>
  update_data uid [("progress_msg_id", VNone)].

(** [_store_photo_from_file_id(message, state, file_id, photos,
    file_unique_id=)]. The list [photos] is extended in place; the model
    returns it next to the boolean. *)
Definition _store_photo_from_file_id (chat uid : Z) (fid : string)
    (photos : list PhotoEntry) (fuid : option string)
  : M (bool * list PhotoEntry) :=
  match fetch fid with
  | GetFileFailed =>
      answer chat "Не удалось получить файл из Telegram. Попробуйте ещё раз." [] >>
      ret (false, photos)
  | DownloadFailed =>
      answer chat "Не удалось скачать фото. Попробуйте ещё раз." [] >>
      ret (false, photos)
  | File basename content =>
      let hint := if String.eqb basename "" then "photo.jpg" else basename in
      let unique :=
        match fuid with
        | Some u => if String.eqb u "" then fid else u
        | None => fid
        end in
      let photos' :=
        (photos ++ [PhotoDict {| body := Some content;
                                 filename_hint := Some hint;
                                 telegram_file_id := Some fid;
                                 telegram_file_unique_id := Some unique |}])%list in
      update_data uid [("new_photos", VPhotos photos')] >>
      ret (true, photos')
  end.

(** The loop of [_process_album_entry] over the accepted files. *)
Fixpoint store_accepted (chat uid : Z) (accepted : list AlbumFile)
    (photos : list PhotoEntry) (saved_any : bool) : M (bool * list PhotoEntry) :=
  match accepted with
  | [] => ret (saved_any, photos)
  | f :: rest =>
      if String.eqb (file_id f) "" then store_accepted chat uid rest photos saved_any
      else
        let* r := _store_photo_from_file_id chat uid (file_id f) photos
                    (Some (file_unique_id f)) in
        store_accepted chat uid rest (snd r) (if fst r then true else saved_any)
  end.

(** [_process_album_entry(entry)] *)
Definition _process_album_entry (entry : AlbumEntry) : M unit :=
  match state entry, message entry, files entry with
  | Some uid, Some chat, _ :: _ =>
      let* data := get_data uid in
      let photos := photos_of data in
      let* limit :=
        match data !! "photo_limit" with
        | None => ret MAX_PHOTOS
        | Some (VInt z) => ret z
        | Some _ => raise TypeError
        end in
      let capacity := limit - zlen photos in
      if capacity <=? 0 then update_photo_progress chat uid (zlen photos) limit
      else
        let accepted := take (Z.to_nat capacity) (files entry) in
        let extra := zlen (files entry) - zlen accepted in
        let* r := store_accepted chat uid accepted photos false in
        if negb (fst r) then ret tt
        else
          update_photo_progress chat uid (zlen (snd r)) limit >>
          if 0 <? extra
          then post (LimitReached chat (zlen (snd r)) limit) >> ret tt
          else ret tt
  | _, _, _ => ret tt
  end.

(** [_album_timeout_handler(key)] once its sleep is over. *)
Definition _album_timeout_handler (key : Z * string) : M unit :=
  let* entry := buffer_pop key in
  match entry with
  | None => ret tt
  | Some e => _process_album_entry e
  end.

(** [flush_user_albums(uid, state, process=True)] *)
Definition flush_user_albums (uid : Value) (st : Z) (process : bool) : M unit :=
  if is_None uid then ret tt
  else
    let* buf := gets ALBUM_BUFFER in
    let keys := List.filter (fun key => int_eqb uid (fst key)) (map fst buf) in
    for_each keys (fun key =>
      let* entry := buffer_pop key in
      match entry with
      | None => ret tt
      | Some e =>
          cancel_task (task e) >>
          if negb process then ret tt
          else _process_album_entry
                 {| files := files e; message := message e;
                    state := Some st; task := task e |}
      end).

(** [",".join(data.get(key, [])) or None] *)
Definition csv_or_none (v : Value) : Value :=
  match v with
  | VStrs l =>
      let joined := String.concat "," l in
      if String.eqb joined "" then VNone else VStr joined
  | _ => VNone
  end.

Definition infusions_of (data : gmap string Value) : list Infusion :=
  match dget data "infusions" with
  | VInfusions l => l
  | _ => []
  end.

(** [create_tasting(tasting_data, infusions, photos)] against the database
    of the world. The arguments of the call are recorded in
    [gateway_calls], as the calls to Telegram are in [outbox]. *)
Definition create_tasting (td : TastingData) (infs : list Infusion)
    (phs : list PhotoEntry) : M Tasting :=
  fun w =>
    let outcome :=
      Tastings.create_tasting save_photo_bytes concurrent (database w) td infs phs in
    (snd (fst outcome),
     {| now := now w; storage := storage w;
        ALBUM_BUFFER := ALBUM_BUFFER w; tasks := tasks w;
        database := fst (fst outcome); outbox := outbox w;
        next_message_id := next_message_id w;
        gateway_calls := gateway_calls w ++ [(td, infs, phs)] |}).

(** The file ids shown with the card. *)
Fixpoint photo_ids_to_send (l : list PhotoEntry) : list string :=
  match l with
  | [] => []
  | PhotoDict d :: l' =>
      match telegram_file_id d with
      | Some f => if String.eqb f "" then photo_ids_to_send l'
                  else f :: photo_ids_to_send l'
      | None => photo_ids_to_send l'
      end
  | PhotoStr f :: l' =>
      if String.eqb f "" then photo_ids_to_send l' else f :: photo_ids_to_send l'
  end.

(** The [tasting_data] dict of [finalize_save]. *)
Definition full_tasting_data (data : gmap string Value) : TastingData :=
  {| td_user_id := dget data "user_id";
     td_name := dget data "name";
     td_year := dget data "year";
     td_region := dget data "region";
     td_category := dget data "category";
     td_grams := dget data "grams";
     td_temp_c := dget data "temp_c";
     td_tasted_at := dget data "tasted_at";
     td_gear := dget data "gear";
     td_aroma_dry := dget data "aroma_dry";
     td_aroma_warmed := dget data "aroma_warmed";
     td_aroma_after := dget data "aroma_after";
     td_effects_csv := csv_or_none (dget data "effects");
     td_scenarios_csv := csv_or_none (dget data "scenarios");
     td_rating := default (VInt 0) (data !! "rating");
     td_summary := py_or (dget data "summary") VNone |}.

(** [finalize_save(target_message, state)] *)
Definition finalize_save (uid : Z) : M unit :=
  let* data := get_data uid in
  flush_user_albums (dget data "user_id") uid true >>
  let* data := get_data uid in
  let tasting_data := full_tasting_data data in
  let infusions_data := infusions_of data in
  let photo_entries := take (Z.to_nat MAX_PHOTOS) (photos_of data) in
  let* t := create_tasting tasting_data infusions_data photo_entries in
  clear uid >>
  send (Card uid (id t) (photo_ids_to_send photo_entries)).

(** The [tasting_data] dict of [finalize_quick_save]. *)
Definition quick_tasting_data (data : gmap string Value) : TastingData :=
  {| td_user_id := dget data "user_id";
     td_name := dget data "name";
     td_year := VNone;
     td_region := VNone;
     td_category := py_or (dget data "category") (VStr QUICK_CATEGORY_FALLBACK);
     td_grams := dget data "grams";
     td_temp_c := dget data "temp_c";
     td_tasted_at := VNone;
     td_gear := dget data "gear";
     td_aroma_dry := dget data "aroma_dry";
     td_aroma_warmed := dget data "aroma_warmed";
     td_aroma_after := VNone;
     td_effects_csv := csv_or_none (dget data "effects");
     td_scenarios_csv := VNone;
     td_rating := dget data "rating";
     td_summary := dget data "summary" |}.

(** [finalize_quick_save(target_message, state)] *)
Definition finalize_quick_save (uid : Z) : M unit :=
  let* data := get_data uid in
  flush_user_albums (dget data "user_id") uid true >>
  let* data := get_data uid in
  let tasting_data := quick_tasting_data data in
  let photo_entries := photos_of data in
  let* t := create_tasting tasting_data [] photo_entries in
  clear uid >>
  send (Card uid (id t) (photo_ids_to_send photo_entries)).

Definition is_quick (data : gmap string Value) : bool :=
  match dget data "flow_kind" with
  | VStr k => String.eqb k "quick"
  | _ => false
  end.

(** [finalize_after_photos(target_message, state)] *)
Definition finalize_after_photos (uid : Z) : M unit :=
  let* data := get_data uid in
  if is_quick data then finalize_quick_save uid else finalize_save uid.

(** [prompt_photos(target, state)] *)
Definition prompt_photos (uid : Z) : M unit :=
  flush_user_albums (VInt uid) uid false >>
  update_data uid [("new_photos", VPhotos []);
                   ("photo_count", VInt 0);
                   ("photo_limit", VInt MAX_PHOTOS)] >>
  clear_photo_progress uid uid >>
  let* sent := post (PhotoPrompt uid MAX_PHOTOS ["skip:photos"]) in
  update_data uid [("progress_msg_id", VInt sent)] >>
  set_state uid (Some PhotoFlow_photos).

(** [photo_add(message, state)] *)
Definition photo_add (m : PhotoMessage) : M unit :=
  let st := from_user m in
  let* data := get_data st in
  match dget data "photo_limit" with
  | VNone => ret tt
  | VInt limit =>
      let photos := photos_of data in
      if limit <=? zlen photos then
        update_photo_progress st st (zlen photos) limit >>
        post (LimitReached st (zlen photos) limit) >> ret tt
      else
        let uid :=
          match py_or (dget data "user_id") (VInt (from_user m)) with
          | VInt u => u
          | _ => from_user m
          end in
        match media_group_id m with
        | Some g =>
            if String.eqb g "" then
              let* r := _store_photo_from_file_id st st (photo_file_id m) photos
                          (Some (photo_file_unique_id m)) in
              if fst r then update_photo_progress st st (zlen (snd r)) limit else ret tt
            else
              let key := (uid, g) in
              let* buf := gets ALBUM_BUFFER in
              let entry :=
                match buffer_get key buf with
                | Some e => e
                | None => {| files := []; message := Some st; state := Some st;
                             task := None |}
                end in
              cancel_task (task entry) >>
              let* t := create_task key in
              modify (fun w =>
                set_album
                  (buffer_set key
                     {| files := files entry ++
                                 [{| file_id := photo_file_id m;
                                     file_unique_id := photo_file_unique_id m |}];
                        message := Some st; state := Some st; task := Some t |}
                     (ALBUM_BUFFER w))
                  (tasks w) w)
        | None =>
            let* r := _store_photo_from_file_id st st (photo_file_id m) photos
                        (Some (photo_file_unique_id m)) in
            if fst r then update_photo_progress st st (zlen (snd r)) limit else ret tt
        end
  | _ => raise TypeError
  end.

(** [photos_done(call, state)] *)
Definition photos_done (uid : Z) : M unit :=
  let* current_state := get_state uid in
  if negb (bool_decide (current_state = Some PhotoFlow_photos)) then
    call_answer uid "Сейчас нельзя завершить добавление фото." false
  else
    let* data := get_data uid in
    match photos_of data with
    | [] =>
        call_answer uid "Сначала добавь хотя бы одно фото или пропусти шаг." true
    | _ :: _ =>
        clear_photo_progress uid uid >>
        finalize_after_photos uid >>
        call_answer uid "" false
    end.

(** [photos_skip(call, state)] *)
Definition photos_skip (uid : Z) : M unit :=
  let* data := get_data uid in
  let photos_present := truthy (dget data "new_photos") in
  if photos_present then
    call_answer uid "Уже есть загруженные фото, нажми «Готово»." true
  else
    flush_user_albums (VInt uid) uid false >>
    update_data uid [("new_photos", VPhotos [])] >>
    clear_photo_progress uid uid >>
    finalize_after_photos uid >>
    call_answer uid "" false.

(** ** Keyboards: the callback data of their buttons *)

Definition skip_kb (tag : string) : list string := ["skip:" ++ tag].

Definition CATEGORIES : list string :=
  ["Зелёный"; "Белый"; "Красный"; "Улун"; "Шу Пуэр"; "Шен Пуэр"; "Хэй Ча"; "Другое"].

Definition BODY_PRESETS : list string :=
  ["тонкое"; "лёгкое"; "среднее"; "плотное"; "маслянистое"].

Definition category_kb : list string := map (fun c => "cat:" ++ c) CATEGORIES.

Definition time_kb : list string := ["time:now"; "skip:tasted_at"].

Definition body_kb : list string :=
  (map (fun b => ("body:" ++ b)%string) BODY_PRESETS ++ ["body:other"])%list.

(** [toggle_list_kb(DESCRIPTORS, selected, prefix, include_other=True)]:
    one button per descriptor (13 of them), then "other" and "done". *)
Definition descriptors_kb (prefix : string) : list string :=
  (map (fun i => (prefix ++ ":" ++ i)%string)
       ["0"; "1"; "2"; "3"; "4"; "5"; "6"; "7"; "8"; "9"; "10"; "11"; "12"]
   ++ [(prefix ++ ":other")%string; (prefix ++ ":done")%string])%list.

Definition main_kb : list string := ["new"; "q:new"; "find"; "help"].

Definition q_cancel_only_kb : list string := ["q:cancel"].

(** [q_nav_kb(can_back, can_skip, skip_step)] *)
Definition q_nav_kb (can_back can_skip : bool) (skip_step : option string)
  : list string :=
  ((if can_back then ["q:back"] else []) ++
   (match skip_step with
    | Some step =>
        if can_skip && negb (String.eqb step "") then [("q:skip:" ++ step)%string] else []
    | None => []
    end) ++
   ["q:cancel"])%list.

Definition q_type_kb : list string :=
  (map (fun cl => ("q:type:" ++ fst cl)%string) QUICK_CATEGORIES ++ ["q:type:other"] ++
   q_nav_kb false true (Some "type"))%list.

Definition q_temp_kb : list string :=
  (["q:temp:80"; "q:temp:85"; "q:temp:90"; "q:temp:95"; "q:temp:100"] ++
   q_nav_kb true true (Some "temp"))%list.

Definition q_gear_kb : list string :=
  (map (fun cl => ("q:gear:" ++ fst cl)%string) QUICK_GEAR ++ ["q:gear:other"] ++
   q_nav_kb true true (Some "gear"))%list.

Definition q_effects_kb : list string :=
  (map (fun cl => ("q:eff:" ++ fst cl)%string) QUICK_EFFECTS ++
   ["q:eff:other"; "q:eff:done"] ++ q_nav_kb true true (Some "eff"))%list.

Definition q_rating_kb : list string :=
  (map (fun v => ("q:rate:" ++ v)%string)
       ["0"; "1"; "2"; "3"; "4"; "5"; "6"; "7"; "8"; "9"; "10"]
   ++ ["q:back"; "q:cancel"])%list.

Definition q_cancel_confirm_kb : list string := ["q:cancel:yes"; "q:cancel:no"].

(** ** Full flow: prompts and skip callbacks *)

Definition ask_ (uid : Z) (text : string) (kb : list string) : M unit :=
  ask_next uid text kb >> ret tt.

(** [ask_region_prompt] *)
Definition ask_region_prompt (uid : Z) : M unit :=
  ask_ uid "🗺️ Регион? Можно пропустить." (skip_kb "region") >>
  set_state uid (Some NewTasting_region).

(** [ask_temp_prompt] *)
Definition ask_temp_prompt (uid : Z) : M unit :=
  update_data uid [("numpad_active", VBool false)] >>
  ask_ uid "🌡️ Температура, °C? Можно пропустить." (skip_kb "temp") >>
  set_state uid (Some NewTasting_temp_c).

(** [ask_tasted_at_prompt] *)
Definition ask_tasted_at_prompt (uid : Z) : M unit :=
  let now_hm := get_user_now_hm uid in
  ask_ uid ("⏰ Время дегустации? Сейчас " ++ now_hm ++
            ". Введи ЧЧ:ММ, нажми «🕒 Текущее время» или пропусти.") time_kb >>
  set_state uid (Some NewTasting_tasted_at).

(** [skip_year_callback] *)
Definition skip_year_callback (uid : Z) : M unit :=
  update_data uid [("year", VNone); ("numpad_active", VBool false)] >>
  close_inline uid "Год: пропущено" >>
  ask_region_prompt uid >>
  call_answer uid "Пропущено" false.

(** [skip_grams_callback] *)
Definition skip_grams_callback (uid : Z) : M unit :=
  update_data uid [("grams", VNone); ("numpad_active", VBool false)] >>
  close_inline uid "Граммовка: пропущено" >>
  ask_temp_prompt uid >>
  call_answer uid "Пропущено" false.

(** [skip_temp_callback] *)
Definition skip_temp_callback (uid : Z) : M unit :=
  update_data uid [("temp_c", VNone); ("numpad_active", VBool false)] >>
  close_inline uid "Температура: пропущено" >>
  ask_tasted_at_prompt uid >>
  call_answer uid "Пропущено" false.

(** [region_skip] *)
Definition region_skip (uid : Z) : M unit :=
  update_data uid [("region", VNone)] >>
  close_inline uid "Регион: пропущено" >>
  ask_ uid "🏷️ Категория?" category_kb >>
  set_state uid (Some NewTasting_category) >>
  call_answer uid "" false.

(** [tasted_at_skip] *)
Definition tasted_at_skip (uid : Z) : M unit :=
  update_data uid [("tasted_at", VNone)] >>
  close_inline uid "Время дегустации: пропущено" >>
  ask_ uid "🍶 Посудa дегустации? Можно пропустить." (skip_kb "gear") >>
  set_state uid (Some NewTasting_gear) >>
  call_answer uid "Пропущено" false.

(** [ask_aroma_dry_call] *)
Definition ask_aroma_dry_call (uid : Z) : M unit :=
  update_data uid [("aroma_dry_sel", VStrs [])] >>
  ask_ uid "🌬️ Аромат сухого листа: выбери дескрипторы и нажми «Готово», или «Другое»."
       (descriptors_kb "ad") >>
  set_state uid (Some NewTasting_aroma_dry).

(** [gear_skip] *)
Definition gear_skip (uid : Z) : M unit :=
  update_data uid [("gear", VNone)] >>
  close_inline uid "Посуда: пропущено" >>
  ask_aroma_dry_call uid >>
  call_answer uid "" false.

(** [proceed_to_infusion_color] *)
Definition proceed_to_infusion_color (uid : Z) : M unit :=
  ask_ uid "Цвет настоя пролива? Можно пропустить." (skip_kb "color") >>
  set_state uid (Some InfusionState_color).

(** [inf_seconds_skip] *)
Definition inf_seconds_skip (uid : Z) : M unit :=
  update_data uid [("cur_seconds", VNone); ("numpad_active", VBool false)] >>
  close_inline uid "Время пролива: пропущено" >>
  proceed_to_infusion_color uid >>
  call_answer uid "Пропущено" false.

(** [color_skip] *)
Definition color_skip (uid : Z) : M unit :=
  update_data uid [("cur_color", VNone)] >>
  update_data uid [("cur_taste_sel", VStrs [])] >>
  close_inline uid "Цвет пролива: пропущено" >>
  ask_ uid "Вкус настоя: выбери дескрипторы и нажми «Готово», или «Другое»."
       (descriptors_kb "taste") >>
  set_state uid (Some InfusionState_taste) >>
  call_answer uid "" false.

(** [special_skip] *)
Definition special_skip (uid : Z) : M unit :=
  update_data uid [("cur_special", VNone)] >>
  close_inline uid "Особенные ноты: пропущено" >>
  ask_ uid "Тело настоя?" body_kb >>
  set_state uid (Some InfusionState_body) >>
  call_answer uid "" false.

(** [summary_skip] *)
Definition summary_skip (uid : Z) : M unit :=
  update_data uid [("summary", VNone)] >>
  close_inline uid "Заметка: пропущено" >>
  prompt_photos uid >>
  call_answer uid "" false.

(** ** Quick flow *)

Definition ask_quick_name (uid : Z) : M unit :=
  set_state uid (Some QuickNote_name) >>
  ask_ uid "Название чая?" q_cancel_only_kb.

Definition ask_quick_type (uid : Z) : M unit :=
  set_state uid (Some QuickNote_type_pick) >>
  ask_ uid "Тип чая?" q_type_kb.

Definition ask_quick_type_custom (uid : Z) : M unit :=
  set_state uid (Some QuickNote_type_custom) >>
  ask_ uid "Напиши тип чая текстом" (q_nav_kb true false None).

Definition ask_quick_grams (uid : Z) : M unit :=
  set_state uid (Some QuickNote_grams) >>
  ask_ uid "Граммовка? Можно пропустить." (q_nav_kb true true (Some "grams")).

Definition ask_quick_temp (uid : Z) : M unit :=
  set_state uid (Some QuickNote_temp_pick) >>
  ask_ uid "Температура воды?" q_temp_kb.

Definition ask_quick_gear (uid : Z) : M unit :=
  set_state uid (Some QuickNote_gear_pick) >>
  ask_ uid "Посудa дегустации?" q_gear_kb.

Definition ask_quick_gear_custom (uid : Z) : M unit :=
  set_state uid (Some QuickNote_gear_custom) >>
  ask_ uid "Напиши посуду текстом" (q_nav_kb true false None).

Definition ask_quick_aroma (uid : Z) : M unit :=
  set_state uid (Some QuickNote_aroma) >>
  ask_ uid "Аромат? Можно пропустить." (q_nav_kb true true (Some "aroma")).

Definition ask_quick_taste (uid : Z) : M unit :=
  set_state uid (Some QuickNote_taste) >>
  ask_ uid "Вкус? Можно пропустить." (q_nav_kb true true (Some "taste")).

Definition ask_quick_effects (uid : Z) : M unit :=
  get_data uid >>
  set_state uid (Some QuickNote_eff_pick) >>
  ask_ uid "Ощущения? Жми варианты, затем «Готово», можно пропустить." q_effects_kb.

Definition ask_quick_rating (uid : Z) : M unit :=
  set_state uid (Some QuickNote_rating) >>
  ask_ uid "Оценка 0..10?" q_rating_kb.

Definition ask_quick_note (uid : Z) : M unit :=
  set_state uid (Some QuickNote_note) >>
  ask_ uid "Заметка? Можно пропустить." (q_nav_kb true true (Some "note")).

Definition ask_quick_effect_custom (uid : Z) : M unit :=
  set_state uid (Some QuickNote_eff_custom) >>
  ask_ uid "Напиши своё ощущение" (q_nav_kb true false None).

(** [quick_grams_in(message, state)]: the text of the message is parsed
    by [parse_grams_value]; its [ValueError] is caught and shown, any
    other exception leaves the handler. *)
Definition quick_grams_in (uid : Z) (text : string) : M unit :=
  let raw := string_of_list_ascii (Validators.strip (list_ascii_of_string text)) in
  match Validators.parse_grams_value raw with
  | Raise (ValueError msg) =>
      answer uid msg [] >>
      ask_quick_grams uid
  | Raise e => raise e
  | Ok val =>
      update_data uid [("grams", VFloat val)] >>
      ask_quick_temp uid
  end.

(** [s.partition(":")[2]]: what follows the first colon. *)
Fixpoint after_colon (s : string) : string :=
  match s with
  | EmptyString => EmptyString
  | String c s' => if Ascii.eqb c ":" then s' else after_colon s'
  end.

(** [quick_skip(call, state)] *)
Definition quick_skip (uid : Z) (data : string) : M unit :=
  let step := after_colon (after_colon data) in
  (if String.eqb step "type" then
     update_data uid [("category", VStr QUICK_CATEGORY_FALLBACK)] >>
     close_inline uid "Тип: не знаю" >>
     ask_quick_grams uid
   else if String.eqb step "grams" then
     update_data uid [("grams", VNone)] >>
     close_inline uid "Граммовка: пропущено" >>
     ask_quick_temp uid
   else if String.eqb step "temp" then
     update_data uid [("temp_c", VNone)] >>
     close_inline uid "Температура: пропущено" >>
     ask_quick_gear uid
   else if String.eqb step "gear" then
     update_data uid [("gear", VNone)] >>
     close_inline uid "Посуда: пропущено" >>
     ask_quick_aroma uid
   else if String.eqb step "aroma" then
     update_data uid [("aroma_dry", VNone)] >>
     close_inline uid "Аромат: пропущено" >>
     ask_quick_taste uid
   else if String.eqb step "taste" then
     update_data uid [("aroma_warmed", VNone)] >>
     close_inline uid "Вкус: пропущено" >>
     ask_quick_effects uid
   else if String.eqb step "eff" then
     update_data uid [("effects", VStrs [])] >>
     close_inline uid "Ощущения: пропущено" >>
     ask_quick_rating uid
   else if String.eqb step "note" then
     update_data uid [("summary", VNone)] >>
     close_inline uid "Заметка: пропущено" >>
     prompt_photos uid
   else ret tt) >>
  call_answer uid "Пропущено" false.

Definition state_is (current : option string) (s : string) : bool :=
  match current with
  | Some c => String.eqb c s
  | None => false
  end.

(** [quick_back(call, state)] *)
Definition quick_back (uid : Z) : M unit :=
  let* current_state := get_state uid in
  (if state_is current_state QuickNote_grams then ask_quick_type uid
   else if state_is current_state QuickNote_temp_pick then ask_quick_grams uid
   else if state_is current_state QuickNote_gear_pick then ask_quick_temp uid
   else if state_is current_state QuickNote_type_custom then ask_quick_type uid
   else if state_is current_state QuickNote_gear_custom then ask_quick_gear uid
   else if state_is current_state QuickNote_aroma then ask_quick_gear uid
   else if state_is current_state QuickNote_taste then ask_quick_aroma uid
   else if state_is current_state QuickNote_eff_pick then ask_quick_taste uid
   else if state_is current_state QuickNote_eff_custom then ask_quick_effects uid
   else if state_is current_state QuickNote_rating then ask_quick_effects uid
   else if state_is current_state QuickNote_note then ask_quick_rating uid
   else ret tt) >>
  call_answer uid "" false.

(** [quick_cancel(call, state)] *)
Definition quick_cancel (uid : Z) : M unit :=
  let* current_state := get_state uid in
  match current_state with
  | None => call_answer uid "" false
  | Some cs =>
      if String.eqb cs "" then call_answer uid "" false
      else
        update_data uid [("cancel_return_state", VStr cs)] >>
        set_state uid (Some QuickCancel_confirm) >>
        ask_ uid "Отменить все изменения и вернуться в меню?" q_cancel_confirm_kb >>
        call_answer uid "" false
  end.

(** [quick_cancel_yes(call, state)] *)
Definition quick_cancel_yes (uid : Z) : M unit :=
  let* data := get_data uid in
  flush_user_albums (dget data "user_id") uid false >>
  clear uid >>
  answer uid "Привет! Что делаем?" main_kb >>
  call_answer uid "" false.

(** [quick_cancel_no(call, state)] *)
Definition quick_cancel_no (uid : Z) : M unit :=
  let* data := get_data uid in
  match dget data "cancel_return_state" with
  | VStr return_state =>
      if String.eqb return_state "" then call_answer uid "" false
      else
        set_state uid (Some return_state) >>
        (if String.eqb return_state QuickNote_name then ask_quick_name uid
         else if String.eqb return_state QuickNote_type_pick then ask_quick_type uid
         else if String.eqb return_state QuickNote_type_custom then ask_quick_type_custom uid
         else if String.eqb return_state QuickNote_grams then ask_quick_grams uid
         else if String.eqb return_state QuickNote_temp_pick then ask_quick_temp uid
         else if String.eqb return_state QuickNote_gear_pick then ask_quick_gear uid
         else if String.eqb return_state QuickNote_gear_custom then ask_quick_gear_custom uid
         else if String.eqb return_state QuickNote_aroma then ask_quick_aroma uid
         else if String.eqb return_state QuickNote_taste then ask_quick_taste uid
         else if String.eqb return_state QuickNote_eff_pick then ask_quick_effects uid
         else if String.eqb return_state QuickNote_eff_custom then ask_quick_effect_custom uid
         else if String.eqb return_state QuickNote_rating then ask_quick_rating uid
         else if String.eqb return_state QuickNote_note then ask_quick_note uid
         else ret tt) >>
        call_answer uid "" false
  | _ => call_answer uid "" false
  end.

(** [quick_cancel_router(call, state)] *)
Definition quick_cancel_router (uid : Z) (data : string) : M unit :=
  if String.eqb data "q:cancel:yes" then quick_cancel_yes uid
  else if String.eqb data "q:cancel:no" then quick_cancel_no uid
  else ret tt.

(** ** Dispatch of callback queries ([setup_handlers]) *)

(** A registered callback handler: the state filter, the filter on
    [call.data], and the handler. Handlers outside this development are
    kept in the table, in their place, under [unmodelled]. *)
Inductive DataFilter :=
| DataIs (s : string)
| DataStartsWith (s : string)
| DataIn (l : list string).

Definition data_matches (f : DataFilter) (data : string) : bool :=
  match f with
  | DataIs s => String.eqb data s
  | DataStartsWith s => String.prefix s data
  | DataIn l => existsb (String.eqb data) l
  end.

Definition unmodelled (name : string) : Z -> string -> M unit :=
  fun _ _ => raise (RuntimeError ("unmodelled handler " ++ name)).

Definition QuickEditFlow_choosing : string := "QuickEditFlow:choosing".

Definition callback_handlers
  : list (option string * DataFilter * (Z -> string -> M unit)) :=
  [ (None, DataIs "new", unmodelled "new_cb");
    (None, DataIs "q:new", unmodelled "quick_new_cb");
    (None, DataIs "find", unmodelled "find_cb");
    (None, DataIs "help", unmodelled "help_cb");
    (None, DataIs "menu:main", unmodelled "tz_menu_back");
    (None, DataIs "back:main", unmodelled "back_main");
    (None, DataIs "nav:home", unmodelled "nav_home");
    (None, DataIs "to_menu", unmodelled "nav_home");
    (None, DataStartsWith "cat:", unmodelled "cat_pick");
    (None, DataStartsWith "scat:", unmodelled "s_cat_pick");
    (Some NewTasting_year, DataIs "skip:year", fun u _ => skip_year_callback u);
    (Some NewTasting_grams, DataIs "skip:grams", fun u _ => skip_grams_callback u);
    (Some NewTasting_temp_c, DataIs "skip:temp", fun u _ => skip_temp_callback u);
    (Some InfusionState_seconds, DataIs "skip:infsec", fun u _ => inf_seconds_skip u);
    (None, DataIs "skip:region", fun u _ => region_skip u);
    (None, DataIs "time:now", unmodelled "time_now");
    (None, DataIs "skip:tasted_at", fun u _ => tasted_at_skip u);
    (None, DataIs "skip:gear", fun u _ => gear_skip u);
    (None, DataStartsWith "ad:", unmodelled "aroma_dry_toggle");
    (None, DataStartsWith "aw:", unmodelled "aroma_warmed_toggle");
    (None, DataIs "skip:color", fun u _ => color_skip u);
    (None, DataStartsWith "taste:", unmodelled "taste_toggle");
    (None, DataIs "skip:special", fun u _ => special_skip u);
    (None, DataStartsWith "body:", unmodelled "inf_body_pick");
    (None, DataStartsWith "aft:", unmodelled "aftertaste_toggle");
    (None, DataIs "more_inf", unmodelled "more_infusions");
    (None, DataIs "finish_inf", unmodelled "finish_infusions");
    (None, DataStartsWith "eff:", unmodelled "eff_toggle_or_done");
    (None, DataStartsWith "scn:", unmodelled "scn_toggle_or_done");
    (Some QuickNote_type_pick, DataStartsWith "q:type:", unmodelled "quick_type_pick");
    (Some QuickNote_temp_pick, DataStartsWith "q:temp:", unmodelled "quick_temp_pick");
    (Some QuickNote_gear_pick, DataStartsWith "q:gear:", unmodelled "quick_gear_pick");
    (Some QuickNote_eff_pick, DataStartsWith "q:eff:", unmodelled "quick_eff_toggle");
    (Some QuickNote_rating, DataStartsWith "q:rate:", unmodelled "quick_rating_pick");
    (None, DataStartsWith "q:skip:", quick_skip);
    (None, DataIs "q:back", fun u _ => quick_back u);
    (None, DataIs "q:cancel", fun u _ => quick_cancel u);
    (Some QuickCancel_confirm, DataIn ["q:cancel:yes"; "q:cancel:no"], quick_cancel_router);
    (None, DataStartsWith "qedit:back:", unmodelled "quick_edit_back");
    (Some QuickEditFlow_choosing, DataStartsWith "qefld:", unmodelled "quick_edit_field_pick");
    (Some QuickEditFlow_choosing, DataStartsWith "qedit:type:", unmodelled "quick_edit_type_pick");
    (Some QuickEditFlow_choosing, DataStartsWith "qedit:temp:", unmodelled "quick_edit_temp_pick");
    (Some QuickEditFlow_choosing, DataStartsWith "qedit:gear:", unmodelled "quick_edit_gear_pick");
    (Some QuickEditFlow_choosing, DataStartsWith "qedit:eff:", unmodelled "quick_edit_eff_toggle");
    (Some QuickEditFlow_choosing, DataStartsWith "qedit:rate:", unmodelled "quick_edit_rating_pick");
    (None, DataStartsWith "qedit:", unmodelled "quick_edit_cb");
    (None, DataStartsWith "rate:", unmodelled "rate_pick");
    (None, DataIs "skip:summary", fun u _ => summary_skip u);
    (None, DataIs "photos:done", fun u _ => photos_done u);
    (None, DataIs "skip:photos", fun u _ => photos_skip u);
    (None, DataStartsWith "pics:", unmodelled "show_pics");
    (None, DataIs "s_last", unmodelled "s_last");
    (None, DataIs "s_name", unmodelled "s_name");
    (None, DataIs "s_cat", unmodelled "s_cat");
    (None, DataIs "s_year", unmodelled "s_year");
    (None, DataIs "s_rating", unmodelled "s_rating");
    (None, DataStartsWith "frate:", unmodelled "rating_filter_pick");
    (None, DataStartsWith "more:last:", unmodelled "more_last");
    (None, DataStartsWith "more:name:", unmodelled "more_name");
    (None, DataStartsWith "more:cat:", unmodelled "more_cat");
    (None, DataStartsWith "more:year:", unmodelled "more_year");
    (None, DataStartsWith "more:rating:", unmodelled "more_rating");
    (None, DataStartsWith "efld:", unmodelled "edit_field_select");
    (None, DataStartsWith "ecat:", unmodelled "edit_category_pick");
    (None, DataStartsWith "erat:", unmodelled "edit_rating_pick");
    (None, DataStartsWith "edit:", unmodelled "edit_cb");
    (None, DataStartsWith "open:", unmodelled "open_card");
    (None, DataStartsWith "del:", unmodelled "del_cb");
    (None, DataStartsWith "delok:", unmodelled "del_ok_cb");
    (None, DataStartsWith "delno:", unmodelled "del_no_cb") ].

Definition handler_matches (current : option string) (data : string)
    (h : option string * DataFilter * (Z -> string -> M unit)) : bool :=
  (match fst (fst h) with
   | None => true
   | Some s => state_is current s
   end) && data_matches (snd (fst h)) data.

(** A callback query from [uid] with [call.data = data]: the first
    registered handler whose filters pass runs; if none passes the update
    is dropped. *)
Definition callback_query (uid : Z) (data : string) : M unit :=
  let* current := get_state uid in
  match find (handler_matches current data) callback_handlers with
  | Some h => snd h uid data
  | None => ret tt
  end.

(** ** The event loop: timers *)

(** The task of index [i] wakes up if its sleep is over and it was not
    cancelled. An exception inside a task is logged by asyncio and goes no
    further. *)
Definition wake (i : nat) (w : World) : World :=
  match tasks w !! i with
  | Some tk =>
      match status tk with
      | Pending =>
          if deadline tk <=? now w then
            snd (_album_timeout_handler (task_key tk)
                   (set_album (ALBUM_BUFFER w)
                      (<[i := {| task_key := task_key tk; deadline := deadline tk;
                                 status := Done |}]> (tasks w)) w))
          else w
      | _ => w
      end
  | None => w
  end.

(** The clock reaches [t]: every sleep that ends by then is over, in the
    order the tasks were created. *)
Definition advance (t : Z) (w : World) : World :=
  let w' := {| now := Z.max (now w) t; storage := storage w;
               ALBUM_BUFFER := ALBUM_BUFFER w; tasks := tasks w;
               database := database w; outbox := outbox w;
               next_message_id := next_message_id w;
       gateway_calls := gateway_calls w |} in
  fold_left (fun w i => wake i w) (seq 0 (length (tasks w'))) w'.

(** A photo message delivered at time [t]. *)
Definition deliver_photo (w : World) (ev : Z * PhotoMessage) : World :=
  snd (photo_add (snd ev) (advance (fst ev) w)).

(** Photo messages delivered at their times, then the clock runs until
    [horizon]. *)
Definition run_photos (evs : list (Z * PhotoMessage)) (horizon : Z) (w : World) : World :=
  advance horizon (fold_left deliver_photo evs w).

End Handlers.

End Bot.

(** * Properties *)

(** ** Validators *)

Section ValidatorFacts.
Import Validators.

(** The range check of [parse_float] looks at the quantized value only:
    whenever the text reads as a decimal whose quantized value lies inside
    the bounds, that value is returned, wherever the value read lies. *)
Lemma parse_float_checks_rounded (raw : string) (lo hi value q : Decimal)
    (msg : string) (precision : Z) :
  comma_to_dot (strip (list_ascii_of_string raw)) <> [] ->
  Decimal_of_string (comma_to_dot (strip (list_ascii_of_string raw))) = Some value ->
  quantize value (quant_exp precision) = Ok q ->
  dec_lt q lo = Some false ->
  dec_lt hi q = Some false ->
  parse_float raw lo hi msg precision = Ok q.
Proof.
  intros Hne Hparse Hq Hlo Hhi. unfold parse_float.
  destruct (comma_to_dot (strip (list_ascii_of_string raw))) as [|c rest] eqn:Htext;
    [congruence|].
  rewrite Hparse, Hq, Hlo, Hhi. reflexivity.
Qed.

(** Quantizing to one decimal place turns 50.01 .. 50.04 into 50.0. *)
Lemma quantize_just_above_fifty (c : Z) :
  5001 <= c <= 5004 ->
  quantize (Finite false c (-2)) (quant_exp 1) = Ok (Finite false 500 (-1)).
Proof.
  intros Hc.
  assert (Hcases : c = 5001 \/ c = 5002 \/ c = 5003 \/ c = 5004) by lia.
  destruct Hcases as [-> | [-> | [-> | ->]]]; reflexivity.
Qed.

(** C10. [parse_float] rounds half-up to the precision before it checks the
    range: "50.04" reads as 50.04, which is above the maximum 50.0, yet
    with precision 1 the call returns the rounded value 50.0 instead of
    failing; in the same way "0.05", below the minimum 0.1, is returned as
    0.1. An input whose rounded value stays outside, "50.05", fails. *)
Theorem parse_float_rounds_before_range_check (error_message : string) :
  let min_value := Finite false 1 (-1) in
  let max_value := Finite false 500 (-1) in
  Decimal_of_string (list_ascii_of_string "50.04") = Some (Finite false 5004 (-2))
  /\ dec_lt max_value (Finite false 5004 (-2)) = Some true
  /\ parse_float "50.04" min_value max_value error_message 1
     = Ok (Finite false 500 (-1))
  /\ Decimal_of_string (list_ascii_of_string "0.05") = Some (Finite false 5 (-2))
  /\ dec_lt (Finite false 5 (-2)) min_value = Some true
  /\ parse_float "0.05" min_value max_value error_message 1
     = Ok (Finite false 1 (-1))
  /\ parse_float "50.05" min_value max_value error_message 1
     = Raise (ValueError error_message).
Proof.
  cbv zeta. repeat split; reflexivity.
Qed.

End ValidatorFacts.

(** ** Persistence gateway *)

Section GatewayFacts.
Import Tastings.

Variable save_photo_bytes : Value -> Z -> string -> string -> Result SaveResult.
Variable concurrent : nat -> Database -> Database.

(** The loop never runs out of the iterations the model grants it. *)
Lemma create_tasting_fuel (db : Database) (td : TastingData)
    (infs : list Infusion) (phs : list PhotoEntry) :
  (forall k d, snd (transaction save_photo_bytes concurrent k d td infs phs)
               <> Raise (RuntimeError "fuel")) ->
  snd (fst (create_tasting save_photo_bytes concurrent db td infs phs))
  <> Raise (RuntimeError "fuel").
Proof.
  intros Hsave. unfold create_tasting. cbn [create_loop].
  change ((0 <? _MAX_CREATE_ATTEMPTS)%nat) with true. cbv iota.
  pose proof (Hsave 1%nat db) as H1.
  destruct (transaction save_photo_bytes concurrent 1 db td infs phs) as [db1 [t|e]].
  - discriminate.
  - destruct e; cbn in *; try discriminate; try assumption.
    pose proof (Hsave 2%nat db1) as H2.
    destruct (transaction save_photo_bytes concurrent 2 db1 td infs phs) as [db2 [t|e]].
    + discriminate.
    + destruct e; cbn in *; try discriminate; assumption.
Qed.

(** C2. [create_tasting] makes one or two attempts, never more. When the
    first attempt ends with IntegrityError (the uniqueness violation on the
    insert), the whole transaction, sequence number included, is run a
    second time and whatever it yields is the outcome of the call: a second
    IntegrityError is raised to the caller, with no third attempt. Any other
    outcome of the first attempt, success or another exception, ends the
    call after one attempt. *)
Theorem create_tasting_retries_once (db : Database) (td : TastingData)
    (infs : list Infusion) (phs : list PhotoEntry) :
  let outcome := create_tasting save_photo_bytes concurrent db td infs phs in
  let attempts := snd outcome in
  let result := snd (fst outcome) in
  let db_after := fst (fst outcome) in
  (1 <= attempts <= _MAX_CREATE_ATTEMPTS)%nat
  /\ match transaction save_photo_bytes concurrent 1 db td infs phs with
     | (db1, Raise IntegrityError) =>
         attempts = 2%nat
         /\ (db_after, result) = transaction save_photo_bytes concurrent 2 db1 td infs phs
         /\ (snd (transaction save_photo_bytes concurrent 2 db1 td infs phs)
             = Raise IntegrityError -> result = Raise IntegrityError)
     | (db1, first_result) =>
         attempts = 1%nat /\ db_after = db1 /\ result = first_result
     end.
Proof.
  cbv zeta. unfold create_tasting, _MAX_CREATE_ATTEMPTS. cbn [create_loop].
  change ((0 <? 2)%nat) with true. cbv iota.
  destruct (transaction save_photo_bytes concurrent 1 db td infs phs) as [db1 [t|e]].
  - cbn. repeat split; lia.
  - destruct e; cbn; try (repeat split; lia).
    destruct (transaction save_photo_bytes concurrent 2 db1 td infs phs) as [db2 [t|e]].
    + cbn. repeat split; try lia. discriminate.
    + destruct e; cbn; repeat split; try lia; try discriminate; auto.
Qed.

End GatewayFacts.

(** *** Sequence numbers *)

Section SeqFacts.
Import Tastings.

(** The invariant the unique index keeps on the committed rows. *)
Definition unique_user_seq (db : Database) : Prop :=
  NoDup (map (fun t => (user_id t, seq_no t)) (tastings db)).

Lemma seq_taken_true (db : Database) (u s : Z) :
  seq_taken db u s = true <->
  exists t, In t (tastings db) /\ user_id t = u /\ seq_no t = s.
Proof.
  unfold seq_taken. rewrite existsb_exists. split.
  - intros (t & Hin & Ht). apply andb_true_iff in Ht as [H1 H2].
    apply bool_decide_eq_true in H1, H2. eauto.
  - intros (t & Hin & H1 & H2). exists t. split; [assumption|].
    apply andb_true_iff. split; apply bool_decide_eq_true; assumption.
Qed.

Lemma seq_taken_false (db : Database) (u s : Z) :
  seq_taken db u s = false <->
  forall t, In t (tastings db) -> user_id t = u -> seq_no t <> s.
Proof.
  split.
  - intros Hf t Hin Hu Hs.
    assert (seq_taken db u s = true) by (apply seq_taken_true; eauto).
    congruence.
  - intros H. destruct (seq_taken db u s) eqn:E; [|reflexivity].
    apply seq_taken_true in E as (t & Hin & Hu & Hs). exfalso. eapply H; eauto.
Qed.

Lemma first_desc_none (l : list Z) : first_desc l = None <-> l = [].
Proof.
  destruct l as [|x l]; cbn; [tauto|].
  destruct (first_desc l); split; intros; discriminate.
Qed.

Lemma first_desc_max (l : list Z) (m : Z) :
  first_desc l = Some m -> In m l /\ forall x, In x l -> x <= m.
Proof.
  revert m. induction l as [|x l IH]; intros m; cbn; [discriminate|].
  destruct (first_desc l) as [y|] eqn:E.
  - intros [= <-]. destruct (IH y eq_refl) as [Hin Hmax]. split.
    + destruct (Z.max_spec x y) as [[_ ->] | [_ ->]]; auto.
    + intros z [-> | Hz]; [lia|]. specialize (Hmax z Hz). lia.
  - intros [= <-]. apply first_desc_none in E. subst l. split; [auto|].
    intros z [-> | []]. lia.
Qed.

Lemma in_user_seq_nos (db : Database) (u s : Z) :
  In s (user_seq_nos db (VInt u)) <->
  exists t, In t (tastings db) /\ user_id t = u /\ seq_no t = s.
Proof.
  unfold user_seq_nos. rewrite in_map_iff. split.
  - intros (t & Hs & Hin). apply filter_In in Hin as [Hin Hu].
    apply bool_decide_eq_true in Hu. eauto.
  - intros (t & Hin & Hu & Hs). exists t. split; [assumption|].
    apply filter_In. split; [assumption|]. apply bool_decide_eq_true. assumption.
Qed.

(** [_next_seq_for_user] is the maximum plus one, and 1 without rows. *)
Lemma next_seq_empty (db : Database) (u : Z) :
  user_seq_nos db (VInt u) = [] -> _next_seq_for_user db (VInt u) = 1.
Proof.
  intros H. unfold _next_seq_for_user. rewrite H. reflexivity.
Qed.

Lemma next_seq_max (db : Database) (u m : Z) :
  In m (user_seq_nos db (VInt u)) ->
  (forall s, In s (user_seq_nos db (VInt u)) -> s <= m) ->
  _next_seq_for_user db (VInt u) = m + 1.
Proof.
  intros Hin Hmax. unfold _next_seq_for_user.
  destruct (first_desc (user_seq_nos db (VInt u))) as [z|] eqn:E.
  - apply first_desc_max in E as [Hz Hzmax].
    assert (z = m) by (specialize (Hmax z Hz); specialize (Hzmax m Hin); lia).
    subst z. destruct (Z.eqb_spec m 0); lia.
  - apply first_desc_none in E. rewrite E in Hin. destruct Hin.
Qed.

Lemma next_seq_above (db : Database) (u : Z) (t : Tasting) :
  In t (tastings db) -> user_id t = u ->
  seq_no t < _next_seq_for_user db (VInt u).
Proof.
  intros Hin Hu.
  assert (Hs : In (seq_no t) (user_seq_nos db (VInt u)))
    by (apply in_user_seq_nos; eauto).
  unfold _next_seq_for_user.
  destruct (first_desc (user_seq_nos db (VInt u))) as [z|] eqn:E.
  - apply first_desc_max in E as [_ Hzmax]. specialize (Hzmax _ Hs).
    destruct (Z.eqb_spec z 0); lia.
  - apply first_desc_none in E. rewrite E in Hs. destruct Hs.
Qed.

Lemma next_seq_same_rows (db db' : Database) (uid : Value) :
  tastings db = tastings db' ->
  _next_seq_for_user db uid = _next_seq_for_user db' uid.
Proof.
  intros H. unfold _next_seq_for_user, user_seq_nos. rewrite H. reflexivity.
Qed.

Variable save_photo_bytes : Value -> Z -> string -> string -> Result SaveResult.

Lemma add_photos_rows (uid : Value) (tid : Z) (phs : list PhotoEntry)
    (db db' : Database) :
  add_photos save_photo_bytes uid tid phs db = Ok db' ->
  tastings db' = tastings db.
Proof.
  revert db. induction phs as [|p phs IH]; intros db; cbn.
  - intros [= <-]. reflexivity.
  - destruct p as [fid | d].
    + intros H. apply IH in H. exact H.
    + destruct (body d) as [bd|]; [destruct (telegram_file_id d) as [tf|]|].
      * destruct (save_photo_bytes _ _ _ _) as [r|e]; [|discriminate].
        intros H. apply IH in H. exact H.
      * apply IH.
      * apply IH.
Qed.

(** A committed transaction adds exactly one row to [tastings], with the
    sequence number it was given, and only where the pair was free. *)
Lemma write_committed (db db' : Database) (seq : Z) (td : TastingData)
    (infs : list Infusion) (phs : list PhotoEntry) (t : Tasting) :
  write save_photo_bytes db seq td infs phs = Ok (db', t) ->
  tastings db' = (tastings db ++ [t])%list
  /\ seq_no t = seq
  /\ td_user_id td = VInt (user_id t)
  /\ seq_taken db (user_id t) seq = false.
Proof.
  unfold write, insert_tasting.
  destruct (td_user_id td) as [| | u | | | | |] eqn:Hu; try discriminate.
  destruct (is_None (td_name td) || is_None (td_category td)); [discriminate|].
  destruct (seq_taken db u seq) eqn:Htaken; [discriminate|].
  destruct (add_photos _ _ _ _ _) as [db2|e] eqn:Hph; [|discriminate].
  intros [= <- <-]. apply add_photos_rows in Hph. cbn in *.
  repeat split; auto.
Qed.

Lemma write_keeps_unique (db db' : Database) (seq : Z) (td : TastingData)
    (infs : list Infusion) (phs : list PhotoEntry) (t : Tasting) :
  write save_photo_bytes db seq td infs phs = Ok (db', t) ->
  unique_user_seq db -> unique_user_seq db'.
Proof.
  intros Hw Huniq. apply write_committed in Hw as (Hrows & Hseq & _ & Hfree).
  unfold unique_user_seq in *. rewrite Hrows, map_app. cbn.
  apply NoDup_app. split; [assumption|]. split.
  - intros x Hx Hx'. apply list_elem_of_In in Hx. apply in_map_iff in Hx as (t' & <- & Hin).
    apply list_elem_of_In in Hx'. destruct Hx' as [Heq | []].
    injection Heq as Hu Hs.
    eapply (proj1 (seq_taken_false _ _ _) Hfree t'); eauto. congruence.
  - apply NoDup_singleton.
Qed.

End SeqFacts.

(** *** Two creations for one user at the same time *)

Section RaceFacts.
Import Tastings.

Variable save_photo_bytes : Value -> Z -> string -> string -> Result SaveResult.

(** Blob storage works. *)
Hypothesis storage_up :
  forall uid tid content hint, exists r, save_photo_bytes uid tid content hint = Ok r.

Variable db0 : Database.
Variable u : Z.
Variables a b : Call.

(** Both calls are for user [u] and carry a name and a category. *)
Definition well_formed (c : Call) : Prop :=
  td_user_id (call_data c) = VInt u
  /\ is_None (td_name (call_data c)) = false
  /\ is_None (td_category (call_data c)) = false.

Hypothesis wf_a : well_formed a.
Hypothesis wf_b : well_formed b.
Hypothesis unique0 : unique_user_seq db0.

Let n : Z := _next_seq_for_user db0 (VInt u).

Lemma add_photos_total (uid : Value) (tid : Z) (phs : list PhotoEntry) (db : Database) :
  exists db', add_photos save_photo_bytes uid tid phs db = Ok db'.
Proof using storage_up.
  revert db. induction phs as [|p phs IH]; intros db; cbn; [eauto|].
  destruct p as [fid | d]; [apply IH|].
  destruct (body d) as [bd|]; [destruct (telegram_file_id d) as [tf|]|]; try apply IH.
  destruct (storage_up uid tid bd
              match filename_hint d with
              | Some h => if (h =? "")%string then "photo.jpg" else h
              | None => "photo.jpg"
              end) as [r ->].
  apply IH.
Qed.

Lemma write_free (c : Call) (db : Database) (seq : Z) :
  well_formed c -> seq_taken db u seq = false ->
  exists db' t,
    write save_photo_bytes db seq (call_data c) (call_infusions c) (call_photos c)
    = Ok (db', t).
Proof using storage_up.
  intros (Hu & Hn & Hc) Hfree. unfold write, insert_tasting.
  rewrite Hu, Hn, Hc, Hfree. cbn.
  edestruct add_photos_total as [db' ->]. eauto.
Qed.

Lemma write_taken (c : Call) (db : Database) (seq : Z) :
  well_formed c -> seq_taken db u seq = true ->
  write save_photo_bytes db seq (call_data c) (call_infusions c) (call_photos c)
  = Raise IntegrityError.
Proof.
  intros (Hu & Hn & Hc) Htaken. unfold write, insert_tasting.
  rewrite Hu, Hn, Hc, Htaken. reflexivity.
Qed.

Definition returned (c : Session) : bool :=
  match c with Returned _ => true | _ => false end.

Definition commits (r : Race) : Z :=
  (if returned (first r) then 1 else 0) + (if returned (second r) then 1 else 0).

(** What a session may be doing while [k] of the two have committed. *)
Definition session_ok (k : Z) (other_returned : bool) (c : Session) : Prop :=
  match c with
  | Selecting att => att = 0%nat \/ (att = 1%nat /\ other_returned = true)
  | Writing att s =>
      n <= s <= n + k
      /\ (att = 1%nat \/ (att = 2%nat /\ s = n + 1 /\ other_returned = true))
  | Returned t => user_id t = u /\ n <= seq_no t < n + k
  | Raised _ => False
  end.

Record race_inv (r : Race) : Prop := {
  inv_first : session_ok (commits r) (returned (second r)) (first r);
  inv_second : session_ok (commits r) (returned (first r)) (second r);
  inv_below : forall t, In t (tastings (race_db r)) -> user_id t = u ->
                        seq_no t < n + commits r;
  inv_taken : forall j, 0 <= j < commits r -> seq_taken (race_db r) u (n + j) = true;
  inv_start : commits r = 0 -> tastings (race_db r) = tastings db0;
  inv_unique : unique_user_seq (race_db r);
  inv_distinct : forall ta tb, first r = Returned ta -> second r = Returned tb ->
                               seq_no ta <> seq_no tb;
  inv_committed : forall t, first r = Returned t \/ second r = Returned t ->
                            In t (tastings (race_db r));
}.

(** Own statements still to run, at most. *)
Definition rank (c : Session) : nat :=
  match c with
  | Selecting 0 => 4
  | Writing 1 _ => 3
  | Selecting 1 => 2
  | Writing 2 _ => 1
  | _ => 0
  end.

Lemma rank_zero (k : Z) (o : bool) (c : Session) :
  session_ok k o c -> rank c = 0%nat -> exists t, c = Returned t.
Proof.
  destruct c as [att | att s | t | e]; cbn.
  - intros [-> | [-> _]]; discriminate.
  - intros [_ [-> | [-> _]]]; discriminate.
  - eauto.
  - intros [].
Qed.

Lemma race_start : race_inv {| race_db := db0; first := Selecting 0; second := Selecting 0 |}.
Proof.
  constructor; cbn; unfold commits; cbn; auto;
    try (intros; lia); try (intros; discriminate).
  - intros t Hin Hu. pose proof (next_seq_above db0 u t Hin Hu). unfold n. lia.
  - intros t [H | H]; discriminate.
Qed.

(** The sequence number a SELECT sees after [commits r] commits. *)
Lemma select_sees (r : Race) :
  race_inv r -> commits r <= 1 ->
  _next_seq_for_user (race_db r) (VInt u) = n + commits r.
Proof.
  intros I Hk.
  assert (Hk0 : 0 <= commits r)
    by (unfold commits; destruct (returned (first r)), (returned (second r)); lia).
  destruct (Z.eq_dec (commits r) 0) as [E|E].
  - rewrite E, Z.add_0_r. apply next_seq_same_rows. apply (inv_start r I E).
  - assert (Ek : commits r = 1) by lia. rewrite Ek.
    pose proof (inv_taken r I 0 ltac:(lia)) as Ht.
    apply seq_taken_true in Ht as (t & Hin & Hu & Hs).
    rewrite (next_seq_max (race_db r) u (n + 0)); [lia| |].
    + apply in_user_seq_nos. eauto.
    + intros s Hs'. apply in_user_seq_nos in Hs' as (t' & Hin' & Hu' & <-).
      pose proof (inv_below r I t' Hin' Hu'). lia.
Qed.

Definition swap (r : Race) : Race :=
  {| race_db := race_db r; first := second r; second := first r |}.

Lemma race_inv_swap (r : Race) : race_inv r -> race_inv (swap r).
Proof.
  intros I.
  assert (Hc : commits (swap r) = commits r) by (unfold commits, swap; cbn; lia).
  constructor; rewrite ?Hc; cbn.
  - apply (inv_second r I).
  - apply (inv_first r I).
  - apply (inv_below r I).
  - apply (inv_taken r I).
  - apply (inv_start r I).
  - apply (inv_unique r I).
  - intros ta tb Ha Hb Heq. apply (inv_distinct r I tb ta Hb Ha). congruence.
  - intros t [H | H]; apply (inv_committed r I); auto.
Qed.

Lemma seq_taken_grows (db db' : Database) (t : Tasting) (s : Z) :
  tastings db' = (tastings db ++ [t])%list ->
  seq_taken db u s = true -> seq_taken db' u s = true.
Proof.
  intros Hrows Ht. apply seq_taken_true in Ht as (t' & Hin & Hu & Hs).
  apply seq_taken_true. exists t'. rewrite Hrows, in_app_iff. auto.
Qed.

(** One statement of the first session keeps the invariant and brings the
    session closer to its return. *)
Lemma first_session_step (ca cb : Call) (r : Race) :
  well_formed ca -> race_inv r ->
  let r' := race_step save_photo_bytes ca cb r true in
  race_inv r' /\ second r' = second r /\ (rank (first r') <= rank (first r) - 1)%nat.
Proof using storage_up.
  intros Hwf I. destruct r as [db c1 c2].
  pose proof (inv_first _ I) as H1. pose proof (inv_second _ I) as H2.
  pose proof (inv_below _ I) as Hbelow. pose proof (inv_taken _ I) as Htaken.
  pose proof (inv_start _ I) as Hstart. pose proof (inv_unique _ I) as Huniq.
  pose proof (inv_distinct _ I) as Hdist.
  pose proof (inv_committed _ I) as Hcomm.
  unfold commits in *. cbn [first second race_db] in *.
  destruct c1 as [att | att s | t | e]; cbn [returned session_ok] in *.
  - (* SELECT *)
    assert (Hatt : (att <? _MAX_CREATE_ATTEMPTS)%nat = true)
      by (destruct H1 as [-> | [-> _]]; reflexivity).
    assert (Hsee : _next_seq_for_user db (td_user_id (call_data ca))
                   = n + (0 + (if returned c2 then 1 else 0))).
    { destruct Hwf as (-> & _).
      apply (select_sees {| race_db := db; first := Selecting att; second := c2 |} I).
      unfold commits; cbn. destruct (returned c2); lia. }
    cbv zeta. unfold race_step. cbn [first second race_db session_step].
    rewrite Hatt, Hsee. cbn [first second race_db].
    split; [|split; [reflexivity|]].
    + constructor; unfold commits; cbn [first second race_db returned session_ok]; auto;
        try (intros ta tb Hx; discriminate);
        try (intros t [Hx | Hx]; [discriminate | apply Hcomm; auto]).
      split; [destruct (returned c2); lia|].
      destruct H1 as [-> | [-> Hret]]; [left; reflexivity|].
      right. rewrite Hret. repeat split; lia.
    + destruct H1 as [-> | [-> _]]; cbn; lia.
  - (* INSERT and commit *)
    destruct H1 as [Hs Hatt].
    cbv zeta. unfold race_step. cbn [first second race_db session_step].
    destruct (seq_taken db u s) eqn:Hfree.
    + rewrite (write_taken ca db s Hwf Hfree).
      assert (Hlt : s < n + (0 + (if returned c2 then 1 else 0))).
      { apply seq_taken_true in Hfree as (t & Hin & Hu & <-). apply Hbelow; assumption. }
      assert (Hret : returned c2 = true) by (destruct (returned c2); [reflexivity|lia]).
      assert (Hone : att = 1%nat).
      { destruct Hatt as [-> | (-> & -> & _)]; [reflexivity|]. rewrite Hret in Hlt. lia. }
      subst att. cbn [Nat.leb _MAX_CREATE_ATTEMPTS first second race_db].
      split; [|split; [reflexivity|cbn; lia]].
      constructor; unfold commits; cbn [first second race_db returned session_ok]; auto;
        try (intros ta tb Hx; discriminate);
        try (intros t [Hx | Hx]; [discriminate | apply Hcomm; auto]).
    + destruct (write_free ca db s Hwf Hfree) as (db' & t & Hw). rewrite Hw.
      cbn [first second race_db].
      pose proof (write_committed _ _ _ _ _ _ _ _ Hw) as (Hrows & Hseq & Huser & _).
      assert (Hu : user_id t = u)
        by (destruct Hwf as (Hwu & _); rewrite Hwu in Huser; congruence).
      assert (Hsk : s = n + (0 + (if returned c2 then 1 else 0))).
      { destruct (Z.eq_dec s (n + (0 + (if returned c2 then 1 else 0)))) as [E|E];
          [assumption|].
        specialize (Htaken (s - n) ltac:(lia)).
        replace (n + (s - n)) with s in Htaken by lia. congruence. }
      split; [|split; [reflexivity|cbn; lia]].
      constructor; unfold commits; cbn [first second race_db returned session_ok].
      * split; [assumption|]. lia.
      * destruct c2 as [att2 | att2 s2 | t2 | e2]; cbn [returned session_ok] in *.
        -- destruct H2 as [-> | [_ Hx]]; [left; reflexivity | discriminate].
        -- destruct H2 as [Hb [-> | (_ & _ & Hx)]]; [|discriminate].
           split; [lia | left; reflexivity].
        -- destruct H2 as [Hu2 Hb]. split; [assumption | lia].
        -- assumption.
      * intros t' Hin Hu'. rewrite Hrows in Hin. apply in_app_iff in Hin as [Hin | [<- | []]].
        -- specialize (Hbelow t' Hin Hu'). lia.
        -- lia.
      * intros j Hj.
        destruct (Z.eq_dec j (0 + (if returned c2 then 1 else 0))) as [E|E].
        -- apply seq_taken_true. exists t. rewrite Hrows, in_app_iff. cbn.
           repeat split; auto. lia.
        -- eapply seq_taken_grows; [exact Hrows|]. apply Htaken. lia.
      * intros Hz. destruct (returned c2); lia.
      * eapply write_keeps_unique; eauto.
      * intros ta tb [= <-] ->. cbn [returned session_ok] in *.
        destruct H2 as [_ Hb]. lia.
      * intros t' [[= <-] | Hx]; rewrite Hrows, in_app_iff; [right; left; reflexivity|].
        left. apply Hcomm. auto.
  - (* already returned *)
    cbv zeta. unfold race_step. cbn [first second race_db session_step].
    split; [exact I | split; [reflexivity | cbn; lia]].
  - destruct H1.
Qed.

Lemma race_step_swap (ca cb : Call) (r : Race) :
  race_step save_photo_bytes ca cb r false
  = swap (race_step save_photo_bytes cb ca (swap r) true).
Proof.
  unfold race_step, swap. cbn [first second race_db].
  destruct (session_step _ _ _ _ (second r) (race_db r)) as [c db]. reflexivity.
Qed.

Lemma second_session_step (ca cb : Call) (r : Race) :
  well_formed cb -> race_inv r ->
  let r' := race_step save_photo_bytes ca cb r false in
  race_inv r' /\ first r' = first r /\ (rank (second r') <= rank (second r) - 1)%nat.
Proof using storage_up.
  intros Hwf I. cbv zeta. rewrite race_step_swap.
  destruct (first_session_step cb ca (swap r) Hwf (race_inv_swap r I)) as (I' & Hsame & Hrank).
  split; [|split].
  - apply race_inv_swap in I'. exact I'.
  - exact Hsame.
  - exact Hrank.
Qed.

(** Any schedule keeps the invariant; each session is at most four of its
    own statements away from its return. *)
Lemma race_runs (schedule : list bool) (r : Race) :
  race_inv r ->
  let r' := fold_left (race_step save_photo_bytes a b) schedule r in
  race_inv r'
  /\ (rank (first r') <= rank (first r) - count_occ bool_dec schedule true)%nat
  /\ (rank (second r') <= rank (second r) - count_occ bool_dec schedule false)%nat.
Proof using storage_up wf_a wf_b.
  revert r. induction schedule as [|who schedule IH]; intros r I; cbn [fold_left].
  - cbv zeta. cbn [count_occ]. split; [assumption | split; lia].
  - destruct who.
    + destruct (first_session_step a b r wf_a I) as (I' & Hsame & Hrank).
      destruct (IH _ I') as (I'' & H1 & H2). cbv zeta in *.
      split; [assumption|]. cbn [count_occ].
      destruct (bool_dec true true) as [_|ne]; [|congruence].
      destruct (bool_dec true false) as [e|_]; [discriminate|].
      rewrite Hsame in H2. split; lia.
    + destruct (second_session_step a b r wf_b I) as (I' & Hsame & Hrank).
      destruct (IH _ I') as (I'' & H1 & H2). cbv zeta in *.
      split; [assumption|]. cbn [count_occ].
      destruct (bool_dec false false) as [_|ne]; [|congruence].
      destruct (bool_dec false true) as [e|_]; [discriminate|].
      rewrite Hsame in H1. split; lia.
Qed.


End RaceFacts.

(** *** Examples for the gateway *)

Section GatewayExamples.
Import Tastings.

Definition example_storage (uid : Value) (tid : Z) (content hint : string)
  : Result SaveResult :=
  Ok {| storage_backend := "local"; object_key := Some hint;
        content_type := Some "image/jpeg";
        size_bytes := Z.of_nat (String.length content) |}.

Definition example_data (uid : Z) (name : string) : TastingData :=
  {| td_user_id := VInt uid; td_name := VStr name; td_year := VInt 2019;
     td_region := VNone; td_category := VStr "Улун"; td_grams := VNone;
     td_temp_c := VNone; td_tasted_at := VNone; td_gear := VNone;
     td_aroma_dry := VNone; td_aroma_warmed := VNone; td_aroma_after := VNone;
     td_effects_csv := VStr "Тепло"; td_scenarios_csv := VNone;
     td_rating := VInt 8; td_summary := VNone |}.

Definition example_row (i uid seq : Z) : Tasting :=
  {| id := i; user_id := uid; seq_no := seq; columns := example_data uid "earlier" |}.

(** User 7 has the records #1 and #2, user 9 the record #1. *)
Definition example_db : Database :=
  {| tastings := [example_row 1 7 1; example_row 2 9 1; example_row 3 7 2];
     infusions := []; photos := [] |}.

Definition example_call (name : string) : Call :=
  {| call_data := example_data 7 name; call_infusions := []; call_photos := [] |}.

(** Both sessions read before either writes; the second one writes first. *)
Definition example_schedule : list bool :=
  [true; false; false; true; true; true; false; false].


(** In that schedule the first session loses the race once and is given
    #4 on its second attempt; the second session is given #3. *)
Example race_example :
  let r := race example_storage (example_call "Da Hong Pao") (example_call "Shui Xian")
                example_db example_schedule in
  (exists ta, first r = Returned ta /\ seq_no ta = 4)
  /\ (exists tb, second r = Returned tb /\ seq_no tb = 3).
Proof.
  cbv zeta. split; eexists; split; vm_compute; reflexivity.
Qed.

(** A competitor that takes the sequence number of each attempt before
    this call writes: both attempts fail and IntegrityError reaches the
    caller after two attempts. *)
Definition example_competitor (k : nat) (db : Database) : Database :=
  {| tastings := tastings db ++
                 [example_row (next_id db) 7 (_next_seq_for_user db (VInt 7))];
     infusions := infusions db; photos := photos db |}.

Example create_tasting_two_conflicts :
  let outcome := create_tasting example_storage example_competitor example_db
                   (example_data 7 "Da Hong Pao") [] [] in
  snd (fst outcome) = Raise IntegrityError /\ snd outcome = 2%nat
  /\ map seq_no (tastings (fst (fst outcome))) = [1; 1; 2; 3; 4].
Proof.
  cbv zeta. repeat split; vm_compute; reflexivity.
Qed.

(** Left alone, the call returns at once with the next number. *)
Example create_tasting_alone :
  let outcome := create_tasting example_storage (fun _ db => db) example_db
                   (example_data 7 "Da Hong Pao") [] [] in
  (exists t, snd (fst outcome) = Ok t /\ seq_no t = 3 /\ user_id t = 7)
  /\ snd outcome = 1%nat.
Proof.
  cbv zeta. split; [eexists; repeat split|]; vm_compute; reflexivity.
Qed.

End GatewayExamples.

(** ** Handlers *)

Section BotFacts.
Import Tastings Bot.

Variable PHOTO_LIMIT : option Z.
Variable fetch : string -> Fetched.
Variable save_photo_bytes : Value -> Z -> string -> string -> Result SaveResult.
Variable concurrent : nat -> Database -> Database.
Variable get_user_now_hm : Z -> string.

(** The world with one more call to Telegram. *)
Definition notified (o : Output) (w : World) : World :=
  {| now := now w; storage := storage w; ALBUM_BUFFER := ALBUM_BUFFER w;
     tasks := tasks w; database := database w; outbox := outbox w ++ [o];
     next_message_id := next_message_id w; gateway_calls := gateway_calls w |}.

Definition data_of (w : World) (uid : Z) : gmap string Value :=
  fsm_data (record_of w uid).

Definition state_of (w : World) (uid : Z) : option string :=
  fsm_state (record_of w uid).

Lemma record_of_set_record (uid v : Z) (r : FSMRecord) (w : World) :
  record_of (set_record uid r w) v = if decide (uid = v) then r else record_of w v.
Proof.
  unfold record_of, set_record. cbn. rewrite lookup_insert.
  destruct (decide (uid = v)); reflexivity.
Qed.

Lemma photos_done_no_photos (uid : Z) (w : World) :
  state_of w uid = Some PhotoFlow_photos ->
  photos_of (data_of w uid) = [] ->
  photos_done PHOTO_LIMIT fetch save_photo_bytes concurrent uid w
  = (Ok tt, notified (CallbackAnswer uid "Сначала добавь хотя бы одно фото или пропусти шаг." true) w).
Proof.
  intros Hst Hph. unfold photos_done, bind, get_state, get_data, gets.
  unfold state_of, data_of in *. cbv beta iota. rewrite Hst.
  rewrite bool_decide_eq_true_2 by reflexivity. cbn [negb]. cbv beta iota.
  rewrite Hph. reflexivity.
Qed.

Lemma photos_done_elsewhere (uid : Z) (w : World) :
  state_of w uid <> Some PhotoFlow_photos ->
  photos_done PHOTO_LIMIT fetch save_photo_bytes concurrent uid w
  = (Ok tt, notified (CallbackAnswer uid "Сейчас нельзя завершить добавление фото." false) w).
Proof.
  intros Hst. unfold photos_done, bind, get_state, gets.
  unfold state_of in *. cbv beta iota.
  rewrite bool_decide_eq_false_2 by assumption. reflexivity.
Qed.

Lemma photos_skip_with_photos (uid : Z) (w : World) (p : PhotoEntry) (l : list PhotoEntry) :
  photos_of (data_of w uid) = p :: l ->
  photos_skip PHOTO_LIMIT fetch save_photo_bytes concurrent uid w
  = (Ok tt, notified (CallbackAnswer uid "Уже есть загруженные фото, нажми «Готово»." true) w).
Proof.
  intros Hph. unfold photos_skip, bind, get_data, gets.
  unfold photos_of, data_of in *. cbv beta iota zeta.
  destruct (dget (fsm_data (record_of w uid)) "new_photos"); try discriminate.
  subst. reflexivity.
Qed.

(** *** What a flush of the album buffer does to a draft *)

(** The keys of the data dict the photo step keeps its books in. *)
Definition photo_key (k : string) : bool :=
  existsb (String.eqb k) ["new_photos"; "progress_msg_id"; "photo_count"; "photo_limit"].

Lemma photo_key_false (k : string) :
  photo_key k = false ->
  "new_photos" <> k /\ "progress_msg_id" <> k /\ "photo_count" <> k /\ "photo_limit" <> k.
Proof.
  unfold photo_key. cbn. intros H.
  repeat (apply orb_false_iff in H as [?%String.eqb_neq H]). auto.
Qed.

(** The draft [r'] is the draft [r] with, at most, photos added at the end
    and the books of the photo step updated. *)
Definition draft_kept (r r' : FSMRecord) : Prop :=
  fsm_state r' = fsm_state r
  /\ (forall k, photo_key k = false -> fsm_data r' !! k = fsm_data r !! k)
  /\ exists added, photos_of (fsm_data r') = (photos_of (fsm_data r) ++ added)%list.

Record frame (uid : Z) (w w' : World) : Prop := {
  fr_draft : draft_kept (record_of w uid) (record_of w' uid);
  fr_others : forall v, v <> uid -> record_of w' v = record_of w v;
  fr_db : database w' = database w;
  fr_calls : gateway_calls w' = gateway_calls w;
}.

Lemma draft_kept_refl (r : FSMRecord) : draft_kept r r.
Proof.
  repeat split. exists []. rewrite app_nil_r. reflexivity.
Qed.

Lemma draft_kept_trans (r1 r2 r3 : FSMRecord) :
  draft_kept r1 r2 -> draft_kept r2 r3 -> draft_kept r1 r3.
Proof.
  intros (Hs & Hd & added & Hp) (Hs' & Hd' & added' & Hp'). split; [congruence|]. split.
  - intros k Hk. rewrite Hd', Hd by assumption. reflexivity.
  - exists (added ++ added')%list. rewrite Hp', Hp, app_assoc. reflexivity.
Qed.

Lemma frame_refl (uid : Z) (w : World) : frame uid w w.
Proof. constructor; auto using draft_kept_refl. Qed.

Lemma frame_trans (uid : Z) (w1 w2 w3 : World) :
  frame uid w1 w2 -> frame uid w2 w3 -> frame uid w1 w3.
Proof.
  intros [D O B C] [D' O' B' C']. constructor.
  - eapply draft_kept_trans; eassumption.
  - intros v Hv. rewrite O', O by assumption. reflexivity.
  - congruence.
  - congruence.
Qed.

(** Sending a message changes no draft. *)
Lemma frame_notified (uid : Z) (o : Output) (w : World) : frame uid w (notified o w).
Proof. constructor; auto using draft_kept_refl. Qed.

(** Two worlds with the same storage, database and gateway log are framed. *)
Lemma frame_same_storage (uid : Z) (w w' : World) :
  storage w' = storage w -> database w' = database w ->
  gateway_calls w' = gateway_calls w -> frame uid w w'.
Proof.
  intros Hs Hd Hc. unfold record_of.
  constructor; unfold record_of; rewrite ?Hs; auto using draft_kept_refl.
Qed.

(** Writing photo bookkeeping keys of [uid]. *)
Lemma frame_update_books (uid : Z) (kvs : list (string * Value)) (w : World) :
  Forall (fun kv => photo_key (fst kv) = true) kvs ->
  (exists added,
     photos_of (fold_left (fun d kv => <[fst kv := snd kv]> d) kvs (data_of w uid))
     = (photos_of (data_of w uid) ++ added)%list) ->
  frame uid w (snd (update_data uid kvs w)).
Proof.
  intros Hkeys Hph. unfold update_data, modify. cbn [snd].
  constructor; cbn [database gateway_calls set_record]; auto.
  - rewrite record_of_set_record. destruct (decide (uid = uid)); [|congruence].
    split; [reflexivity|]. split; [|exact Hph]. cbn [fsm_data].
    clear Hph. intros k Hk. fold (data_of w uid). generalize (data_of w uid) as d.
    induction Hkeys as [|[k' v'] kvs Hk' _ IH]; intros d; cbn [fold_left fst snd]; [reflexivity|].
    rewrite IH. apply lookup_insert_ne. cbn [fst] in Hk'. intros ->. congruence.
  - intros v Hv. rewrite record_of_set_record.
    destruct (decide (uid = v)); [congruence|reflexivity].
Qed.

Lemma update_data_fields (uid : Z) (kvs : list (string * Value)) (w : World) :
  let w' := snd (update_data uid kvs w) in
  fst (update_data uid kvs w) = Ok tt
  /\ data_of w' uid = fold_left (fun d kv => <[fst kv := snd kv]> d) kvs (data_of w uid)
  /\ state_of w' uid = state_of w uid
  /\ ALBUM_BUFFER w' = ALBUM_BUFFER w /\ tasks w' = tasks w /\ now w' = now w.
Proof.
  cbv zeta. unfold update_data, modify, data_of, state_of. cbn [fst snd].
  rewrite record_of_set_record. destruct (decide (uid = uid)); [|congruence].
  cbn. auto 10.
Qed.

(** An action that only talks to Telegram and returns. *)
Definition telegram_only (w w' : World) : Prop :=
  storage w' = storage w /\ ALBUM_BUFFER w' = ALBUM_BUFFER w
  /\ tasks w' = tasks w /\ database w' = database w
  /\ gateway_calls w' = gateway_calls w /\ now w' = now w.

Definition quiet {A} (m : M A) : Prop :=
  forall w, exists a w', m w = (Ok a, w') /\ telegram_only w w'.

Lemma telegram_only_refl (w : World) : telegram_only w w.
Proof. repeat split. Qed.

Lemma telegram_only_trans (w1 w2 w3 : World) :
  telegram_only w1 w2 -> telegram_only w2 w3 -> telegram_only w1 w3.
Proof. unfold telegram_only. intuition congruence. Qed.

Lemma quiet_ret {A} (a : A) : quiet (ret a).
Proof. intros w. exists a, w. split; [reflexivity | apply telegram_only_refl]. Qed.

Lemma quiet_send (o : Output) : quiet (send o).
Proof. intros w. eexists _, _. split; [reflexivity | repeat split]. Qed.

Lemma quiet_post (o : Output) : quiet (post o).
Proof. intros w. eexists _, _. split; [reflexivity | repeat split]. Qed.

Lemma quiet_bind {A B} (m : M A) (k : A -> M B) :
  quiet m -> (forall a, quiet (k a)) -> quiet (bind m k).
Proof.
  intros Hm Hk w. destruct (Hm w) as (a & w1 & E1 & T1).
  destruct (Hk a w1) as (c & w2 & E2 & T2). exists c, w2. unfold bind.
  rewrite E1, E2. split; [reflexivity | eapply telegram_only_trans; eassumption].
Qed.

Lemma quiet_delete_if_set (chat : Z) (v : Value) : quiet (delete_if_set chat v).
Proof.
  unfold delete_if_set. destruct v; try apply quiet_ret.
  destruct (truthy _); [apply quiet_send | apply quiet_ret].
Qed.

Lemma quiet_remove_markup_if_set (chat : Z) (v : Value) :
  quiet (remove_markup_if_set chat v).
Proof.
  unfold remove_markup_if_set. destruct v; try apply quiet_ret.
  destruct (truthy _); [apply quiet_send | apply quiet_ret].
Qed.

Lemma quiet_answer (to : Z) (text : string) (kb : list string) : quiet (answer to text kb).
Proof. apply quiet_post. Qed.

Lemma quiet_call_answer (uid : Z) (text : string) (alert : bool) :
  quiet (call_answer uid text alert).
Proof. apply quiet_send. Qed.

Lemma quiet_close_inline (uid : Z) (status : string) : quiet (close_inline uid status).
Proof. apply quiet_send. Qed.

(** The draft of [uid] is kept and the album buffer, the timers and the
    clock are as before. *)
Record album_frame (uid : Z) (w w' : World) : Prop := {
  af_frame : frame uid w w';
  af_buffer : ALBUM_BUFFER w' = ALBUM_BUFFER w;
  af_tasks : tasks w' = tasks w;
  af_now : now w' = now w;
}.

Lemma album_frame_refl (uid : Z) (w : World) : album_frame uid w w.
Proof. constructor; auto using frame_refl. Qed.

Lemma album_frame_trans (uid : Z) (w1 w2 w3 : World) :
  album_frame uid w1 w2 -> album_frame uid w2 w3 -> album_frame uid w1 w3.
Proof.
  intros [F B T N] [F' B' T' N'].
  constructor; [eapply frame_trans; eassumption | congruence ..].
Qed.

Lemma telegram_only_frame (uid : Z) (w w' : World) :
  telegram_only w w' -> album_frame uid w w'.
Proof.
  intros (Hs & Hb & Ht & Hd & Hc & Hn).
  constructor; auto using frame_same_storage.
Qed.

Lemma telegram_only_data (uid : Z) (w w' : World) :
  telegram_only w w' -> data_of w' uid = data_of w uid /\ state_of w' uid = state_of w uid.
Proof.
  intros (Hs & _). unfold data_of, state_of, record_of. rewrite Hs. auto.
Qed.

Lemma update_books_frame (uid : Z) (kvs : list (string * Value)) (w : World) :
  Forall (fun kv => photo_key (fst kv) = true) kvs ->
  (exists added,
     photos_of (fold_left (fun d kv => <[fst kv := snd kv]> d) kvs (data_of w uid))
     = (photos_of (data_of w uid) ++ added)%list) ->
  album_frame uid w (snd (update_data uid kvs w)).
Proof.
  intros Hk Hp. constructor; [apply frame_update_books; assumption | reflexivity ..].
Qed.

(** [update_photo_progress] rewrites the progress message and its books;
    the photos of the draft are as before. *)
Lemma update_photo_progress_spec (chat uid count limit : Z) (w : World) :
  exists w',
    update_photo_progress chat uid count limit w = (Ok tt, w')
    /\ album_frame uid w w'
    /\ data_of w' uid !! "new_photos" = data_of w uid !! "new_photos"
    /\ data_of w' uid !! "photo_limit" = Some (VInt limit).
Proof.
  unfold update_photo_progress, bind, get_data, gets. cbv beta iota zeta.
  destruct (quiet_delete_if_set chat (dget (fsm_data (record_of w uid)) "progress_msg_id") w)
    as ([] & w1 & -> & T1).
  destruct (quiet_post (Progress chat count limit) w1) as (sent & w2 & -> & T2).
  pose proof (telegram_only_trans _ _ _ T1 T2) as T.
  destruct (telegram_only_data uid _ _ T) as [Hd Hs].
  set (kvs := [("progress_msg_id", VInt sent); ("photo_count", VInt count);
               ("photo_limit", VInt limit)]).
  destruct (update_data_fields uid kvs w2) as (Hok & Hdata & _).
  exists (snd (update_data uid kvs w2)).
  assert (Hnew : data_of (snd (update_data uid kvs w2)) uid !! "new_photos"
                 = data_of w uid !! "new_photos").
  { rewrite Hdata, Hd. subst kvs. cbn [fold_left fst snd].
    rewrite !lookup_insert_ne by discriminate. reflexivity. }
  split; [|split; [|split]].
  - destruct (update_data uid kvs w2) as [r w3]. cbn in Hok. subst r. reflexivity.
  - eapply album_frame_trans; [apply telegram_only_frame; exact T|].
    apply update_books_frame.
    + subst kvs. repeat constructor.
    + exists []. rewrite app_nil_r. unfold photos_of, dget.
      rewrite <- Hdata, Hnew, <- Hd. reflexivity.
  - exact Hnew.
  - rewrite Hdata. subst kvs. cbn [fold_left fst snd]. apply lookup_insert_eq.
Qed.

(** *** Processing one album entry *)

(** The draft photo made of a buffered file and of what Telegram returned
    for it. *)
Definition draft_photo (f : AlbumFile) (basename content : string) : PhotoEntry :=
  PhotoDict {| body := Some content;
               filename_hint := Some (if String.eqb basename "" then "photo.jpg"
                                      else basename);
               telegram_file_id := Some (file_id f);
               telegram_file_unique_id :=
                 Some (if String.eqb (file_unique_id f) "" then file_id f
                       else file_unique_id f) |}.

(** The photos obtained from a list of buffered files, in their order:
    a file without id or whose download fails gives none. *)
Definition downloads (accepted : list AlbumFile) : list PhotoEntry :=
  flat_map (fun f =>
              if String.eqb (file_id f) "" then []
              else match fetch (file_id f) with
                   | File basename content => [draft_photo f basename content]
                   | _ => []
                   end) accepted.

(** [int(data.get("photo_limit", MAX_PHOTOS))] *)
Definition limit_of (data : gmap string Value) : Result Z :=
  match data !! "photo_limit" with
  | None => Ok (MAX_PHOTOS PHOTO_LIMIT)
  | Some (VInt z) => Ok z
  | Some _ => Raise TypeError
  end.

(** The photos of a draft after an entry was processed into it. *)
Definition processed (limit : Z) (photos : list PhotoEntry) (e : AlbumEntry)
  : list PhotoEntry :=
  match message e, files e with
  | Some _, _ :: _ =>
      if limit - zlen photos <=? 0 then photos
      else (photos ++ downloads (take (Z.to_nat (limit - zlen photos)) (files e)))%list
  | _, _ => photos
  end.

Lemma store_photo_spec (chat uid : Z) (f : AlbumFile) (photos : list PhotoEntry)
    (w : World) :
  String.eqb (file_id f) "" = false ->
  photos_of (data_of w uid) = photos ->
  exists w',
    _store_photo_from_file_id fetch chat uid (file_id f) photos (Some (file_unique_id f)) w
    = (Ok (match downloads [f] with [] => false | _ => true end,
           (photos ++ downloads [f])%list), w')
    /\ album_frame uid w w'
    /\ photos_of (data_of w' uid) = (photos ++ downloads [f])%list
    /\ data_of w' uid !! "photo_limit" = data_of w uid !! "photo_limit".
Proof.
  intros Hid Hph. unfold _store_photo_from_file_id, downloads. cbn [flat_map].
  rewrite Hid, app_nil_r.
  destruct (fetch (file_id f)) as [| | basename content].
  - unfold bind. destruct (quiet_answer chat "Не удалось получить файл из Telegram. Попробуйте ещё раз." [] w)
      as (i & w1 & -> & T). exists w1. rewrite app_nil_r.
    destruct (telegram_only_data uid _ _ T) as [Hd _].
    split; [reflexivity|]. split; [apply telegram_only_frame; exact T|].
    rewrite Hd. auto.
  - unfold bind. destruct (quiet_answer chat "Не удалось скачать фото. Попробуйте ещё раз." [] w)
      as (i & w1 & -> & T). exists w1. rewrite app_nil_r.
    destruct (telegram_only_data uid _ _ T) as [Hd _].
    split; [reflexivity|]. split; [apply telegram_only_frame; exact T|].
    rewrite Hd. auto.
  - unfold bind.
    set (kvs := [("new_photos", VPhotos (photos ++ [draft_photo f basename content]))]).
    change (PhotoDict _) with (draft_photo f basename content).
    destruct (update_data_fields uid
                [("new_photos", VPhotos (photos ++ [draft_photo f basename content]))] w)
      as (Hok & Hdata & _).
    unfold draft_photo in *.
    destruct (update_data uid _ w) as [r w1] eqn:E. cbn [fst snd] in *. subst r.
    exists w1. cbn [fold_left fst snd] in Hdata.
    assert (Hphotos : photos_of (data_of w1 uid)
                      = (photos ++ [draft_photo f basename content])%list).
    { rewrite Hdata. unfold photos_of, dget. rewrite lookup_insert_eq. reflexivity. }
    split; [reflexivity|]. split; [|split; [exact Hphotos|]].
    + replace w1 with (snd (update_data uid
          [("new_photos", VPhotos (photos ++ [draft_photo f basename content]))] w))
        by (unfold draft_photo; rewrite E; reflexivity).
      apply update_books_frame; [repeat constructor|].
      exists [draft_photo f basename content]. cbn [fold_left fst snd].
      unfold photos_of at 1. unfold dget. rewrite lookup_insert_eq. cbn. congruence.
    + rewrite Hdata. apply lookup_insert_ne. discriminate.
Qed.

Lemma downloads_cons (f : AlbumFile) (l : list AlbumFile) :
  downloads (f :: l) = (downloads [f] ++ downloads l)%list.
Proof. unfold downloads. cbn [flat_map]. rewrite app_nil_r. reflexivity. Qed.

Lemma store_accepted_spec (chat uid : Z) (accepted : list AlbumFile)
    (photos : list PhotoEntry) (saved : bool) (w : World) :
  photos_of (data_of w uid) = photos ->
  exists w',
    store_accepted fetch chat uid accepted photos saved w
    = (Ok (match downloads accepted with [] => saved | _ => true end,
           (photos ++ downloads accepted)%list), w')
    /\ album_frame uid w w'
    /\ photos_of (data_of w' uid) = (photos ++ downloads accepted)%list
    /\ data_of w' uid !! "photo_limit" = data_of w uid !! "photo_limit".
Proof.
  revert photos saved w. induction accepted as [|f rest IH]; intros photos saved w Hph.
  - exists w. cbn. rewrite app_nil_r. auto using album_frame_refl.
  - cbn [store_accepted]. destruct (String.eqb (file_id f) "") eqn:Hid.
    + destruct (IH photos saved w Hph) as (w' & E & F & P & L). exists w'.
      rewrite (downloads_cons f rest). unfold downloads at 1 3 5. cbn [flat_map].
      rewrite Hid. cbn [app]. auto.
    + destruct (store_photo_spec chat uid f photos w Hid Hph) as (w1 & E1 & F1 & P1 & L1).
      unfold bind. rewrite E1. cbn [fst snd].
      destruct (IH (photos ++ downloads [f])%list
                   (if match downloads [f] with [] => false | _ => true end
                    then true else saved) w1 P1) as (w' & E & F & P & L).
      exists w'. rewrite E, (downloads_cons f rest), !app_assoc.
      split; [|split; [eapply album_frame_trans; eassumption | split; [exact P | congruence]]].
      destruct (downloads [f]) as [|p l]; cbn [app]; [reflexivity|].
      destruct (downloads rest); reflexivity.
Qed.

Lemma photos_of_same (d d' : gmap string Value) :
  d' !! "new_photos" = d !! "new_photos" -> photos_of d' = photos_of d.
Proof. intros H. unfold photos_of, dget. rewrite H. reflexivity. Qed.

Lemma limit_of_same (d d' : gmap string Value) :
  d' !! "photo_limit" = d !! "photo_limit" -> limit_of d' = limit_of d.
Proof. intros H. unfold limit_of. rewrite H. reflexivity. Qed.

Lemma limit_of_set (d : gmap string Value) (limit : Z) :
  d !! "photo_limit" = Some (VInt limit) -> limit_of d = Ok limit.
Proof. intros H. unfold limit_of. rewrite H. reflexivity. Qed.

(** [_process_album_entry] on an entry bound to the context of [uid], when
    the limit kept in the draft is an integer (or absent). *)
Lemma process_entry_spec (uid : Z) (e : AlbumEntry) (limit : Z) (w : World) :
  state e = Some uid ->
  limit_of (data_of w uid) = Ok limit ->
  exists w',
    _process_album_entry PHOTO_LIMIT fetch e w = (Ok tt, w')
    /\ album_frame uid w w'
    /\ photos_of (data_of w' uid) = processed limit (photos_of (data_of w uid)) e
    /\ limit_of (data_of w' uid) = Ok limit.
Proof.
  intros Hst Hlim. unfold _process_album_entry, processed. rewrite Hst.
  destruct (message e) as [chat|]; [|exists w; auto using album_frame_refl].
  destruct (files e) as [|f fs] eqn:Hfiles; [exists w; auto using album_frame_refl|].
  rewrite <- Hfiles. clear Hfiles f fs.
  unfold bind at 1. unfold get_data, gets. cbv beta iota zeta.
  fold (data_of w uid).
  assert (Hget : (match data_of w uid !! "photo_limit" with
                  | None => ret (MAX_PHOTOS PHOTO_LIMIT)
                  | Some (VInt z) => ret z
                  | Some _ => raise TypeError
                  end) w = (Ok limit, w)).
  { unfold limit_of in Hlim. destruct (data_of w uid !! "photo_limit") as [v|].
    - destruct v; try discriminate. injection Hlim as ->. reflexivity.
    - injection Hlim as ->. reflexivity. }
  unfold bind at 1. rewrite Hget.
  destruct (limit - zlen (photos_of (data_of w uid)) <=? 0) eqn:Hcap.
  - destruct (update_photo_progress_spec chat uid (zlen (photos_of (data_of w uid))) limit w)
      as (w' & E & F & Hn & Hl).
    exists w'. split; [exact E|]. split; [exact F|].
    split; [apply photos_of_same; exact Hn | apply limit_of_set; exact Hl].
  - set (accepted := take (Z.to_nat (limit - zlen (photos_of (data_of w uid)))) (files e)).
    destruct (store_accepted_spec chat uid accepted (photos_of (data_of w uid)) false w eq_refl)
      as (w1 & E1 & F1 & P1 & L1).
    unfold bind at 1. rewrite E1. cbn [fst snd].
    destruct (downloads accepted) as [|p ps] eqn:Hdl.
    + cbn [negb]. exists w1. split; [reflexivity|]. split; [exact F1|].
      split; [exact P1|]. rewrite (limit_of_same _ _ L1). exact Hlim.
    + cbn [negb].
      destruct (update_photo_progress_spec chat uid
                  (zlen (photos_of (data_of w uid) ++ p :: ps)) limit w1)
        as (w2 & E2 & F2 & Hn2 & Hl2).
      unfold bind at 1. rewrite E2.
      destruct (0 <? zlen (files e) - zlen accepted).
      * destruct (quiet_post (LimitReached chat
                    (zlen (photos_of (data_of w uid) ++ p :: ps)) limit) w2)
          as (i & w3 & E3 & T3).
        unfold bind. rewrite E3. exists w3.
        destruct (telegram_only_data uid _ _ T3) as [Hd3 _].
        split; [reflexivity|]. split.
        { eapply album_frame_trans; [exact F1|]. eapply album_frame_trans; [exact F2|].
          apply telegram_only_frame. exact T3. }
        rewrite Hd3. split; [rewrite (photos_of_same _ _ Hn2); exact P1|].
        apply limit_of_set. exact Hl2.
      * exists w2. split; [reflexivity|]. split.
        { eapply album_frame_trans; eassumption. }
        split; [rewrite (photos_of_same _ _ Hn2); exact P1|].
        apply limit_of_set. exact Hl2.
Qed.

(** Whatever the outcome, processing an entry keeps the draft. *)
Lemma process_entry_frame (uid : Z) (e : AlbumEntry) (w : World) :
  state e = Some uid ->
  album_frame uid w (snd (_process_album_entry PHOTO_LIMIT fetch e w)).
Proof.
  intros Hst. destruct (limit_of (data_of w uid)) as [limit|exn] eqn:Hlim.
  - destruct (process_entry_spec uid e limit w Hst Hlim) as (w' & -> & F & _). exact F.
  - unfold _process_album_entry. rewrite Hst.
    destruct (message e) as [chat|]; [|apply album_frame_refl].
    destruct (files e) as [|f fs]; [apply album_frame_refl|].
    unfold bind at 1. unfold get_data, gets. cbv beta iota zeta.
    fold (data_of w uid). unfold limit_of in Hlim. unfold bind at 1.
    destruct (data_of w uid !! "photo_limit") as [v|]; [|discriminate].
    destruct v; try discriminate; apply album_frame_refl.
Qed.

(** A limit kept in the draft stays there. *)
Lemma process_entry_limit_key (uid : Z) (e : AlbumEntry) (limit : Z) (w : World) :
  state e = Some uid ->
  data_of w uid !! "photo_limit" = Some (VInt limit) ->
  data_of (snd (_process_album_entry PHOTO_LIMIT fetch e w)) uid !! "photo_limit"
  = Some (VInt limit).
Proof.
  intros Hst Hkey. unfold _process_album_entry. rewrite Hst.
  destruct (message e) as [chat|]; [|exact Hkey].
  destruct (files e) as [|f fs] eqn:Hfiles; [exact Hkey|].
  rewrite <- Hfiles. clear Hfiles f fs.
  unfold bind at 1. unfold get_data, gets. cbv beta iota zeta.
  fold (data_of w uid). rewrite Hkey. unfold bind at 1, ret at 1. cbv beta iota.
  destruct (limit - zlen (photos_of (data_of w uid)) <=? 0) eqn:Hcap.
  - destruct (update_photo_progress_spec chat uid (zlen (photos_of (data_of w uid))) limit w)
      as (w' & E & _ & _ & Hl).
    rewrite E. exact Hl.
  - set (accepted := take (Z.to_nat (limit - zlen (photos_of (data_of w uid)))) (files e)).
    destruct (store_accepted_spec chat uid accepted (photos_of (data_of w uid)) false w eq_refl)
      as (w1 & E1 & _ & _ & L1).
    unfold bind at 1. rewrite E1. cbn [fst snd].
    destruct (downloads accepted) as [|p ps] eqn:Hdl; cbn [negb].
    + cbn [ret snd]. rewrite L1. exact Hkey.
    + destruct (update_photo_progress_spec chat uid
                  (zlen (photos_of (data_of w uid) ++ p :: ps)) limit w1)
        as (w2 & E2 & _ & _ & Hl2).
      unfold bind at 1. rewrite E2.
      destruct (0 <? zlen (files e) - zlen accepted).
      * destruct (quiet_post (LimitReached chat
                    (zlen (photos_of (data_of w uid) ++ p :: ps)) limit) w2)
          as (i & w3 & E3 & T3).
        unfold bind. rewrite E3. cbn [ret snd].
        destruct (telegram_only_data uid _ _ T3) as [Hd3 _].
        rewrite Hd3. exact Hl2.
      * exact Hl2.
Qed.

(** *** Flushing the albums of a user *)

(** The entries [flush_user_albums(uid, ...)] picks: [key[0] == uid]. *)
Definition owned (v : Value) (ke : (Z * string) * AlbumEntry) : bool :=
  int_eqb v (fst (fst ke)).

(** The timers after the task of an entry was cancelled. *)
Definition cancel_one (ts : list Task) (t : option nat) : list Task :=
  match t with
  | Some i =>
      match ts !! i with
      | Some tk =>
          match status tk with
          | Pending => <[i := {| task_key := task_key tk; deadline := deadline tk;
                                 status := Cancelled |}]> ts
          | _ => ts
          end
      | None => ts
      end
  | None => ts
  end.

Lemma cancel_task_spec (t : option nat) (w : World) :
  cancel_task t w = (Ok tt, set_album (ALBUM_BUFFER w) (cancel_one (tasks w) t) w).
Proof.
  unfold cancel_task, cancel_one. destruct t as [i|]; [|destruct w; reflexivity].
  unfold modify. destruct (tasks w !! i) as [tk|]; [|destruct w; reflexivity].
  destruct (status tk); try reflexivity; destruct w; reflexivity.
Qed.

Lemma key_eqb_refl (k : Z * string) : key_eqb k k = true.
Proof. unfold key_eqb. rewrite Z.eqb_refl, String.eqb_refl. reflexivity. Qed.

Lemma key_eqb_owned (v : Value) (k k' : Z * string) (e e' : AlbumEntry) :
  owned v (k, e) = true -> owned v (k', e') = false -> key_eqb k k' = false.
Proof.
  unfold owned, key_eqb. cbn [fst]. intros H1 H2.
  destruct (Z.eqb_spec (fst k) (fst k')) as [E|E]; [|reflexivity].
  rewrite E in H1. congruence.
Qed.

Lemma buffer_get_app (v : Value) (k : Z * string) (e : AlbumEntry)
    (pre rest : list ((Z * string) * AlbumEntry)) :
  owned v (k, e) = true -> Forall (fun ke => owned v ke = false) pre ->
  buffer_get k (pre ++ (k, e) :: rest) = Some e
  /\ buffer_remove k (pre ++ (k, e) :: rest) = (pre ++ rest)%list.
Proof.
  intros Hk Hpre. induction Hpre as [|[k' e'] pre Hk' _ IH]; cbn.
  - rewrite key_eqb_refl. auto.
  - rewrite (key_eqb_owned v k k' e e' Hk Hk'). destruct IH as [-> ->]. auto.
Qed.

(** The body of the loop of [flush_user_albums]. *)
Definition flush_one (st : Z) (process : bool) (key : Z * string) : M unit :=
  let* entry := buffer_pop key in
  match entry with
  | None => ret tt
  | Some e =>
      cancel_task (task e) >>
      if negb process then ret tt
      else _process_album_entry PHOTO_LIMIT fetch
             {| files := files e; message := message e;
                state := Some st; task := task e |}
  end.

Lemma flush_user_albums_unfold (v : Value) (st : Z) (process : bool) (w : World) :
  flush_user_albums PHOTO_LIMIT fetch v st process w
  = if is_None v then (Ok tt, w)
    else for_each (List.filter (fun key => int_eqb v (fst key))
                               (map fst (ALBUM_BUFFER w)))
                  (flush_one st process) w.
Proof. unfold flush_user_albums. destruct (is_None v); reflexivity. Qed.

(** The photos of the draft after the listed entries went into it. *)
Definition flushed (limit : Z) (photos : list PhotoEntry) (entries : list AlbumEntry)
  : list PhotoEntry :=
  fold_left (processed limit) entries photos.

Lemma data_of_set_album (buf : list ((Z * string) * AlbumEntry)) (ts : list Task)
    (w : World) (uid : Z) :
  data_of (set_album buf ts w) uid = data_of w uid.
Proof. reflexivity. Qed.

Lemma flush_loop (v : Value) (st : Z) (process : bool) (limit : Z)
    (rest pre : list ((Z * string) * AlbumEntry)) (w : World) :
  ALBUM_BUFFER w = (pre ++ rest)%list ->
  Forall (fun ke => owned v ke = false) pre ->
  limit_of (data_of w st) = Ok limit ->
  exists w',
    for_each (List.filter (fun key => int_eqb v (fst key)) (map fst rest))
             (flush_one st process) w = (Ok tt, w')
    /\ ALBUM_BUFFER w' = (pre ++ List.filter (fun ke => negb (owned v ke)) rest)%list
    /\ tasks w' = fold_left cancel_one (map (fun ke => task (snd ke))
                                            (List.filter (owned v) rest)) (tasks w)
    /\ photos_of (data_of w' st)
       = (if process
          then flushed limit (photos_of (data_of w st))
                       (map snd (List.filter (owned v) rest))
          else photos_of (data_of w st))
    /\ limit_of (data_of w' st) = Ok limit
    /\ now w' = now w.
Proof.
  revert pre w. induction rest as [|[k e] rest IH]; intros pre w Hbuf Hpre Hlim.
  - exists w. cbn. rewrite app_nil_r in *. destruct process; auto 10.
  - cbn [map List.filter fst snd].
    change (owned v (k, e)) with (int_eqb v (fst k)).
    destruct (int_eqb v (fst k)) eqn:Hk; cbn [negb map snd fold_left].
    + cbn [for_each]. unfold bind at 1. unfold flush_one at 1.
      unfold bind at 1. unfold buffer_pop at 1. rewrite Hbuf.
      destruct (buffer_get_app v k e pre rest Hk Hpre) as [-> ->].
      unfold bind at 1. rewrite cancel_task_spec. cbn [ALBUM_BUFFER tasks set_album].
      set (w2 := set_album (pre ++ rest)%list (cancel_one (tasks w) (task e))
                   (set_album (pre ++ rest)%list (tasks w) w)).
      destruct process; cbn [negb].
      * destruct (process_entry_spec st
                    {| files := files e; message := message e; state := Some st;
                       task := task e |} limit w2 eq_refl Hlim)
          as (w3 & E3 & F3 & P3 & L3).
        rewrite E3.
        destruct (IH pre w3) as (w' & E & B & T & P & L & N).
        { rewrite (af_buffer _ _ _ F3). reflexivity. }
        { exact Hpre. }
        { exact L3. }
        exists w'. split; [exact E|]. split; [exact B|].
        split; [rewrite T, (af_tasks _ _ _ F3); reflexivity|].
        split; [rewrite P, P3; reflexivity|].
        split; [exact L|]. rewrite N, (af_now _ _ _ F3). reflexivity.
      * destruct (IH pre w2) as (w' & E & B & T & P & L & N);
          [reflexivity | exact Hpre | exact Hlim |].
        exists w'. split; [exact E|]. split; [exact B|].
        split; [rewrite T; reflexivity|]. split; [exact P|]. split; [exact L|].
        rewrite N. reflexivity.
    + destruct (IH (pre ++ [(k, e)])%list w) as (w' & E & B & T & P & L & N).
      { rewrite <- app_assoc. exact Hbuf. }
      { apply Forall_app. split; [exact Hpre|]. constructor; [exact Hk | constructor]. }
      { exact Hlim. }
      exists w'. split; [exact E|]. rewrite <- app_assoc in B. auto 10.
Qed.

(** [flush_user_albums] keeps the draft it writes to, whatever happens. *)
Lemma flush_one_frame (st : Z) (process : bool) (key : Z * string) (w : World) :
  frame st w (snd (flush_one st process key w)).
Proof.
  unfold flush_one, bind at 1, buffer_pop.
  destruct (buffer_get key (ALBUM_BUFFER w)) as [e|]; [|apply frame_same_storage; reflexivity].
  unfold bind at 1. rewrite cancel_task_spec.
  destruct process; cbn [negb].
  - eapply frame_trans; [|apply af_frame; apply process_entry_frame; reflexivity].
    apply frame_same_storage; reflexivity.
  - apply frame_same_storage; reflexivity.
Qed.

Lemma for_each_frame {A} (uid : Z) (f : A -> M unit) (l : list A) (w : World) :
  (forall x w0, frame uid w0 (snd (f x w0))) ->
  frame uid w (snd (for_each l f w)).
Proof.
  intros Hf. revert w. induction l as [|x l IH]; intros w; [apply frame_refl|].
  cbn [for_each]. unfold bind. specialize (Hf x w).
  destruct (f x w) as [[[]|e] w1]; cbn [snd] in *.
  - eapply frame_trans; [exact Hf | apply IH].
  - exact Hf.
Qed.

Lemma flush_frame (v : Value) (st : Z) (process : bool) (w : World) :
  frame st w (snd (flush_user_albums PHOTO_LIMIT fetch v st process w)).
Proof.
  rewrite flush_user_albums_unfold. destruct (is_None v); [apply frame_refl|].
  apply for_each_frame. intros key w0. apply flush_one_frame.
Qed.

(** Under a well-typed limit the flush returns, empties the user's part
    of the buffer, cancels the timers and fills the draft. *)
Lemma flush_spec (v : Value) (st : Z) (process : bool) (limit : Z) (w : World) :
  is_None v = false ->
  limit_of (data_of w st) = Ok limit ->
  exists w',
    flush_user_albums PHOTO_LIMIT fetch v st process w = (Ok tt, w')
    /\ frame st w w'
    /\ ALBUM_BUFFER w' = List.filter (fun ke => negb (owned v ke)) (ALBUM_BUFFER w)
    /\ tasks w' = fold_left cancel_one
                    (map (fun ke => task (snd ke)) (List.filter (owned v) (ALBUM_BUFFER w)))
                    (tasks w)
    /\ photos_of (data_of w' st)
       = (if process
          then flushed limit (photos_of (data_of w st))
                       (map snd (List.filter (owned v) (ALBUM_BUFFER w)))
          else photos_of (data_of w st))
    /\ limit_of (data_of w' st) = Ok limit
    /\ now w' = now w.
Proof.
  intros Hv Hlim. pose proof (flush_frame v st process w) as F.
  rewrite flush_user_albums_unfold in *. rewrite Hv in *.
  destruct (flush_loop v st process limit (ALBUM_BUFFER w) [] w eq_refl (List.Forall_nil _) Hlim)
    as (w' & E & B & T & P & L & N).
  rewrite E in *. exists w'. cbn [snd] in F. auto 10.
Qed.

(** *** Finalisation *)

(** The common shape of [finalize_save] and [finalize_quick_save]. *)
Definition finalizer (mk : gmap string Value -> TastingData)
    (infs : gmap string Value -> list Infusion)
    (cut : list PhotoEntry -> list PhotoEntry) (uid : Z) : M unit :=
  let* data := get_data uid in
  flush_user_albums PHOTO_LIMIT fetch (dget data "user_id") uid true >>
  let* data := get_data uid in
  let* t := create_tasting save_photo_bytes concurrent (mk data) (infs data)
              (cut (photos_of data)) in
  clear uid >>
  send (Card uid (id t) (photo_ids_to_send (cut (photos_of data)))).

Lemma finalize_save_shape (uid : Z) :
  finalize_save PHOTO_LIMIT fetch save_photo_bytes concurrent uid
  = finalizer full_tasting_data infusions_of
              (take (Z.to_nat (MAX_PHOTOS PHOTO_LIMIT))) uid.
Proof. reflexivity. Qed.

Lemma finalize_quick_save_shape (uid : Z) :
  finalize_quick_save PHOTO_LIMIT fetch save_photo_bytes concurrent uid
  = finalizer quick_tasting_data (fun _ => []) (fun l => l) uid.
Proof. reflexivity. Qed.

(** A function of the draft that reads no bookkeeping key of the photo
    step. *)
Definition reads_fields {A} (f : gmap string Value -> A) : Prop :=
  forall d d', (forall k, photo_key k = false -> d' !! k = d !! k) -> f d' = f d.

Lemma dget_field (d d' : gmap string Value) (k : string) :
  (forall k, photo_key k = false -> d' !! k = d !! k) ->
  photo_key k = false -> dget d' k = dget d k.
Proof. intros H Hk. unfold dget. rewrite H by assumption. reflexivity. Qed.

Lemma full_tasting_data_fields : reads_fields full_tasting_data.
Proof.
  intros d d' H. unfold full_tasting_data.
  rewrite !(dget_field d d') by (assumption || reflexivity).
  rewrite (H "rating") by reflexivity. reflexivity.
Qed.

Lemma quick_tasting_data_fields : reads_fields quick_tasting_data.
Proof.
  intros d d' H. unfold quick_tasting_data.
  rewrite !(dget_field d d') by (assumption || reflexivity). reflexivity.
Qed.

Lemma infusions_of_fields : reads_fields infusions_of.
Proof.
  intros d d' H. unfold infusions_of.
  rewrite (dget_field d d') by (assumption || reflexivity). reflexivity.
Qed.

Lemma is_quick_fields : reads_fields is_quick.
Proof.
  intros d d' H. unfold is_quick.
  rewrite (dget_field d d') by (assumption || reflexivity). reflexivity.
Qed.

(** The world after the call to the gateway. *)
Definition after_gateway (td : TastingData) (infs : list Infusion)
    (phs : list PhotoEntry) (w : World) : World :=
  snd (create_tasting save_photo_bytes concurrent td infs phs w).

Lemma after_gateway_fields (td : TastingData) (infs : list Infusion)
    (phs : list PhotoEntry) (w : World) :
  let w' := after_gateway td infs phs w in
  storage w' = storage w /\ ALBUM_BUFFER w' = ALBUM_BUFFER w /\ tasks w' = tasks w
  /\ gateway_calls w' = (gateway_calls w ++ [(td, infs, phs)])%list
  /\ outbox w' = outbox w.
Proof. cbv zeta. unfold after_gateway, create_tasting. cbn. auto. Qed.

(** A failed finalisation leaves the world as the gateway left it after
    the flush; a successful one clears the draft and shows the card. *)
Lemma finalizer_after_flush (mk : gmap string Value -> TastingData)
    (infs : gmap string Value -> list Infusion)
    (cut : list PhotoEntry -> list PhotoEntry) (uid : Z) (w w1 : World) :
  flush_user_albums PHOTO_LIMIT fetch (dget (data_of w uid) "user_id") uid true w
  = (Ok tt, w1) ->
  let data := data_of w1 uid in
  let w2 := after_gateway (mk data) (infs data) (cut (photos_of data)) w1 in
  match fst (create_tasting save_photo_bytes concurrent (mk data) (infs data)
               (cut (photos_of data)) w1) with
  | Raise e => finalizer mk infs cut uid w = (Raise e, w2)
  | Ok t =>
      finalizer mk infs cut uid w
      = (Ok tt, notified (Card uid (id t) (photo_ids_to_send (cut (photos_of data))))
                         (set_record uid empty_record w2))
  end.
Proof.
  intros Hflush. cbv zeta.
  assert (Hrun : finalizer mk infs cut uid w
                 = bind (create_tasting save_photo_bytes concurrent (mk (data_of w1 uid))
                           (infs (data_of w1 uid)) (cut (photos_of (data_of w1 uid))))
                        (fun t => clear uid >>
                                  send (Card uid (id t)
                                          (photo_ids_to_send (cut (photos_of (data_of w1 uid))))))
                        w1).
  { unfold finalizer. unfold bind at 1. unfold get_data at 1, gets. cbv beta iota.
    fold (data_of w uid). unfold bind at 1. rewrite Hflush. reflexivity. }
  rewrite Hrun. unfold after_gateway, bind.
  destruct (create_tasting save_photo_bytes concurrent (mk (data_of w1 uid))
              (infs (data_of w1 uid)) (cut (photos_of (data_of w1 uid))) w1)
    as [[t|e] w2]; reflexivity.
Qed.

(** Nothing of the user in the buffer: the flush does nothing. *)
Lemma flush_nothing (v : Value) (st : Z) (process : bool) (w : World) :
  Forall (fun ke => owned v ke = false) (ALBUM_BUFFER w) ->
  flush_user_albums PHOTO_LIMIT fetch v st process w = (Ok tt, w).
Proof.
  intros H. rewrite flush_user_albums_unfold. destruct (is_None v); [reflexivity|].
  replace (List.filter _ (map fst (ALBUM_BUFFER w))) with (@nil (Z * string));
    [reflexivity|].
  induction H as [|[k e] buf Hk _ IH]; [reflexivity|].
  cbn [map List.filter fst]. unfold owned in Hk. cbn [fst] in Hk. rewrite Hk. exact IH.
Qed.

Lemma finalizer_failure (mk : gmap string Value -> TastingData)
    (infs : gmap string Value -> list Infusion)
    (cut : list PhotoEntry -> list PhotoEntry) (uid : Z) (w w' : World) (e : Exn) :
  finalizer mk infs cut uid w = (Raise e, w') ->
  draft_kept (record_of w uid) (record_of w' uid)
  /\ (forall v, v <> uid -> record_of w' v = record_of w v)
  /\ (Forall (fun ke => owned (dget (data_of w uid) "user_id") ke = false) (ALBUM_BUFFER w) ->
      record_of w' uid = record_of w uid).
Proof.
  intros Hfin.
  pose proof (flush_frame (dget (data_of w uid) "user_id") uid true w) as F.
  destruct (flush_user_albums PHOTO_LIMIT fetch (dget (data_of w uid) "user_id") uid true w)
    as [[[]|e1] w1] eqn:Hflush; cbn [snd] in F.
  - pose proof (finalizer_after_flush mk infs cut uid w w1 Hflush) as Hrun.
    cbv zeta in Hrun.
    destruct (after_gateway_fields (mk (data_of w1 uid)) (infs (data_of w1 uid))
                (cut (photos_of (data_of w1 uid))) w1) as (Hs & _).
    destruct (fst (create_tasting _ _ _ _ _ w1)) as [t|e2].
    + rewrite Hrun in Hfin. discriminate.
    + rewrite Hrun in Hfin. injection Hfin as _ <-.
      assert (Hrec : forall v, record_of
                (after_gateway (mk (data_of w1 uid)) (infs (data_of w1 uid))
                   (cut (photos_of (data_of w1 uid))) w1) v = record_of w1 v)
        by (intros v; unfold record_of; rewrite Hs; reflexivity).
      rewrite Hrec. split; [apply (fr_draft _ _ _ F)|].
      split; [intros v Hv; rewrite Hrec; apply (fr_others _ _ _ F); exact Hv|].
      intros Hnone. rewrite (flush_nothing _ uid true w Hnone) in Hflush.
      injection Hflush as <-. reflexivity.
  - assert (Hw : w' = w1).
    { unfold finalizer in Hfin. unfold bind at 1 in Hfin.
      unfold get_data at 1, gets in Hfin. cbv beta iota in Hfin.
      fold (data_of w uid) in Hfin. unfold bind at 1 in Hfin.
      rewrite Hflush in Hfin. congruence. }
    subst w'. split; [apply (fr_draft _ _ _ F)|].
    split; [apply (fr_others _ _ _ F)|].
    intros Hnone. rewrite (flush_nothing _ uid true w Hnone) in Hflush. discriminate.
Qed.

Lemma clear_photo_progress_spec (chat uid : Z) (w : World) :
  exists w',
    clear_photo_progress chat uid w = (Ok tt, w')
    /\ album_frame uid w w'
    /\ data_of w' uid !! "new_photos" = data_of w uid !! "new_photos"
    /\ data_of w' uid !! "photo_limit" = data_of w uid !! "photo_limit".
Proof.
  unfold clear_photo_progress, bind, get_data, gets. cbv beta iota zeta.
  destruct (quiet_delete_if_set chat (dget (fsm_data (record_of w uid)) "progress_msg_id") w)
    as ([] & w1 & -> & T1).
  destruct (telegram_only_data uid _ _ T1) as [Hd Hs].
  destruct (update_data_fields uid [("progress_msg_id", VNone)] w1) as (Hok & Hdata & _).
  exists (snd (update_data uid [("progress_msg_id", VNone)] w1)).
  cbn [fold_left fst snd] in Hdata.
  assert (Hnew : data_of (snd (update_data uid [("progress_msg_id", VNone)] w1)) uid
                 !! "new_photos" = data_of w uid !! "new_photos").
  { rewrite Hdata, Hd. apply lookup_insert_ne. discriminate. }
  split; [|split; [|split]].
  - destruct (update_data uid _ w1) as [r w2]. cbn in Hok. subst r. reflexivity.
  - eapply album_frame_trans; [apply telegram_only_frame; exact T1|].
    apply update_books_frame; [repeat constructor|].
    exists []. rewrite app_nil_r. cbn [fold_left fst snd].
    apply photos_of_same. apply lookup_insert_ne. discriminate.
  - exact Hnew.
  - rewrite Hdata, Hd. apply lookup_insert_ne. discriminate.
Qed.

(** Without processing, a flush leaves the storage alone. *)
Lemma flush_discard_storage (st : Z) (keys : list (Z * string)) (w : World) :
  exists w', for_each keys (flush_one st false) w = (Ok tt, w')
             /\ storage w' = storage w.
Proof.
  revert w. induction keys as [|k keys IH]; intros w; [exists w; auto|].
  cbn [for_each]. unfold bind at 1.
  assert (Hone : exists w1, flush_one st false k w = (Ok tt, w1)
                            /\ storage w1 = storage w).
  { unfold flush_one, bind at 1, buffer_pop.
    destruct (buffer_get k (ALBUM_BUFFER w)) as [e|]; [|eexists; split; reflexivity].
    unfold bind at 1. rewrite cancel_task_spec. cbn [negb].
    eexists. split; reflexivity. }
  destruct Hone as (w1 & -> & S1). destruct (IH w1) as (w' & E & S).
  exists w'. split; [exact E | congruence].
Qed.

(** With a well-typed limit the flush returns whoever the owner is. *)
Lemma flush_total (v : Value) (st : Z) (process : bool) (limit : Z) (w : World) :
  limit_of (data_of w st) = Ok limit ->
  exists w',
    flush_user_albums PHOTO_LIMIT fetch v st process w = (Ok tt, w')
    /\ frame st w w'
    /\ limit_of (data_of w' st) = Ok limit
    /\ (process = false -> storage w' = storage w).
Proof.
  intros Hlim. destruct (is_None v) eqn:Hv.
  - exists w. rewrite flush_user_albums_unfold, Hv. auto using frame_refl.
  - destruct (flush_spec v st process limit w Hv Hlim) as (w' & E & F & _ & _ & _ & L & _).
    exists w'. split; [exact E|]. split; [exact F|]. split; [exact L|].
    intros ->. rewrite flush_user_albums_unfold, Hv in E.
    destruct (flush_discard_storage st
                (List.filter (fun key => int_eqb v (fst key)) (map fst (ALBUM_BUFFER w))) w)
      as (w2 & E2 & S2).
    congruence.
Qed.

(** The finaliser hands the draft to the gateway once, after the flush. *)
Lemma finalizer_calls (mk : gmap string Value -> TastingData)
    (infs : gmap string Value -> list Infusion)
    (cut : list PhotoEntry -> list PhotoEntry) (uid limit : Z) (w : World) :
  reads_fields mk -> reads_fields infs ->
  limit_of (data_of w uid) = Ok limit ->
  exists w1,
    flush_user_albums PHOTO_LIMIT fetch (dget (data_of w uid) "user_id") uid true w
    = (Ok tt, w1)
    /\ let w' := snd (finalizer mk infs cut uid w) in
       gateway_calls w'
       = (gateway_calls w
          ++ [(mk (data_of w uid), infs (data_of w uid), cut (photos_of (data_of w1 uid)))])%list
       /\ ALBUM_BUFFER w' = ALBUM_BUFFER w1 /\ tasks w' = tasks w1.
Proof.
  intros Hmk Hinfs Hlim.
  destruct (flush_total (dget (data_of w uid) "user_id") uid true limit w Hlim)
    as (w1 & E & F & _).
  exists w1. split; [exact E|]. cbv zeta.
  pose proof (finalizer_after_flush mk infs cut uid w w1 E) as Hrun. cbv zeta in Hrun.
  destruct (after_gateway_fields (mk (data_of w1 uid)) (infs (data_of w1 uid))
              (cut (photos_of (data_of w1 uid))) w1) as (_ & Hb & Ht & Hc & _).
  destruct (fr_draft _ _ _ F) as (_ & Hfields & _).
  fold (data_of w1 uid) (data_of w uid) in Hfields.
  rewrite (fr_calls _ _ _ F) in Hc.
  rewrite <- (Hmk _ _ Hfields), <- (Hinfs _ _ Hfields).
  destruct (fst (create_tasting _ _ _ _ _ w1)) as [t|e]; rewrite Hrun; cbn [snd];
    cbn [notified set_record gateway_calls ALBUM_BUFFER tasks]; auto.
Qed.

(** After any number of cancellations the cancelled tasks are not
    pending. *)
Lemma cancel_one_keeps (ts : list Task) (t : option nat) (i : nat) :
  (forall tk, ts !! i = Some tk -> status tk <> Pending) ->
  forall tk, cancel_one ts t !! i = Some tk -> status tk <> Pending.
Proof.
  intros H tk. unfold cancel_one. destruct t as [j|]; [|apply H].
  destruct (ts !! j) as [tj|] eqn:Hj; [|apply H].
  destruct (status tj) eqn:Hs; try apply H.
  destruct (decide (j = i)) as [->|Hne].
  - rewrite list_lookup_insert_eq by (eapply lookup_lt_Some; eassumption).
    intros [= <-]. discriminate.
  - rewrite list_lookup_insert_ne by assumption. apply H.
Qed.

Lemma cancel_one_done (ts : list Task) (i : nat) :
  forall tk, cancel_one ts (Some i) !! i = Some tk -> status tk <> Pending.
Proof.
  intros tk. unfold cancel_one. destruct (ts !! i) as [ti|] eqn:Hi; [|congruence].
  destruct (status ti) eqn:Hs.
  - rewrite list_lookup_insert_eq by (eapply lookup_lt_Some; eassumption).
    intros [= <-]. discriminate.
  - rewrite Hi. intros [= <-]. congruence.
  - rewrite Hi. intros [= <-]. congruence.
Qed.

Lemma cancel_all_done (l : list (option nat)) (ts : list Task) (i : nat) :
  In (Some i) l ->
  forall tk, fold_left cancel_one l ts !! i = Some tk -> status tk <> Pending.
Proof.
  revert ts. induction l as [|t l IH]; intros ts [].
  - subst t. cbn [fold_left].
    assert (Hkeep : forall l' ts',
               (forall tk, ts' !! i = Some tk -> status tk <> Pending) ->
               forall tk, fold_left cancel_one l' ts' !! i = Some tk -> status tk <> Pending).
    { induction l' as [|t' l' IH']; intros ts' H'; [exact H'|].
      cbn [fold_left]. apply IH'. apply cancel_one_keeps. exact H'. }
    apply Hkeep. apply cancel_one_done.
  - cbn [fold_left]. apply IH. assumption.
Qed.

(** When everything fits, a flush appends every buffered file, in order. *)
Lemma downloads_app (l1 l2 : list AlbumFile) :
  downloads (l1 ++ l2) = (downloads l1 ++ downloads l2)%list.
Proof. unfold downloads. apply flat_map_app. Qed.

Lemma downloads_length (l : list AlbumFile) : zlen (downloads l) <= zlen l.
Proof.
  unfold zlen. induction l as [|f l IH]; [cbn; lia|].
  rewrite (downloads_cons f l), length_app. cbn [length].
  assert (length (downloads [f]) <= 1)%nat.
  { unfold downloads. cbn. destruct (String.eqb _ _); [cbn; lia|].
    destruct (fetch _); cbn; lia. }
  lia.
Qed.

Lemma flushed_all_fit (limit : Z) (entries : list AlbumEntry) (photos : list PhotoEntry) :
  Forall (fun e => message e <> None) entries ->
  zlen photos + zlen (concat (map files entries)) <= limit ->
  flushed limit photos entries = (photos ++ downloads (concat (map files entries)))%list.
Proof.
  unfold flushed. intros Hmsg. revert photos.
  induction Hmsg as [|e entries He _ IH]; intros photos Hfit.
  - cbn. rewrite app_nil_r. reflexivity.
  - cbn [fold_left map concat] in *. rewrite downloads_app, app_assoc.
    unfold zlen in Hfit. rewrite length_app in Hfit.
    assert (Hp : processed limit photos e = (photos ++ downloads (files e))%list).
    { unfold processed. destruct (message e); [|congruence].
      destruct (files e) as [|f fs] eqn:Hf; [cbn; rewrite app_nil_r; reflexivity|].
      rewrite <- Hf in *.
      assert (Hlen : (0 < length (files e))%nat) by (rewrite Hf; cbn; lia).
      unfold zlen. destruct (Z.leb_spec (limit - Z.of_nat (length photos)) 0); [lia|].
      rewrite firstn_all2 by lia. reflexivity. }
    rewrite Hp. apply IH.
    pose proof (downloads_length (files e)). unfold zlen in *.
    rewrite length_app. lia.
Qed.

(** What [finalize_after_photos] hands to the gateway for a draft. *)
Definition tasting_data_for (data : gmap string Value) : TastingData :=
  if is_quick data then quick_tasting_data data else full_tasting_data data.

Definition infusions_for (data : gmap string Value) : list Infusion :=
  if is_quick data then [] else infusions_of data.

Definition photos_for (data : gmap string Value) (photos : list PhotoEntry)
  : list PhotoEntry :=
  if is_quick data then photos else take (Z.to_nat (MAX_PHOTOS PHOTO_LIMIT)) photos.

Lemma tasting_data_for_fields : reads_fields tasting_data_for.
Proof.
  intros d d' H. unfold tasting_data_for.
  rewrite (is_quick_fields d d' H), (quick_tasting_data_fields d d' H),
    (full_tasting_data_fields d d' H). reflexivity.
Qed.

Lemma infusions_for_fields : reads_fields infusions_for.
Proof.
  intros d d' H. unfold infusions_for.
  rewrite (is_quick_fields d d' H), (infusions_of_fields d d' H). reflexivity.
Qed.

Lemma finalize_after_photos_calls (uid limit : Z) (w : World) :
  limit_of (data_of w uid) = Ok limit ->
  exists added,
    gateway_calls (snd (finalize_after_photos PHOTO_LIMIT fetch save_photo_bytes
                          concurrent uid w))
    = (gateway_calls w
       ++ [(tasting_data_for (data_of w uid), infusions_for (data_of w uid),
            photos_for (data_of w uid) (photos_of (data_of w uid) ++ added))])%list.
Proof.
  intros Hlim. unfold finalize_after_photos, bind at 1, get_data at 1, gets.
  cbv beta iota. fold (data_of w uid).
  unfold tasting_data_for, infusions_for, photos_for.
  destruct (is_quick (data_of w uid)).
  - rewrite finalize_quick_save_shape.
    destruct (finalizer_calls quick_tasting_data (fun _ => []) (fun l => l) uid limit w
                quick_tasting_data_fields ltac:(intros ? ? ?; reflexivity) Hlim)
      as (w1 & E & Hc & _).
    pose proof (flush_frame (dget (data_of w uid) "user_id") uid true w) as F.
    rewrite E in F. cbn [snd] in F.
    destruct (fr_draft _ _ _ F) as (_ & _ & added & Hadd).
    exists added. rewrite Hc. unfold data_of. rewrite Hadd. reflexivity.
  - rewrite finalize_save_shape.
    destruct (finalizer_calls full_tasting_data infusions_of
                (take (Z.to_nat (MAX_PHOTOS PHOTO_LIMIT))) uid limit w
                full_tasting_data_fields infusions_of_fields Hlim)
      as (w1 & E & Hc & _).
    pose proof (flush_frame (dget (data_of w uid) "user_id") uid true w) as F.
    rewrite E in F. cbn [snd] in F.
    destruct (fr_draft _ _ _ F) as (_ & _ & added & Hadd).
    exists added. rewrite Hc. unfold data_of. rewrite Hadd. reflexivity.
Qed.

(** The photo step as [prompt_photos] and the photo handlers leave it:
    the state is [PhotoFlow.photos], the limit is an integer and
    [new_photos] is a list of photos. *)
Definition at_photo_step (w : World) (uid limit : Z) (photos : list PhotoEntry) : Prop :=
  state_of w uid = Some PhotoFlow_photos
  /\ data_of w uid !! "photo_limit" = Some (VInt limit)
  /\ data_of w uid !! "new_photos" = Some (VPhotos photos).

Lemma at_photo_step_photos (w : World) (uid limit : Z) (photos : list PhotoEntry) :
  at_photo_step w uid limit photos ->
  photos_of (data_of w uid) = photos /\ limit_of (data_of w uid) = Ok limit
  /\ dget (data_of w uid) "new_photos" = VPhotos photos.
Proof.
  intros (_ & Hl & Hp). unfold photos_of, limit_of, dget. rewrite Hl, Hp. auto.
Qed.

Lemma photos_done_accepts (uid limit : Z) (p : PhotoEntry) (l : list PhotoEntry)
    (w : World) :
  at_photo_step w uid limit (p :: l) ->
  exists added,
    gateway_calls (snd (photos_done PHOTO_LIMIT fetch save_photo_bytes concurrent uid w))
    = (gateway_calls w
       ++ [(tasting_data_for (data_of w uid), infusions_for (data_of w uid),
            photos_for (data_of w uid) (p :: l ++ added))])%list.
Proof.
  intros Hstep. destruct (at_photo_step_photos _ _ _ _ Hstep) as (Hph & Hlim & _).
  destruct Hstep as (Hst & _).
  unfold photos_done, bind at 1, get_state, gets. cbv beta iota.
  fold (state_of w uid). rewrite Hst, bool_decide_eq_true_2 by reflexivity. cbn [negb].
  unfold bind at 1, get_data, gets. cbv beta iota. fold (data_of w uid). rewrite Hph.
  destruct (clear_photo_progress_spec uid uid w) as (w1 & E1 & F1 & Hn1 & Hl1).
  unfold bind at 1. rewrite E1.
  assert (Hlim1 : limit_of (data_of w1 uid) = Ok limit)
    by (rewrite (limit_of_same _ _ Hl1); exact Hlim).
  destruct (finalize_after_photos_calls uid limit w1 Hlim1) as (added & Hc).
  destruct (fr_draft _ _ _ (af_frame _ _ _ F1)) as (_ & Hfields & _).
  fold (data_of w1 uid) (data_of w uid) in Hfields.
  rewrite (tasting_data_for_fields _ _ Hfields), (infusions_for_fields _ _ Hfields),
    (fr_calls _ _ _ (af_frame _ _ _ F1)), (photos_of_same _ _ Hn1), Hph in Hc.
  assert (Hq : photos_for (data_of w1 uid) = photos_for (data_of w uid))
    by (unfold photos_for; rewrite (is_quick_fields _ _ Hfields); reflexivity).
  rewrite Hq in Hc. exists added. unfold bind.
  destruct (finalize_after_photos _ _ _ _ uid w1) as [[[]|e] w2]; cbn [snd] in *; exact Hc.
Qed.

Lemma photos_skip_accepts (uid limit : Z) (w : World) :
  at_photo_step w uid limit [] ->
  exists added,
    gateway_calls (snd (photos_skip PHOTO_LIMIT fetch save_photo_bytes concurrent uid w))
    = (gateway_calls w
       ++ [(tasting_data_for (data_of w uid), infusions_for (data_of w uid),
            photos_for (data_of w uid) added)])%list.
Proof.
  intros Hstep. destruct (at_photo_step_photos _ _ _ _ Hstep) as (Hph & Hlim & Hnew).
  unfold photos_skip, bind at 1, get_data, gets. cbv beta iota zeta.
  fold (data_of w uid). rewrite Hnew. cbn [truthy].
  destruct (flush_total (VInt uid) uid false limit w Hlim) as (w1 & E1 & F1 & L1 & S1).
  specialize (S1 eq_refl). unfold bind at 1. rewrite E1. unfold bind at 1.
  assert (Hd1 : data_of w1 uid = data_of w uid)
    by (unfold data_of, record_of; rewrite S1; reflexivity).
  destruct (update_data_fields uid [("new_photos", VPhotos [])] w1) as (Hok & Hdata & _).
  cbn [fold_left fst snd] in Hdata.
  pose proof (update_books_frame uid [("new_photos", VPhotos [])] w1
                ltac:(repeat constructor)) as F2.
  destruct (update_data uid [("new_photos", VPhotos [])] w1) as [r w2] eqn:E2.
  cbn [fst snd] in *. subst r.
  assert (F2' : album_frame uid w1 w2).
  { apply F2. exists []. cbn [fold_left fst snd]. rewrite Hd1, Hph.
    unfold photos_of, dget. rewrite lookup_insert_eq. reflexivity. }
  clear F2.
  assert (Hl2 : limit_of (data_of w2 uid) = Ok limit).
  { rewrite <- L1. apply limit_of_same. rewrite Hdata. apply lookup_insert_ne. discriminate. }
  assert (Hp2 : photos_of (data_of w2 uid) = []).
  { rewrite Hdata. unfold photos_of, dget. rewrite lookup_insert_eq. reflexivity. }
  destruct (clear_photo_progress_spec uid uid w2) as (w3 & E3 & F3 & Hn3 & Hl3).
  unfold bind at 1. rewrite E3.
  assert (Hlim3 : limit_of (data_of w3 uid) = Ok limit)
    by (rewrite (limit_of_same _ _ Hl3); exact Hl2).
  destruct (finalize_after_photos_calls uid limit w3 Hlim3) as (added & Hc).
  pose proof (frame_trans _ _ _ _ F1
                (frame_trans _ _ _ _ (af_frame _ _ _ F2') (af_frame _ _ _ F3))) as F.
  destruct (fr_draft _ _ _ F) as (_ & Hfields & _).
  fold (data_of w3 uid) (data_of w uid) in Hfields.
  rewrite (tasting_data_for_fields _ _ Hfields), (infusions_for_fields _ _ Hfields),
    (fr_calls _ _ _ F), (photos_of_same _ _ Hn3), Hp2 in Hc.
  assert (Hq : photos_for (data_of w3 uid) = photos_for (data_of w uid))
    by (unfold photos_for; rewrite (is_quick_fields _ _ Hfields); reflexivity).
  rewrite Hq in Hc. exists added. unfold bind.
  destruct (finalize_after_photos _ _ _ _ uid w3) as [[[]|e] w4]; cbn [snd] in *; exact Hc.
Qed.


(** A finalisation that returns has cleared the draft. *)
Lemma finalize_success_clears (uid : Z) (w w' : World) :
  finalize_after_photos PHOTO_LIMIT fetch save_photo_bytes concurrent uid w
  = (Ok tt, w') ->
  record_of w' uid = empty_record.
Proof.
  intros Hfin. unfold finalize_after_photos, bind at 1, get_data at 1, gets in Hfin.
  cbv beta iota in Hfin. fold (data_of w uid) in Hfin.
  assert (Hgen : forall mk infs cut,
             finalizer mk infs cut uid w = (Ok tt, w') -> record_of w' uid = empty_record).
  { intros mk infs cut Hrun.
    destruct (flush_user_albums PHOTO_LIMIT fetch (dget (data_of w uid) "user_id") uid true w)
      as [[[]|e1] w1] eqn:Hflush.
    - pose proof (finalizer_after_flush mk infs cut uid w w1 Hflush) as H. cbv zeta in H.
      destruct (fst (create_tasting _ _ _ _ _ w1)) as [t|e2]; rewrite H in Hrun;
        [|discriminate].
      injection Hrun as <-.
      change (record_of (notified ?o ?x) uid) with (record_of x uid).
      rewrite record_of_set_record. destruct (decide (uid = uid)); congruence.
    - unfold finalizer in Hrun. unfold bind at 1 in Hrun.
      unfold get_data at 1, gets in Hrun. cbv beta iota in Hrun.
      fold (data_of w uid) in Hrun. unfold bind at 1 in Hrun.
      rewrite Hflush in Hrun. discriminate. }
  destruct (is_quick (data_of w uid)).
  - rewrite finalize_quick_save_shape in Hfin. eapply Hgen; eassumption.
  - rewrite finalize_save_shape in Hfin. eapply Hgen; eassumption.
Qed.

(** C4. At the photo step, "done" with no photo collected is rejected: one
    alert is shown and nothing else changes, neither state nor draft nor
    gateway; "skip" with a photo collected is rejected in the same way.
    "done" with at least one photo and "skip" with none go on to the
    finaliser, which hands the draft to the gateway exactly once. *)
Theorem photo_step_done_and_skip (uid limit : Z) (photos : list PhotoEntry) (w : World) :
  at_photo_step w uid limit photos ->
  let data := data_of w uid in
  let done := photos_done PHOTO_LIMIT fetch save_photo_bytes concurrent uid w in
  let skip := photos_skip PHOTO_LIMIT fetch save_photo_bytes concurrent uid w in
  (photos = [] ->
     done = (Ok tt, notified (CallbackAnswer uid
                      "Сначала добавь хотя бы одно фото или пропусти шаг." true) w)
     /\ exists added,
          gateway_calls (snd skip)
          = (gateway_calls w
             ++ [(tasting_data_for data, infusions_for data, photos_for data added)])%list)
  /\ (photos <> [] ->
        skip = (Ok tt, notified (CallbackAnswer uid
                         "Уже есть загруженные фото, нажми «Готово»." true) w)
        /\ exists added,
             gateway_calls (snd done)
             = (gateway_calls w
                ++ [(tasting_data_for data, infusions_for data,
                     photos_for data (photos ++ added))])%list).
Proof.
  intros Hstep. cbv zeta. destruct (at_photo_step_photos _ _ _ _ Hstep) as (Hph & _).
  split.
  - intros ->. split.
    + apply photos_done_no_photos; [apply Hstep | exact Hph].
    + apply (photos_skip_accepts uid limit w Hstep).
  - intros Hne. destruct photos as [|p l]; [congruence|]. split.
    + apply (photos_skip_with_photos uid w p l Hph).
    + apply (photos_done_accepts uid limit p l w Hstep).
Qed.


End BotFacts.

(** *** Examples for the photo step *)

Section PhotoStepExamples.
Import Tastings Bot.

(** Telegram returns every file. *)
Definition example_fetch (fid : string) : Fetched := File (fid ++ ".jpg") "JPEG".

(** The disk of the blob store is full. *)
Definition broken_storage (uid : Value) (tid : Z) (content hint : string)
  : Result SaveResult := Raise OSError.

Definition alone (k : nat) (db : Database) : Database := db.

Definition example_file (fid : string) : AlbumFile :=
  {| file_id := fid; file_unique_id := fid ++ "-u" |}.

Definition example_photo (fid : string) : PhotoEntry :=
  PhotoDict {| body := Some "JPEG"; filename_hint := Some (fid ++ ".jpg");
               telegram_file_id := Some fid;
               telegram_file_unique_id := Some (fid ++ "-u") |}.

(** User 7 is at the photo step of the full flow with one photo in the
    draft. *)
Definition example_draft : gmap string Value :=
  list_to_map
    [("user_id", VInt 7); ("name", VStr "Da Hong Pao"); ("year", VInt 2019);
     ("region", VNone); ("category", VStr "Улун"); ("rating", VInt 8);
     ("effects", VStrs ["Тепло"]); ("scenarios", VStrs []);
     ("infusions", VInfusions [{| n := Some 1; seconds := Some 20;
                                  liquor_color := Some "amber";
                                  taste := Some "roasted"; special_notes := None;
                                  inf_body := Some "medium"; aftertaste := None |}]);
     ("summary", VNone); ("live_q_id", VInt 40);
     ("new_photos", VPhotos [example_photo "p0"]);
     ("photo_count", VInt 1); ("photo_limit", VInt 3);
     ("progress_msg_id", VInt 41)].

(** An album of two photos of user 7 and one of user 9 wait in the buffer,
    their timers pending. *)
Definition example_world : World :=
  {| now := 1000;
     storage := {[ 7 := {| fsm_state := Some PhotoFlow_photos;
                           fsm_data := example_draft |} ]};
     ALBUM_BUFFER :=
       [((9, "other"), {| files := [example_file "z1"]; message := Some 9;
                          state := Some 9; task := Some 0%nat |});
        ((7, "album"), {| files := [example_file "a1"; example_file "a2"];
                          message := Some 7; state := Some 7; task := Some 2%nat |})];
     tasks := [{| task_key := (9, "other"); deadline := 2400; status := Pending |};
               {| task_key := (7, "album"); deadline := 2800; status := Cancelled |};
               {| task_key := (7, "album"); deadline := 2900; status := Pending |}];
     database := example_db;
     outbox := [];
     next_message_id := 42;
     gateway_calls := [] |}.

(** The same step with nothing collected and nothing buffered. *)
Definition example_world_empty : World :=
  {| now := 1000;
     storage := {[ 7 := {| fsm_state := Some PhotoFlow_photos;
                           fsm_data := <["new_photos" := VPhotos []]> example_draft |} ]};
     ALBUM_BUFFER := []; tasks := []; database := example_db; outbox := [];
     next_message_id := 42; gateway_calls := [] |}.



Lemma photo_step_done_and_skip_witness :
  let w := example_world in
  let data := data_of w 7 in
  let done := photos_done None example_fetch example_storage alone 7 w in
  let skip := photos_skip None example_fetch example_storage alone 7 w in
  ([example_photo "p0"] = [] ->
     done = (Ok tt, notified (CallbackAnswer 7
                      "Сначала добавь хотя бы одно фото или пропусти шаг." true) w)
     /\ exists added,
          gateway_calls (snd skip)
          = (gateway_calls w
             ++ [(tasting_data_for data, infusions_for data,
                  photos_for None data added)])%list)
  /\ ([example_photo "p0"] <> [] ->
        skip = (Ok tt, notified (CallbackAnswer 7
                         "Уже есть загруженные фото, нажми «Готово»." true) w)
        /\ exists added,
             gateway_calls (snd done)
             = (gateway_calls w
                ++ [(tasting_data_for data, infusions_for data,
                     photos_for None data ([example_photo "p0"] ++ added))])%list).
Proof.
  cbv zeta.
  apply (photo_step_done_and_skip None example_fetch example_storage alone 7 3).
  repeat split; reflexivity.
Defined.

(** In the empty step "done" is refused and "skip" stores record #3 of
    user 7 without photos and clears the draft. *)
Example photo_step_empty :
  let done := photos_done None example_fetch example_storage alone 7 example_world_empty in
  let skip := photos_skip None example_fetch example_storage alone 7 example_world_empty in
  snd done = notified (CallbackAnswer 7
               "Сначала добавь хотя бы одно фото или пропусти шаг." true)
               example_world_empty
  /\ fst skip = Ok tt
  /\ map (fun t => (user_id t, seq_no t)) (tastings (database (snd skip)))
     = [(7, 1); (9, 1); (7, 2); (7, 3)]
  /\ photos (database (snd skip)) = []
  /\ record_of (snd skip) 7 = empty_record.
Proof.
  cbv zeta. repeat split; vm_compute; reflexivity.
Qed.


(** In the example the two buffered photos reach the gateway after the
    one of the draft, the entry of user 9 stays buffered with its timer,
    and the record is stored with three photos. *)
Example finalize_example :
  let w' := snd (finalize_save None example_fetch example_storage alone 7 example_world) in
  map (fun c => photo_ids_to_send (snd c)) (gateway_calls w') = [["p0"; "a1"; "a2"]]
  /\ map fst (ALBUM_BUFFER w') = [(9, "other")]
  /\ map status (tasks w') = [Pending; Cancelled; Cancelled]
  /\ map ph_file_id (photos (database w')) = ["p0"; "a1"; "a2"]
  /\ record_of w' 7 = empty_record.
Proof.
  cbv zeta. repeat split; vm_compute; reflexivity.
Qed.

End PhotoStepExamples.

(** ** Prompts and the quick flow *)

Section QuickFacts.
Import Tastings Bot.

(** The draft of [uid] up to the id of the live prompt; everything else in
    the world but the outbox is as before. *)
Record prompted (uid : Z) (w w' : World) : Prop := {
  pr_data : forall k, k <> "live_q_id" -> data_of w' uid !! k = data_of w uid !! k;
  pr_others : forall v, v <> uid -> record_of w' v = record_of w v;
  pr_buffer : ALBUM_BUFFER w' = ALBUM_BUFFER w;
  pr_tasks : tasks w' = tasks w;
  pr_db : database w' = database w;
  pr_calls : gateway_calls w' = gateway_calls w;
}.

Lemma prompted_refl (uid : Z) (w : World) : prompted uid w w.
Proof. constructor; auto. Qed.

Lemma prompted_trans (uid : Z) (w1 w2 w3 : World) :
  prompted uid w1 w2 -> prompted uid w2 w3 -> prompted uid w1 w3.
Proof.
  intros [D O B T DB C] [D' O' B' T' DB' C']. constructor; try congruence.
  - intros k Hk. rewrite D', D by assumption. reflexivity.
  - intros v Hv. rewrite O', O by assumption. reflexivity.
Qed.

Lemma telegram_only_prompted (uid : Z) (w w' : World) :
  telegram_only w w' -> prompted uid w w'.
Proof.
  intros (Hs & Hb & Ht & Hd & Hc & Hn).
  constructor; auto; intros; unfold data_of, record_of; rewrite Hs; reflexivity.
Qed.

Lemma set_state_spec (uid : Z) (s : option string) (w : World) :
  exists w', set_state uid s w = (Ok tt, w')
             /\ state_of w' uid = s
             /\ data_of w' uid = data_of w uid
             /\ prompted uid w w'.
Proof.
  eexists. split; [reflexivity|]. unfold state_of, data_of.
  rewrite record_of_set_record. destruct (decide (uid = uid)); [|congruence].
  split; [reflexivity|]. split; [reflexivity|].
  constructor; try reflexivity.
  - intros k _. unfold data_of. rewrite record_of_set_record.
    destruct (decide (uid = uid)); [reflexivity|congruence].
  - intros v Hv. rewrite record_of_set_record.
    destruct (decide (uid = v)); [congruence|reflexivity].
Qed.

(** Writing keys of the draft other than the listed ones is visible only
    at those keys. *)
Lemma update_data_spec (uid : Z) (kvs : list (string * Value)) (w : World) :
  exists w', update_data uid kvs w = (Ok tt, w')
             /\ state_of w' uid = state_of w uid
             /\ data_of w' uid
                = fold_left (fun d kv => <[fst kv := snd kv]> d) kvs (data_of w uid)
             /\ (forall v, v <> uid -> record_of w' v = record_of w v)
             /\ ALBUM_BUFFER w' = ALBUM_BUFFER w /\ tasks w' = tasks w
             /\ database w' = database w /\ gateway_calls w' = gateway_calls w
             /\ outbox w' = outbox w.
Proof.
  eexists. split; [reflexivity|]. unfold state_of, data_of.
  rewrite record_of_set_record. destruct (decide (uid = uid)); [|congruence].
  cbn. repeat split.
  intros v Hv. rewrite record_of_set_record.
  destruct (decide (uid = v)); [congruence|reflexivity].
Qed.

Lemma ask_spec (uid : Z) (text : string) (kb : list string) (w : World) :
  exists w', ask_ uid text kb w = (Ok tt, w')
             /\ state_of w' uid = state_of w uid
             /\ prompted uid w w'.
Proof.
  unfold ask_, ask_next, bind, get_data, gets. cbv beta iota zeta.
  destruct (quiet_remove_markup_if_set uid (dget (fsm_data (record_of w uid)) "live_q_id") w)
    as ([] & w1 & -> & T1).
  destruct (quiet_answer uid text kb w1) as (sent & w2 & -> & T2).
  pose proof (telegram_only_trans _ _ _ T1 T2) as T.
  destruct (update_data_spec uid [("live_q_id", VInt sent)] w2)
    as (w3 & -> & Hs & Hd & Ho & Hb & Ht & Hdb & Hc & _).
  exists w3. split; [reflexivity|].
  destruct (telegram_only_data uid _ _ T) as [Hd2 Hs2].
  split; [congruence|].
  eapply prompted_trans; [apply telegram_only_prompted; exact T|].
  constructor; auto.
  intros k Hk. rewrite Hd. cbn [fold_left fst snd]. apply lookup_insert_ne. congruence.
Qed.

(** An action that puts the flow at step [X] and asks its question. *)
Definition reprompts (uid : Z) (X : string) (m : M unit) : Prop :=
  forall w, exists w', m w = (Ok tt, w')
                       /\ state_of w' uid = Some X /\ prompted uid w w'.

Lemma set_then_ask (uid : Z) (X text : string) (kb : list string) :
  reprompts uid X (set_state uid (Some X) >> ask_ uid text kb).
Proof.
  intros w. unfold bind.
  destruct (set_state_spec uid (Some X) w) as (w1 & -> & Hs1 & _ & P1).
  destruct (ask_spec uid text kb w1) as (w2 & -> & Hs2 & P2).
  exists w2. split; [reflexivity|]. split; [congruence|].
  eapply prompted_trans; eassumption.
Qed.

Lemma reprompts_name uid : reprompts uid QuickNote_name (ask_quick_name uid).
Proof. apply set_then_ask. Qed.
Lemma reprompts_type uid : reprompts uid QuickNote_type_pick (ask_quick_type uid).
Proof. apply set_then_ask. Qed.
Lemma reprompts_type_custom uid :
  reprompts uid QuickNote_type_custom (ask_quick_type_custom uid).
Proof. apply set_then_ask. Qed.
Lemma reprompts_grams uid : reprompts uid QuickNote_grams (ask_quick_grams uid).
Proof. apply set_then_ask. Qed.
Lemma reprompts_temp uid : reprompts uid QuickNote_temp_pick (ask_quick_temp uid).
Proof. apply set_then_ask. Qed.
Lemma reprompts_gear uid : reprompts uid QuickNote_gear_pick (ask_quick_gear uid).
Proof. apply set_then_ask. Qed.
Lemma reprompts_gear_custom uid :
  reprompts uid QuickNote_gear_custom (ask_quick_gear_custom uid).
Proof. apply set_then_ask. Qed.
Lemma reprompts_aroma uid : reprompts uid QuickNote_aroma (ask_quick_aroma uid).
Proof. apply set_then_ask. Qed.
Lemma reprompts_taste uid : reprompts uid QuickNote_taste (ask_quick_taste uid).
Proof. apply set_then_ask. Qed.
Lemma reprompts_effects uid : reprompts uid QuickNote_eff_pick (ask_quick_effects uid).
Proof.
  intros w. unfold ask_quick_effects. unfold bind at 1. unfold get_data, gets.
  cbv beta iota. apply set_then_ask.
Qed.
Lemma reprompts_effect_custom uid :
  reprompts uid QuickNote_eff_custom (ask_quick_effect_custom uid).
Proof. apply set_then_ask. Qed.
Lemma reprompts_rating uid : reprompts uid QuickNote_rating (ask_quick_rating uid).
Proof. apply set_then_ask. Qed.
Lemma reprompts_note uid : reprompts uid QuickNote_note (ask_quick_note uid).
Proof. apply set_then_ask. Qed.

End QuickFacts.

(** ** Callback dispatch, back and cancel *)

Section DispatchFacts.
Import Tastings Bot.

Variable PHOTO_LIMIT : option Z.
Variable fetch : string -> Fetched.
Variable save_photo_bytes : Value -> Z -> string -> string -> Result SaveResult.
Variable concurrent : nat -> Database -> Database.
Variable get_user_now_hm : Z -> string.

Local Abbreviation handlers :=
  (callback_handlers PHOTO_LIMIT fetch save_photo_bytes concurrent get_user_now_hm).
Local Abbreviation dispatch :=
  (callback_query PHOTO_LIMIT fetch save_photo_bytes concurrent get_user_now_hm).

(** The two filters of a handler in the other order. *)
Definition data_then_state (current : option string) (data : string)
    (h : option string * DataFilter * (Z -> string -> M unit)) : bool :=
  data_matches (snd (fst h)) data
  && match fst (fst h) with
     | None => true
     | Some s => state_is current s
     end.

Lemma handler_matches_comm (current : option string) (data : string)
    (h : option string * DataFilter * (Z -> string -> M unit)) :
  handler_matches current data h = data_then_state current data h.
Proof. apply andb_comm. Qed.

Lemma find_pointwise {A} (f g : A -> bool) (l : list A) :
  (forall a, f a = g a) -> find f l = find g l.
Proof.
  intros H. induction l as [|a l IH]; [reflexivity|]. cbn. rewrite H, IH. reflexivity.
Qed.

Lemma dispatch_find (uid : Z) (data : string) (w : World) :
  dispatch uid data w
  = match find (data_then_state (state_of w uid) data) handlers with
    | Some h => snd h uid data w
    | None => (Ok tt, w)
    end.
Proof.
  unfold callback_query, bind, get_state, gets. cbv beta iota.
  rewrite (find_pointwise _ _ handlers
             (handler_matches_comm (fsm_state (record_of w uid)) data)).
  unfold state_of. destruct (find _ _); reflexivity.
Qed.

Lemma dispatch_back (uid : Z) (w : World) :
  dispatch uid "q:back" w = quick_back uid w.
Proof. rewrite dispatch_find. reflexivity. Qed.

Lemma dispatch_cancel (uid : Z) (w : World) :
  dispatch uid "q:cancel" w = quick_cancel uid w.
Proof. rewrite dispatch_find. reflexivity. Qed.

Lemma dispatch_cancel_no (uid : Z) (w : World) :
  state_of w uid = Some QuickCancel_confirm ->
  dispatch uid "q:cancel:no" w = quick_cancel_no uid w.
Proof. intros H. rewrite dispatch_find, H. reflexivity. Qed.

(** The declined confirmation is only delivered in the confirmation
    state. *)
Lemma dispatch_cancel_no_elsewhere (uid : Z) (w : World) :
  state_of w uid <> Some QuickCancel_confirm ->
  dispatch uid "q:cancel:no" w = (Ok tt, w).
Proof.
  intros H. rewrite dispatch_find.
  assert (Hs : state_is (state_of w uid) QuickCancel_confirm = false).
  { unfold state_is. destruct (state_of w uid) as [c|]; [|reflexivity].
    apply String.eqb_neq. congruence. }
  cbn. rewrite Hs. reflexivity.
Qed.

(** *** Cancel, then decline *)

Lemma quick_cancel_spec (uid : Z) (K : string) (w : World) :
  state_of w uid = Some K -> K <> "" ->
  exists w',
    quick_cancel uid w = (Ok tt, w')
    /\ state_of w' uid = Some QuickCancel_confirm
    /\ data_of w' uid !! "cancel_return_state" = Some (VStr K)
    /\ (forall k, k <> "live_q_id" -> k <> "cancel_return_state" ->
                  data_of w' uid !! k = data_of w uid !! k).
Proof.
  intros Hst HK. unfold quick_cancel, bind at 1, get_state, gets. cbv beta iota.
  fold (state_of w uid). rewrite Hst.
  rewrite (proj2 (String.eqb_neq K "") HK).
  destruct (update_data_spec uid [("cancel_return_state", VStr K)] w)
    as (w1 & E1 & Hs1 & Hd1 & _).
  unfold bind at 1. rewrite E1.
  destruct (set_state_spec uid (Some QuickCancel_confirm) w1) as (w2 & E2 & Hs2 & Hd2 & _).
  unfold bind at 1. rewrite E2.
  destruct (ask_spec uid "Отменить все изменения и вернуться в меню?"
              q_cancel_confirm_kb w2) as (w3 & E3 & Hs3 & P3).
  unfold bind at 1. rewrite E3.
  destruct (quiet_call_answer uid "" false w3) as ([] & w4 & E4 & T4).
  rewrite E4. exists w4. split; [reflexivity|].
  destruct (telegram_only_data uid _ _ T4) as [Hd4 Hs4].
  cbn [fold_left fst snd] in Hd1.
  split; [congruence|]. split.
  - rewrite Hd4, (pr_data _ _ _ P3) by discriminate. rewrite Hd2, Hd1.
    apply lookup_insert_eq.
  - intros k Hk1 Hk2. rewrite Hd4, (pr_data _ _ _ P3) by assumption.
    rewrite Hd2, Hd1. apply lookup_insert_ne. congruence.
Qed.

(** The chain of comparisons of [quick_cancel_no] asks the question of the
    step it returns to, which is the step the state was just set to. *)
Lemma resume_spec (uid : Z) (K : string) (w : World) :
  state_of w uid = Some K ->
  exists w',
    (if String.eqb K QuickNote_name then ask_quick_name uid
     else if String.eqb K QuickNote_type_pick then ask_quick_type uid
     else if String.eqb K QuickNote_type_custom then ask_quick_type_custom uid
     else if String.eqb K QuickNote_grams then ask_quick_grams uid
     else if String.eqb K QuickNote_temp_pick then ask_quick_temp uid
     else if String.eqb K QuickNote_gear_pick then ask_quick_gear uid
     else if String.eqb K QuickNote_gear_custom then ask_quick_gear_custom uid
     else if String.eqb K QuickNote_aroma then ask_quick_aroma uid
     else if String.eqb K QuickNote_taste then ask_quick_taste uid
     else if String.eqb K QuickNote_eff_pick then ask_quick_effects uid
     else if String.eqb K QuickNote_eff_custom then ask_quick_effect_custom uid
     else if String.eqb K QuickNote_rating then ask_quick_rating uid
     else if String.eqb K QuickNote_note then ask_quick_note uid
     else ret tt) w = (Ok tt, w')
    /\ state_of w' uid = Some K /\ prompted uid w w'.
Proof.
  intros Hst.
  destruct (String.eqb_spec K QuickNote_name) as [E|_];
    [subst K; exact (reprompts_name uid w)|].
  destruct (String.eqb_spec K QuickNote_type_pick) as [E|_];
    [subst K; exact (reprompts_type uid w)|].
  destruct (String.eqb_spec K QuickNote_type_custom) as [E|_];
    [subst K; exact (reprompts_type_custom uid w)|].
  destruct (String.eqb_spec K QuickNote_grams) as [E|_];
    [subst K; exact (reprompts_grams uid w)|].
  destruct (String.eqb_spec K QuickNote_temp_pick) as [E|_];
    [subst K; exact (reprompts_temp uid w)|].
  destruct (String.eqb_spec K QuickNote_gear_pick) as [E|_];
    [subst K; exact (reprompts_gear uid w)|].
  destruct (String.eqb_spec K QuickNote_gear_custom) as [E|_];
    [subst K; exact (reprompts_gear_custom uid w)|].
  destruct (String.eqb_spec K QuickNote_aroma) as [E|_];
    [subst K; exact (reprompts_aroma uid w)|].
  destruct (String.eqb_spec K QuickNote_taste) as [E|_];
    [subst K; exact (reprompts_taste uid w)|].
  destruct (String.eqb_spec K QuickNote_eff_pick) as [E|_];
    [subst K; exact (reprompts_effects uid w)|].
  destruct (String.eqb_spec K QuickNote_eff_custom) as [E|_];
    [subst K; exact (reprompts_effect_custom uid w)|].
  destruct (String.eqb_spec K QuickNote_rating) as [E|_];
    [subst K; exact (reprompts_rating uid w)|].
  destruct (String.eqb_spec K QuickNote_note) as [E|_];
    [subst K; exact (reprompts_note uid w)|].
  exists w. split; [reflexivity|]. split; [exact Hst|apply prompted_refl].
Qed.

Lemma quick_cancel_no_spec (uid : Z) (K : string) (w : World) :
  data_of w uid !! "cancel_return_state" = Some (VStr K) -> K <> "" ->
  exists w',
    quick_cancel_no uid w = (Ok tt, w')
    /\ state_of w' uid = Some K
    /\ prompted uid w w'.
Proof.
  intros Hret HK. unfold quick_cancel_no, bind at 1, get_data, gets. cbv beta iota.
  fold (data_of w uid). unfold dget. rewrite Hret.
  cbn [default from_option Datatypes.id]. cbv beta iota.
  rewrite (proj2 (String.eqb_neq K "") HK).
  destruct (set_state_spec uid (Some K) w) as (w1 & E1 & Hs1 & Hd1 & P1).
  unfold bind at 1. rewrite E1.
  destruct (resume_spec uid K w1 Hs1) as (w2 & E2 & Hs2 & P2).
  unfold bind at 1. rewrite E2.
  destruct (quiet_call_answer uid "" false w2) as ([] & w3 & E3 & T3).
  rewrite E3. exists w3. split; [reflexivity|].
  destruct (telegram_only_data uid _ _ T3) as [Hd3 Hs3].
  split; [congruence|].
  eapply prompted_trans; [exact P1|]. eapply prompted_trans; [exact P2|].
  apply telegram_only_prompted. exact T3.
Qed.

(** C9. From any step K (any state the FSM is in), cancel puts the flow in
    the confirmation state, and declining there puts it back at step K;
    after the round trip every key of the draft holds the value it held
    before, apart from the two the round trip keeps its own books in (the
    id of the live prompt and the step to return to). *)
Theorem cancel_then_decline_restores (uid : Z) (K : string) (w : World) :
  state_of w uid = Some K -> K <> "" ->
  let asked := dispatch uid "q:cancel" w in
  let declined := dispatch uid "q:cancel:no" (snd asked) in
  fst asked = Ok tt
  /\ state_of (snd asked) uid = Some QuickCancel_confirm
  /\ fst declined = Ok tt
  /\ state_of (snd declined) uid = Some K
  /\ (forall k, k <> "live_q_id" -> k <> "cancel_return_state" ->
                data_of (snd declined) uid !! k = data_of w uid !! k)
  /\ ALBUM_BUFFER (snd declined) = ALBUM_BUFFER w
  /\ database (snd declined) = database w.
Proof.
  intros Hst HK. cbv zeta. rewrite dispatch_cancel.
  destruct (quick_cancel_spec uid K w Hst HK) as (w1 & E1 & Hs1 & Hr1 & Hd1).
  assert (Hframe1 : ALBUM_BUFFER w1 = ALBUM_BUFFER w /\ database w1 = database w).
  { unfold quick_cancel, bind at 1, get_state, gets in E1. cbv beta iota in E1.
    fold (state_of w uid) in E1. rewrite Hst in E1.
    rewrite (proj2 (String.eqb_neq K "") HK) in E1.
    destruct (update_data_spec uid [("cancel_return_state", VStr K)] w)
      as (wa & Ea & _ & _ & _ & Hba & _ & Hdba & _).
    unfold bind at 1 in E1. rewrite Ea in E1.
    destruct (set_state_spec uid (Some QuickCancel_confirm) wa) as (wb & Eb & _ & _ & Pb).
    unfold bind at 1 in E1. rewrite Eb in E1.
    destruct (ask_spec uid "Отменить все изменения и вернуться в меню?"
                q_cancel_confirm_kb wb) as (wc & Ec & _ & Pc).
    unfold bind at 1 in E1. rewrite Ec in E1.
    destruct (quiet_call_answer uid "" false wc) as ([] & wd & Ed & Td).
    rewrite Ed in E1. injection E1 as <-.
    destruct Td as (_ & Hbd & _ & Hdbd & _).
    rewrite Hbd, Hdbd, (pr_buffer _ _ _ Pc), (pr_db _ _ _ Pc),
      (pr_buffer _ _ _ Pb), (pr_db _ _ _ Pb). auto. }
  rewrite E1. cbn [fst snd]. rewrite (dispatch_cancel_no uid w1 Hs1).
  destruct (quick_cancel_no_spec uid K w1 Hr1 HK) as (w2 & E2 & Hs2 & P2).
  rewrite E2. cbn [fst snd].
  destruct Hframe1 as [Hb1 Hdb1].
  repeat split; auto.
  - intros k Hk1 Hk2. rewrite (pr_data _ _ _ P2) by assumption. apply Hd1; assumption.
  - rewrite (pr_buffer _ _ _ P2). exact Hb1.
  - rewrite (pr_db _ _ _ P2). exact Hdb1.
Qed.

(** *** Back *)

(** The branches of [quick_back]: the step it leaves, the step it asks
    again. The steps [QuickNote_name] and [QuickNote_type_pick], the photo
    step and the steps of the full flow have no branch. *)
Definition quick_previous : list (string * string) :=
  [ (QuickNote_grams, QuickNote_type_pick);
    (QuickNote_temp_pick, QuickNote_grams);
    (QuickNote_gear_pick, QuickNote_temp_pick);
    (QuickNote_type_custom, QuickNote_type_pick);
    (QuickNote_gear_custom, QuickNote_gear_pick);
    (QuickNote_aroma, QuickNote_gear_pick);
    (QuickNote_taste, QuickNote_aroma);
    (QuickNote_eff_pick, QuickNote_taste);
    (QuickNote_eff_custom, QuickNote_eff_pick);
    (QuickNote_rating, QuickNote_eff_pick);
    (QuickNote_note, QuickNote_rating) ].

Definition previous_step (current : option string) : option string :=
  match current with
  | Some K => option_map snd (find (fun p => String.eqb K (fst p)) quick_previous)
  | None => None
  end.

Lemma call_answer_spec (uid : Z) (text : string) (alert : bool) (w : World) :
  call_answer uid text alert w = (Ok tt, notified (CallbackAnswer uid text alert) w).
Proof. reflexivity. Qed.

Lemma quick_back_spec (uid : Z) (w : World) :
  exists w',
    quick_back uid w = (Ok tt, w')
    /\ match previous_step (state_of w uid) with
       | Some P => state_of w' uid = Some P /\ prompted uid w w'
       | None => w' = notified (CallbackAnswer uid "" false) w
       end.
Proof.
  unfold quick_back, bind at 1, get_state, gets. cbv beta iota.
  fold (state_of w uid).
  destruct (state_of w uid) as [K|]; [|eexists; split; reflexivity].
  cbn [state_is previous_step quick_previous find fst snd].
  assert (Hstep : forall X (m : M unit), reprompts uid X m ->
            exists w', (m >> call_answer uid "" false) w = (Ok tt, w')
                       /\ state_of w' uid = Some X /\ prompted uid w w').
  { intros X m Hm. destruct (Hm w) as (w1 & E1 & Hs1 & P1).
    unfold bind. rewrite E1. rewrite call_answer_spec. eexists. split; [reflexivity|].
    split; [exact Hs1|].
    eapply prompted_trans; [exact P1|]. apply telegram_only_prompted. repeat split. }
  destruct (String.eqb_spec K QuickNote_grams) as [E|_];
    [exact (Hstep _ _ (reprompts_type uid))|].
  destruct (String.eqb_spec K QuickNote_temp_pick) as [E|_];
    [exact (Hstep _ _ (reprompts_grams uid))|].
  destruct (String.eqb_spec K QuickNote_gear_pick) as [E|_];
    [exact (Hstep _ _ (reprompts_temp uid))|].
  destruct (String.eqb_spec K QuickNote_type_custom) as [E|_];
    [exact (Hstep _ _ (reprompts_type uid))|].
  destruct (String.eqb_spec K QuickNote_gear_custom) as [E|_];
    [exact (Hstep _ _ (reprompts_gear uid))|].
  destruct (String.eqb_spec K QuickNote_aroma) as [E|_];
    [exact (Hstep _ _ (reprompts_gear uid))|].
  destruct (String.eqb_spec K QuickNote_taste) as [E|_];
    [exact (Hstep _ _ (reprompts_aroma uid))|].
  destruct (String.eqb_spec K QuickNote_eff_pick) as [E|_];
    [exact (Hstep _ _ (reprompts_taste uid))|].
  destruct (String.eqb_spec K QuickNote_eff_custom) as [E|_];
    [exact (Hstep _ _ (reprompts_effects uid))|].
  destruct (String.eqb_spec K QuickNote_rating) as [E|_];
    [exact (Hstep _ _ (reprompts_effects uid))|].
  destruct (String.eqb_spec K QuickNote_note) as [E|_];
    [exact (Hstep _ _ (reprompts_rating uid))|].
  eexists. split; reflexivity.
Qed.

(** C8, as the code has it. The back signal is answered at the eleven
    steps of the quick flow listed in [quick_previous]: there the flow
    returns to the step listed for it, and every value entered so far is
    kept (only the id of the live prompt changes); nothing else in the
    world changes but the chat. At any other step, among them the second
    step of the quick flow and every step of the full flow, the signal is
    acknowledged and changes nothing. *)
Theorem quick_back_returns (uid : Z) (w : World) :
  let out := dispatch uid "q:back" w in
  fst out = Ok tt
  /\ match previous_step (state_of w uid) with
     | Some P =>
         state_of (snd out) uid = Some P
         /\ (forall k, k <> "live_q_id" ->
                       data_of (snd out) uid !! k = data_of w uid !! k)
         /\ (forall v, v <> uid -> record_of (snd out) v = record_of w v)
         /\ ALBUM_BUFFER (snd out) = ALBUM_BUFFER w
         /\ database (snd out) = database w
     | None => snd out = notified (CallbackAnswer uid "" false) w
     end.
Proof.
  cbv zeta. rewrite dispatch_back.
  destruct (quick_back_spec uid w) as (w' & E & H). rewrite E. cbn [fst snd].
  split; [reflexivity|].
  destruct (previous_step (state_of w uid)) as [P|]; [|exact H].
  destruct H as [Hs Hp]. split; [exact Hs|].
  split; [exact (pr_data _ _ _ Hp)|]. split; [exact (pr_others _ _ _ Hp)|].
  split; [exact (pr_buffer _ _ _ Hp) | exact (pr_db _ _ _ Hp)].
Qed.

(** *** Skips of the full flow *)

(** The skip callbacks registered behind a [StateFilter], with the state
    they are accepted in. *)
Definition guarded_skips : list (string * string) :=
  [ (NewTasting_year, "skip:year"); (NewTasting_grams, "skip:grams");
    (NewTasting_temp_c, "skip:temp"); (InfusionState_seconds, "skip:infsec") ].

(** A guarded skip delivered in another state is dropped. *)
Lemma guarded_skip_elsewhere (uid : Z) (K data : string) (w : World) :
  In (K, data) guarded_skips ->
  state_of w uid <> Some K ->
  dispatch uid data w = (Ok tt, w).
Proof.
  intros Hin Hst. rewrite dispatch_find.
  assert (Hs : state_is (state_of w uid) K = false).
  { unfold state_is. destruct (state_of w uid) as [c|]; [|reflexivity].
    apply String.eqb_neq. congruence. }
  cbn in Hin.
  destruct Hin as [E|[E|[E|[E|[]]]]]; injection E as <- <-; cbn; rewrite Hs; reflexivity.
Qed.

Lemma dispatch_gear_skip (uid : Z) (w : World) :
  dispatch uid "skip:gear" w = gear_skip uid w.
Proof. rewrite dispatch_find. reflexivity. Qed.

Lemma dispatch_region_skip (uid : Z) (w : World) :
  dispatch uid "skip:region" w = region_skip uid w.
Proof. rewrite dispatch_find. reflexivity. Qed.

Lemma quiet_then {B} (uid : Z) (m : M unit) (k : M B) (w : World) :
  quiet m ->
  exists w1, (m >> k) w = k w1
             /\ data_of w1 uid = data_of w uid /\ state_of w1 uid = state_of w uid.
Proof.
  intros Hm. destruct (Hm w) as ([] & w1 & E & T). exists w1.
  unfold bind. rewrite E. split; [reflexivity|]. exact (telegram_only_data uid _ _ T).
Qed.

Lemma gear_skip_spec (uid : Z) (w : World) :
  exists w',
    gear_skip uid w = (Ok tt, w')
    /\ state_of w' uid = Some NewTasting_aroma_dry
    /\ data_of w' uid !! "gear" = Some VNone
    /\ data_of w' uid !! "aroma_dry_sel" = Some (VStrs []).
Proof.
  unfold gear_skip.
  destruct (update_data_spec uid [("gear", VNone)] w) as (w1 & E1 & _ & Hd1 & _).
  unfold bind at 1. rewrite E1.
  destruct (quiet_then uid (close_inline uid "Посуда: пропущено")
              (ask_aroma_dry_call uid >> call_answer uid "" false) w1
              (quiet_close_inline uid _)) as (w2 & -> & Hd2 & _).
  unfold ask_aroma_dry_call.
  destruct (update_data_spec uid [("aroma_dry_sel", VStrs [])] w2)
    as (w3 & E3 & _ & Hd3 & _).
  unfold bind at 1. unfold bind at 1. rewrite E3.
  match goal with
  | |- context [ask_ uid ?text ?kb] =>
      destruct (ask_spec uid text kb w3) as (w4 & E4 & _ & P4)
  end.
  unfold bind at 1. rewrite E4.
  destruct (set_state_spec uid (Some NewTasting_aroma_dry) w4) as (w5 & E5 & Hs5 & Hd5 & _).
  rewrite E5, call_answer_spec. eexists. split; [reflexivity|].
  cbn [fold_left fst snd] in Hd1, Hd3.
  change (state_of (notified ?o ?x) uid) with (state_of x uid).
  change (data_of (notified ?o ?x) uid) with (data_of x uid).
  split; [exact Hs5|]. rewrite Hd5, !(pr_data _ _ _ P4), Hd3, Hd2, Hd1 by discriminate.
  split.
  - rewrite lookup_insert_ne by discriminate. apply lookup_insert_eq.
  - apply lookup_insert_eq.
Qed.

Lemma region_skip_spec (uid : Z) (w : World) :
  exists w',
    region_skip uid w = (Ok tt, w')
    /\ state_of w' uid = Some NewTasting_category
    /\ data_of w' uid !! "region" = Some VNone.
Proof.
  unfold region_skip.
  destruct (update_data_spec uid [("region", VNone)] w) as (w1 & E1 & _ & Hd1 & _).
  unfold bind at 1. rewrite E1.
  match goal with
  | |- context [ask_ uid ?text ?kb >> ?k] =>
      destruct (quiet_then uid (close_inline uid "Регион: пропущено")
                  (ask_ uid text kb >> k) w1 (quiet_close_inline uid _))
        as (w2 & -> & Hd2 & _);
      destruct (ask_spec uid text kb w2) as (w3 & E3 & _ & P3)
  end.
  unfold bind at 1. rewrite E3.
  destruct (set_state_spec uid (Some NewTasting_category) w3) as (w4 & E4 & Hs4 & Hd4 & _).
  unfold bind at 1. rewrite E4, call_answer_spec. eexists. split; [reflexivity|].
  cbn [fold_left fst snd] in Hd1.
  change (state_of (notified ?o ?x) uid) with (state_of x uid).
  change (data_of (notified ?o ?x) uid) with (data_of x uid).
  split; [exact Hs4|]. rewrite Hd4, (pr_data _ _ _ P3), Hd2, Hd1 by discriminate.
  apply lookup_insert_eq.
Qed.

(** C5, the code against the claim. The callbacks "skip:gear" and
    "skip:region" are registered without a state filter, so a replayed
    delivery runs the handler again whatever the current step is: the
    flow is put (back) at the step that follows the skipped one, the field
    is written again, and for "skip:gear" the descriptors chosen for the
    dry leaf are reset to the empty list. The skips registered behind a
    state filter are dropped when replayed in another state. *)
Theorem replayed_skip_runs_again (uid : Z) (w : World) :
  let gear := dispatch uid "skip:gear" w in
  let region := dispatch uid "skip:region" w in
  (fst gear = Ok tt
   /\ state_of (snd gear) uid = Some NewTasting_aroma_dry
   /\ data_of (snd gear) uid !! "gear" = Some VNone
   /\ data_of (snd gear) uid !! "aroma_dry_sel" = Some (VStrs []))
  /\ (fst region = Ok tt
      /\ state_of (snd region) uid = Some NewTasting_category
      /\ data_of (snd region) uid !! "region" = Some VNone)
  /\ (forall K data, In (K, data) guarded_skips -> state_of w uid <> Some K ->
                     dispatch uid data w = (Ok tt, w)).
Proof.
  cbv zeta. rewrite dispatch_gear_skip, dispatch_region_skip.
  destruct (gear_skip_spec uid w) as (wg & -> & Hg).
  destruct (region_skip_spec uid w) as (wr & -> & Hr).
  cbn [fst snd]. split; [split; [reflexivity|exact Hg]|].
  split; [split; [reflexivity|exact Hr]|].
  intros K data. apply guarded_skip_elsewhere.
Qed.

End DispatchFacts.

(** ** The album debouncer *)

Section AlbumFacts.
Import Tastings Bot.
Local Open Scope list_scope.

Variable PHOTO_LIMIT : option Z.
Variable fetch : string -> Fetched.

(** The world when the clock shows [t]. *)
Definition at_time (t : Z) (w : World) : World :=
  {| now := t; storage := storage w; ALBUM_BUFFER := ALBUM_BUFFER w;
     tasks := tasks w; database := database w; outbox := outbox w;
     next_message_id := next_message_id w; gateway_calls := gateway_calls w |}.

(** The timer task created for [key] at time [t]. *)
Definition timer (key : Z * string) (st : TaskStatus) (t : Z) : Task :=
  {| task_key := key; deadline := t + ALBUM_TIMEOUT; status := st |}.

(** [photo.file_id, photo.file_unique_id] of a photo message. *)
Definition album_file (m : PhotoMessage) : AlbumFile :=
  {| file_id := photo_file_id m; file_unique_id := photo_file_unique_id m |}.

(** [(uid, mgid)] as [photo_add] computes it for a message of [u]. *)
Definition album_key (data : gmap string Value) (u : Z) (g : string) : Z * string :=
  (match py_or (dget data "user_id") (VInt u) with
   | VInt o => o
   | _ => u
   end, g).

(** The world [w] with the album [key] open: the files [fs] are buffered,
    the tasks [closed] are over, and the timer started at [t] is pending. *)
Definition open_world (w : World) (key : Z * string) (u : Z) (closed : list Task)
    (t : Z) (fs : list AlbumFile) : World :=
  {| now := t; storage := storage w;
     ALBUM_BUFFER :=
       (ALBUM_BUFFER w ++
        [(key, {| files := fs; message := Some u; state := Some u;
                  task := Some (List.length closed) |})])%list;
     tasks := (closed ++ [timer key Pending t])%list;
     database := database w; outbox := outbox w;
     next_message_id := next_message_id w; gateway_calls := gateway_calls w |}.

(** Each photo comes less than [ALBUM_TIMEOUT] after the one before. *)
Fixpoint within_window (t : Z) (evs : list (Z * PhotoMessage)) : Prop :=
  match evs with
  | [] => True
  | ev :: rest => t <= fst ev < t + ALBUM_TIMEOUT /\ within_window (fst ev) rest
  end.

Definition same_album (u : Z) (g : string) (evs : list (Z * PhotoMessage)) : Prop :=
  Forall (fun ev => from_user (snd ev) = u /\ media_group_id (snd ev) = Some g) evs.

Definition idle (ts : list Task) : Prop := Forall (fun tk => status tk <> Pending) ts.

(** *** The buffer *)

Lemma buffer_set_fresh (key : Z * string) (e : AlbumEntry)
    (buf : list ((Z * string) * AlbumEntry)) :
  buffer_get key buf = None -> buffer_set key e buf = (buf ++ [(key, e)])%list.
Proof.
  induction buf as [|[k e'] buf IH]; [reflexivity|]. cbn.
  destruct (key_eqb key k); [discriminate|]. intros H. rewrite IH by exact H. reflexivity.
Qed.

Lemma buffer_get_last (key : Z * string) (e : AlbumEntry)
    (buf : list ((Z * string) * AlbumEntry)) :
  buffer_get key buf = None -> buffer_get key (buf ++ [(key, e)]) = Some e.
Proof.
  induction buf as [|[k e'] buf IH]; cbn.
  - rewrite key_eqb_refl. reflexivity.
  - destruct (key_eqb key k); [discriminate|]. exact IH.
Qed.

Lemma buffer_set_last (key : Z * string) (e e' : AlbumEntry)
    (buf : list ((Z * string) * AlbumEntry)) :
  buffer_get key buf = None ->
  buffer_set key e' (buf ++ [(key, e)]) = (buf ++ [(key, e')])%list.
Proof.
  induction buf as [|[k e0] buf IH]; cbn.
  - rewrite key_eqb_refl. reflexivity.
  - destruct (key_eqb key k); [discriminate|]. intros H. rewrite IH by exact H. reflexivity.
Qed.

Lemma buffer_remove_last (key : Z * string) (e : AlbumEntry)
    (buf : list ((Z * string) * AlbumEntry)) :
  buffer_get key buf = None -> buffer_remove key (buf ++ [(key, e)]) = buf.
Proof.
  induction buf as [|[k e0] buf IH]; cbn.
  - rewrite key_eqb_refl. reflexivity.
  - destruct (key_eqb key k); [discriminate|]. intros H. rewrite IH by exact H. reflexivity.
Qed.

(** *** The timers *)

Lemma lookup_end {A} (l : list A) (x : A) : (l ++ [x]) !! List.length l = Some x.
Proof. induction l as [|a l IH]; [reflexivity|exact IH]. Qed.

Lemma insert_end {A} (l : list A) (x y : A) : <[List.length l := y]> (l ++ [x]) = (l ++ [y])%list.
Proof. induction l as [|a l IH]; [reflexivity|]. cbn. f_equal. exact IH. Qed.

Lemma lookup_closed {A} (l : list A) (x a : A) (i : nat) :
  (i < List.length l)%nat -> (l ++ [x]) !! i = Some a -> In a l.
Proof.
  revert i. induction l as [|b l IH]; intros i Hi; [cbn in Hi; lia|].
  destruct i as [|i]; cbn.
  - intros [= ->]. left. reflexivity.
  - intros H. right. apply (IH i); [cbn in Hi; lia|exact H].
Qed.

Lemma idle_snoc (ts : list Task) (tk : Task) :
  idle ts -> status tk <> Pending -> idle (ts ++ [tk]).
Proof.
  intros H Htk. apply Forall_app. split; [exact H|]. constructor; [exact Htk|constructor].
Qed.

(** A task that is over, or whose sleep is not, does nothing. *)
Lemma wake_idle (i : nat) (x : World) :
  (forall tk, tasks x !! i = Some tk -> status tk = Pending -> now x < deadline tk) ->
  wake PHOTO_LIMIT fetch i x = x.
Proof.
  intros H. unfold wake. destruct (tasks x !! i) as [tk|]; [|reflexivity].
  specialize (H tk eq_refl). destruct (status tk); try reflexivity.
  specialize (H eq_refl). destruct (Z.leb_spec (deadline tk) (now x)); [lia|reflexivity].
Qed.

Lemma fold_wake_idle (l : list nat) (x : World) :
  (forall i tk, In i l -> tasks x !! i = Some tk -> status tk = Pending ->
                now x < deadline tk) ->
  fold_left (fun w i => wake PHOTO_LIMIT fetch i w) l x = x.
Proof.
  induction l as [|i l IH]; intros H; [reflexivity|]. cbn [fold_left].
  rewrite wake_idle by (intros tk; apply H; left; reflexivity).
  apply IH. intros j tk Hj. apply H. right. exact Hj.
Qed.

(** Time passes and no timer is due. *)
Lemma advance_idle (t : Z) (x : World) :
  now x <= t ->
  (forall tk, In tk (tasks x) -> status tk = Pending -> t < deadline tk) ->
  advance PHOTO_LIMIT fetch t x = at_time t x.
Proof.
  intros Hnow H. unfold advance. rewrite Z.max_r by exact Hnow.
  apply fold_wake_idle. cbn [tasks now]. intros i tk _ Hi. apply H.
  apply list_elem_of_In. eapply list_elem_of_lookup_2. exact Hi.
Qed.

(** The first photo of an album opens the buffer and starts a timer. *)
Lemma photo_add_opens (u limit : Z) (g : string) (x : World) (m : PhotoMessage) :
  g <> "" ->
  data_of x u !! "photo_limit" = Some (VInt limit) ->
  zlen (photos_of (data_of x u)) < limit ->
  buffer_get (album_key (data_of x u) u g) (ALBUM_BUFFER x) = None ->
  from_user m = u -> media_group_id m = Some g ->
  photo_add fetch m x
  = (Ok tt, open_world x (album_key (data_of x u) u g) u (tasks x) (now x)
              [album_file m]).
Proof.
  intros album limit_kept room closed_album Hu Hg. unfold photo_add. rewrite Hu, Hg.
  unfold bind at 1, get_data, gets. cbv beta iota zeta.
  fold (data_of x u). unfold dget at 1. rewrite limit_kept.
  cbn [default from_option Datatypes.id]. cbv beta iota.
  destruct (Z.leb_spec limit (zlen (photos_of (data_of x u)))) as [Hfull|_]; [lia|].
  rewrite (proj2 (String.eqb_neq g "") album).
  unfold bind at 1. cbv beta iota.
  fold (album_key (data_of x u) u g). rewrite closed_album.
  cbn [task cancel_task]. unfold bind at 1, ret at 1. cbv beta iota.
  unfold bind at 1, create_task. cbv beta iota. unfold modify.
  cbn [ALBUM_BUFFER tasks set_album files app now].
  rewrite (buffer_set_fresh _ _ (ALBUM_BUFFER x) closed_album).
  reflexivity.
Qed.

Lemma album_key_same (d d' : gmap string Value) (u : Z) (g : string) :
  d' !! "user_id" = d !! "user_id" -> album_key d' u g = album_key d u g.
Proof. intros H. unfold album_key, dget. rewrite H. reflexivity. Qed.

Lemma last_cons {A} (a d : A) (l : list A) : List.last (a :: l) d = List.last l a.
Proof.
  revert a d. induction l as [|b l IH]; intros a d; [reflexivity|].
  change (List.last (a :: b :: l) d) with (List.last (b :: l) d).
  rewrite (IH b d), (IH b a). reflexivity.
Qed.

(** *** One photo of an album *)

Section Album.

Variables (u limit : Z) (g : string) (w : World).

Hypothesis album : g <> "".
Hypothesis limit_kept : data_of w u !! "photo_limit" = Some (VInt limit).
Hypothesis room : zlen (photos_of (data_of w u)) < limit.

Let key := album_key (data_of w u) u g.

Hypothesis closed_album : buffer_get key (ALBUM_BUFFER w) = None.

(** A further photo, before the timer is due, cancels the timer, starts a
    new one and joins the buffered files. *)
Lemma photo_add_joins (m : PhotoMessage) (closed : list Task) (t t' : Z)
    (fs : list AlbumFile) :
  from_user m = u -> media_group_id m = Some g ->
  photo_add fetch m (at_time t' (open_world w key u closed t fs))
  = (Ok tt, open_world w key u (closed ++ [timer key Cancelled t]) t'
              (fs ++ [album_file m])).
Proof.
  intros Hu Hg. unfold photo_add. rewrite Hu, Hg.
  unfold bind at 1, get_data, gets. cbv beta iota zeta.
  change (fsm_data (record_of (at_time t' (open_world w key u closed t fs)) u))
    with (data_of w u).
  unfold dget at 1. rewrite limit_kept.
  cbn [default from_option Datatypes.id]. cbv beta iota.
  destruct (Z.leb_spec limit (zlen (photos_of (data_of w u)))) as [Hfull|_]; [lia|].
  rewrite (proj2 (String.eqb_neq g "") album).
  unfold bind at 1. cbv beta iota.
  fold (album_key (data_of w u) u g). fold key.
  cbn [ALBUM_BUFFER at_time open_world].
  rewrite (buffer_get_last key _ (ALBUM_BUFFER w) closed_album).
  cbn [task files]. unfold bind at 1. rewrite cancel_task_spec.
  cbn [tasks at_time open_world ALBUM_BUFFER set_album].
  unfold cancel_one. rewrite lookup_end. cbn [status timer].
  rewrite insert_end.
  unfold bind at 1, create_task. cbv beta iota. unfold modify.
  cbn [ALBUM_BUFFER tasks set_album now at_time open_world task_key deadline].
  rewrite (buffer_set_last key _ _ (ALBUM_BUFFER w) closed_album).
  unfold open_world, timer. rewrite !length_app. cbn [List.length].
  rewrite Nat.add_1_r. reflexivity.
Qed.

(** Delivery of the first photo. *)
Lemma deliver_opens (t : Z) (m : PhotoMessage) :
  idle (tasks w) -> now w <= t ->
  from_user m = u -> media_group_id m = Some g ->
  deliver_photo PHOTO_LIMIT fetch w (t, m) = open_world w key u (tasks w) t [album_file m].
Proof.
  intros Hidle Hnow Hu Hg. unfold deliver_photo. cbn [fst snd].
  rewrite advance_idle; [|exact Hnow|].
  - rewrite (photo_add_opens u limit g (at_time t w) m album limit_kept room
               closed_album Hu Hg).
    reflexivity.
  - intros tk Hin Hp. exfalso. unfold idle in Hidle.
    rewrite List.Forall_forall in Hidle. exact (Hidle tk Hin Hp).
Qed.

(** Delivery of a further photo inside the window. *)
Lemma deliver_joins (m : PhotoMessage) (closed : list Task) (t t' : Z)
    (fs : list AlbumFile) :
  idle closed -> t <= t' < t + ALBUM_TIMEOUT ->
  from_user m = u -> media_group_id m = Some g ->
  deliver_photo PHOTO_LIMIT fetch (open_world w key u closed t fs) (t', m)
  = open_world w key u (closed ++ [timer key Cancelled t]) t' (fs ++ [album_file m]).
Proof.
  intros Hidle Ht Hu Hg. unfold deliver_photo. cbn [fst snd].
  rewrite advance_idle.
  - rewrite (photo_add_joins m closed t t' fs Hu Hg). reflexivity.
  - cbn [now open_world]. lia.
  - cbn [tasks open_world]. intros tk Hin Hp.
    apply in_app_or in Hin as [Hin|[<-|[]]].
    + exfalso. unfold idle in Hidle. rewrite List.Forall_forall in Hidle.
      exact (Hidle tk Hin Hp).
    + cbn [deadline timer]. lia.
Qed.

(** The photos of a burst, after the first one. *)
Lemma burst_open (evs : list (Z * PhotoMessage)) :
  forall (closed : list Task) (t : Z) (fs : list AlbumFile),
  idle closed -> within_window t evs -> same_album u g evs ->
  fold_left (deliver_photo PHOTO_LIMIT fetch) evs (open_world w key u closed t fs)
  = open_world w key u
      (closed ++ map (timer key Cancelled) (List.removelast (t :: map fst evs)))
      (List.last (map fst evs) t)
      (fs ++ map (fun ev => album_file (snd ev)) evs).
Proof.
  induction evs as [|[t' m] rest IH]; intros closed t fs Hidle Hwin Hsame.
  - cbn. rewrite !app_nil_r. reflexivity.
  - cbn [fold_left]. destruct Hwin as [Ht Hwin]. cbn [fst] in Ht, Hwin.
    apply List.Forall_cons_iff in Hsame as [[Hu Hg] Hrest]. cbn [snd] in Hu, Hg.
    rewrite (deliver_joins m closed t t' fs Hidle Ht Hu Hg).
    rewrite IH; [| apply idle_snoc; [exact Hidle|discriminate] | exact Hwin | exact Hrest].
    cbn [map fst snd]. rewrite (last_cons t' t).
    change (List.removelast (t :: t' :: map fst rest))
      with (t :: List.removelast (t' :: map fst rest)).
    cbn [map]. rewrite <- !app_assoc. reflexivity.
Qed.

(** The pending timer is due: the album is flushed into the draft. *)
Lemma timer_fires (closed : list Task) (t h : Z) (fs : list AlbumFile) :
  idle closed -> fs <> [] -> t + ALBUM_TIMEOUT <= h ->
  exists y,
    advance PHOTO_LIMIT fetch h (open_world w key u closed t fs) = y
    /\ tasks y = closed ++ [timer key Done t]
    /\ ALBUM_BUFFER y = ALBUM_BUFFER w
    /\ now y = h
    /\ photos_of (data_of y u)
       = photos_of (data_of w u)
         ++ downloads fetch (take (Z.to_nat (limit - zlen (photos_of (data_of w u)))) fs)
    /\ data_of y u !! "photo_limit" = Some (VInt limit)
    /\ frame u w y.
Proof.
  intros Hidle Hfs Hdue.
  assert (Hth : t <= h) by (unfold ALBUM_TIMEOUT in Hdue; lia).
  unfold advance. cbv zeta. cbn [now tasks open_world ALBUM_BUFFER storage database
                                 outbox next_message_id gateway_calls].
  rewrite Z.max_r by exact Hth.
  rewrite length_app. cbn [List.length]. rewrite Nat.add_1_r, seq_S, fold_left_app.
  rewrite (fold_wake_idle (seq 0 (List.length closed))).
  2:{ cbn [tasks now]. intros i tk Hi Hlook Hp. exfalso.
      apply in_seq in Hi. unfold idle in Hidle. rewrite List.Forall_forall in Hidle.
      apply (Hidle tk); [|exact Hp].
      apply (lookup_closed closed (timer key Pending t) tk i); [lia|exact Hlook]. }
  cbn [fold_left Nat.add]. unfold wake. cbn [tasks now]. rewrite lookup_end.
  cbn [status timer deadline task_key].
  destruct (Z.leb_spec (t + ALBUM_TIMEOUT) h) as [_|Hlate]; [|lia].
  rewrite insert_end.
  unfold _album_timeout_handler, bind at 1, buffer_pop.
  cbn [ALBUM_BUFFER tasks set_album].
  rewrite (buffer_get_last key _ (ALBUM_BUFFER w) closed_album).
  rewrite (buffer_remove_last key _ (ALBUM_BUFFER w) closed_album).
  match goal with
  | |- context [_process_album_entry PHOTO_LIMIT fetch ?e ?z] =>
      set (z' := z); set (entry := e)
  end.
  destruct (process_entry_spec PHOTO_LIMIT fetch u entry limit z' eq_refl
              (limit_of_set PHOTO_LIMIT _ _ limit_kept)) as (y & E & F & P & _).
  pose proof (process_entry_limit_key PHOTO_LIMIT fetch u entry limit z' eq_refl limit_kept)
    as L.
  rewrite E in L |- *. cbn [snd] in L |- *.
  exists y. split; [reflexivity|].
  split; [rewrite (af_tasks _ _ _ F); reflexivity|].
  split; [rewrite (af_buffer _ _ _ F); reflexivity|].
  split; [rewrite (af_now _ _ _ F); reflexivity|].
  split.
  { rewrite P. unfold processed. cbn [message files entry].
    destruct fs as [|f fs']; [congruence|].
    change (photos_of (data_of z' u)) with (photos_of (data_of w u)).
    destruct (Z.leb_spec (limit - zlen (photos_of (data_of w u))) 0); [lia|reflexivity]. }
  split; [exact L|].
  destruct (af_frame _ _ _ F) as [D O B C]. constructor; assumption.
Qed.

(** A burst of photos, then quiet: one flush. *)
Lemma burst_flushed (t : Z) (m : PhotoMessage) (rest : list (Z * PhotoMessage)) (h : Z) :
  idle (tasks w) -> now w <= t ->
  within_window t rest -> same_album u g ((t, m) :: rest) ->
  List.last (map fst rest) t + ALBUM_TIMEOUT <= h ->
  let w' := run_photos PHOTO_LIMIT fetch ((t, m) :: rest) h w in
  let sent := map (fun ev => album_file (snd ev)) ((t, m) :: rest) in
  tasks w'
  = tasks w ++ map (timer key Cancelled) (List.removelast (t :: map fst rest))
    ++ [timer key Done (List.last (map fst rest) t)]
  /\ ALBUM_BUFFER w' = ALBUM_BUFFER w
  /\ photos_of (data_of w' u)
     = photos_of (data_of w u)
       ++ downloads fetch (take (Z.to_nat (limit - zlen (photos_of (data_of w u)))) sent)
  /\ state_of w' u = state_of w u.
Proof.
  intros Hidle Hnow Hwin Hsame Hh. cbv zeta. unfold run_photos. cbn [fold_left].
  apply List.Forall_cons_iff in Hsame as [[Hu Hg] Hrest]. cbn [snd] in Hu, Hg.
  rewrite (deliver_opens t m Hidle Hnow Hu Hg).
  rewrite (burst_open rest (tasks w) t [album_file m] Hidle Hwin Hrest).
  destruct (timer_fires
              (tasks w ++ map (timer key Cancelled) (List.removelast (t :: map fst rest)))
              (List.last (map fst rest) t) h
              ([album_file m] ++ map (fun ev => album_file (snd ev)) rest))
    as (y & -> & Ht & Hb & _ & Hp & _ & Hf).
  - apply Forall_app. split; [exact Hidle|].
    apply List.Forall_forall. intros tk Hin. apply in_map_iff in Hin as (c & <- & _).
    discriminate.
  - discriminate.
  - exact Hh.
  - split; [rewrite Ht, <- app_assoc; reflexivity|]. split; [exact Hb|].
    split; [exact Hp|]. destruct (fr_draft _ _ _ Hf) as (Hs & _). exact Hs.
Qed.

End Album.

(** Two photos of an album, the second after the timer of the first: two
    flushes, if the draft has room left after the first. *)
Lemma separated_flushed (u limit : Z) (g : string) (w : World)
    (t1 t2 h : Z) (m1 m2 : PhotoMessage) :
  g <> "" ->
  data_of w u !! "photo_limit" = Some (VInt limit) ->
  zlen (photos_of (data_of w u)) < limit ->
  buffer_get (album_key (data_of w u) u g) (ALBUM_BUFFER w) = None ->
  idle (tasks w) -> now w <= t1 ->
  t1 + ALBUM_TIMEOUT < t2 -> t2 + ALBUM_TIMEOUT <= h ->
  same_album u g [(t1, m1); (t2, m2)] ->
  zlen (photos_of (data_of w u) ++ downloads fetch [album_file m1]) < limit ->
  let key := album_key (data_of w u) u g in
  let w' := run_photos PHOTO_LIMIT fetch [(t1, m1); (t2, m2)] h w in
  tasks w' = tasks w ++ [timer key Done t1; timer key Done t2]
  /\ ALBUM_BUFFER w' = ALBUM_BUFFER w
  /\ photos_of (data_of w' u)
     = photos_of (data_of w u)
       ++ downloads fetch [album_file m1] ++ downloads fetch [album_file m2]
  /\ state_of w' u = state_of w u.
Proof.
  intros Hg Hlim Hroom Hclosed Hidle Hnow Hsep Hh Hsame Hroom'. cbv zeta.
  apply List.Forall_cons_iff in Hsame as [[Hu1 Hg1] Hsame].
  apply List.Forall_cons_iff in Hsame as [[Hu2 Hg2] _]. cbn [snd] in Hu1, Hg1, Hu2, Hg2.
  unfold run_photos. cbn [fold_left].
  rewrite (deliver_opens u limit g w Hg Hlim Hroom Hclosed t1 m1 Hidle Hnow Hu1 Hg1).
  unfold deliver_photo. cbn [fst snd].
  assert (Hcap : 0 < limit - zlen (photos_of (data_of w u))) by lia.
  destruct (timer_fires u limit g w Hlim Hroom Hclosed (tasks w) t1 t2 [album_file m1])
    as (y & -> & Ht & Hb & Hn & Hp & Hl & Hf);
    [exact Hidle | discriminate | lia |].
  assert (Htake : take (Z.to_nat (limit - zlen (photos_of (data_of w u)))) [album_file m1]
                  = [album_file m1]).
  { apply take_ge. cbn [List.length]. lia. }
  rewrite Htake in Hp.
  assert (Hkey : album_key (data_of y u) u g = album_key (data_of w u) u g).
  { apply album_key_same. destruct (fr_draft _ _ _ Hf) as (_ & Hd & _).
    apply Hd. reflexivity. }
  assert (Hroom1 : zlen (photos_of (data_of y u)) < limit) by (rewrite Hp; exact Hroom').
  assert (Hclosed1 : buffer_get (album_key (data_of y u) u g) (ALBUM_BUFFER y) = None)
    by (rewrite Hkey, Hb; exact Hclosed).
  assert (Hidle1 : idle (tasks y)).
  { rewrite Ht. apply idle_snoc; [exact Hidle|discriminate]. }
  rewrite (photo_add_opens u limit g y m2 Hg Hl Hroom1 Hclosed1 Hu2 Hg2). cbn [snd].
  destruct (timer_fires u limit g y Hl Hroom1 Hclosed1 (tasks y) (now y) h [album_file m2])
    as (y2 & -> & Ht2 & Hb2 & _ & Hp2 & _ & Hf2);
    [exact Hidle1 | discriminate | lia |].
  assert (Htake2 : take (Z.to_nat (limit - zlen (photos_of (data_of y u)))) [album_file m2]
                   = [album_file m2]).
  { apply take_ge. cbn [List.length]. lia. }
  rewrite Htake2 in Hp2.
  split; [rewrite Ht2, Ht, Hkey, Hn, <- app_assoc; reflexivity|].
  split; [rewrite Hb2, Hb; reflexivity|].
  split; [rewrite Hp2, Hp, <- app_assoc; reflexivity|].
  destruct (fr_draft _ _ _ Hf) as (Hs & _). destruct (fr_draft _ _ _ Hf2) as (Hs2 & _).
  unfold state_of. congruence.
Qed.


End AlbumFacts.

(** ** The two flows on concrete drafts *)

Section FlowExamples.
Import Tastings Bot.

Definition example_clock (uid : Z) : string := "12:00".

(** User 7 in the quick flow, name and type entered. *)
Definition quick_draft : gmap string Value :=
  list_to_map
    [("user_id", VInt 7); ("name", VStr "Da Hong Pao"); ("category", VStr "Улун");
     ("live_q_id", VInt 40)].

Definition quick_world (K : string) : World :=
  {| now := 1000;
     storage := {[ 7 := {| fsm_state := Some K; fsm_data := quick_draft |} ]};
     ALBUM_BUFFER := []; tasks := []; database := example_db; outbox := [];
     next_message_id := 42; gateway_calls := [] |}.

(** User 7 in the full flow; the gear step was skipped and a descriptor
    of the dry leaf is chosen. *)
Definition full_draft : gmap string Value :=
  list_to_map
    [("user_id", VInt 7); ("name", VStr "Da Hong Pao"); ("year", VInt 2019);
     ("region", VNone); ("category", VStr "Улун"); ("grams", VNone);
     ("temp_c", VInt 95); ("tasted_at", VStr "12:00"); ("gear", VNone);
     ("aroma_dry_sel", VStrs ["мёд"]); ("live_q_id", VInt 40)].

Definition full_world (K : string) : World :=
  {| now := 1000;
     storage := {[ 7 := {| fsm_state := Some K; fsm_data := full_draft |} ]};
     ALBUM_BUFFER := []; tasks := []; database := example_db; outbox := [];
     next_message_id := 42; gateway_calls := [] |}.

Definition example_dispatch : Z -> string -> M unit :=
  callback_query None example_fetch example_storage alone example_clock.

Lemma cancel_then_decline_restores_witness :
  let w := quick_world QuickNote_grams in
  let asked := example_dispatch 7 "q:cancel" w in
  let declined := example_dispatch 7 "q:cancel:no" (snd asked) in
  state_of w 7 = Some QuickNote_grams
  /\ QuickNote_grams <> ""
  /\ fst asked = Ok tt
  /\ state_of (snd asked) 7 = Some QuickCancel_confirm
  /\ fst declined = Ok tt
  /\ state_of (snd declined) 7 = Some QuickNote_grams
  /\ (forall k, k <> "live_q_id" -> k <> "cancel_return_state" ->
                data_of (snd declined) 7 !! k = data_of w 7 !! k)
  /\ ALBUM_BUFFER (snd declined) = ALBUM_BUFFER w
  /\ database (snd declined) = database w.
Proof.
  cbv zeta. split; [reflexivity|]. split; [discriminate|].
  apply (cancel_then_decline_restores None example_fetch example_storage alone
           example_clock 7 QuickNote_grams (quick_world QuickNote_grams));
    [reflexivity | discriminate].
Defined.

(** The round trip on the example: the draft afterwards is the draft
    before with the step to return to recorded and a new live prompt. *)
Lemma cancel_then_decline_example :
  let w := quick_world QuickNote_grams in
  let declined :=
    snd (example_dispatch 7 "q:cancel:no" (snd (example_dispatch 7 "q:cancel" w))) in
  data_of declined 7
  = <["live_q_id" := VInt 43]>
      (<["cancel_return_state" := VStr QuickNote_grams]> (data_of w 7)).
Proof. vm_compute. reflexivity. Qed.

(** C8 as stated fails at the second step of the quick flow: the keyboard
    of the type question has no back button, and a back signal delivered
    there leaves the flow at the type question, not at the name. No step
    of the full flow answers the signal either. *)
Lemma back_unsupported_at_type_step :
  let out := example_dispatch 7 "q:back" (quick_world QuickNote_type_pick) in
  let full := example_dispatch 7 "q:back" (full_world NewTasting_grams) in
  ~ In "q:back" q_type_kb
  /\ fst out = Ok tt
  /\ state_of (snd out) 7 = Some QuickNote_type_pick
  /\ state_of (snd out) 7 <> Some QuickNote_name
  /\ state_of (snd full) 7 = Some NewTasting_grams
  /\ data_of (snd full) 7 = data_of (full_world NewTasting_grams) 7.
Proof.
  cbv zeta. split.
  - intros H. vm_compute in H. intuition discriminate.
  - assert (Hs : state_of (snd (example_dispatch 7 "q:back"
                                  (quick_world QuickNote_type_pick))) 7
                 = Some QuickNote_type_pick) by (vm_compute; reflexivity).
    split; [vm_compute; reflexivity|]. split; [exact Hs|].
    split; [rewrite Hs; discriminate|].
    split; vm_compute; reflexivity.
Qed.

(** From the grams step the same signal does go back, to the type
    question. *)
Lemma back_example :
  state_of (snd (example_dispatch 7 "q:back" (quick_world QuickNote_grams))) 7
  = Some QuickNote_type_pick.
Proof. vm_compute. reflexivity. Qed.

(** C5 on a draft: the gear step was skipped, the flow is at the dry-leaf
    aroma with a descriptor chosen; the replayed "skip:gear" empties the
    choice. At the grams step a replayed "skip:region" puts the flow back
    at the category question. A replayed "skip:grams" at the temperature
    step changes nothing. *)
Lemma replayed_skip_example :
  let gear := example_dispatch 7 "skip:gear" (full_world NewTasting_aroma_dry) in
  let region := example_dispatch 7 "skip:region" (full_world NewTasting_grams) in
  let grams := example_dispatch 7 "skip:grams" (full_world NewTasting_temp_c) in
  data_of (full_world NewTasting_aroma_dry) 7 !! "aroma_dry_sel" = Some (VStrs ["мёд"])
  /\ data_of (snd gear) 7 !! "aroma_dry_sel" = Some (VStrs [])
  /\ state_of (snd region) 7 = Some NewTasting_category
  /\ grams = (Ok tt, full_world NewTasting_temp_c).
Proof. cbv zeta. repeat split; vm_compute; reflexivity. Qed.

End FlowExamples.

(** ** Albums on a concrete draft *)

Section AlbumExamples.
Import Tastings Bot.
Local Open Scope list_scope.

(** A photo of the album "album" sent by user 7. *)
Definition example_message (fid : string) : PhotoMessage :=
  {| from_user := 7; media_group_id := Some "album"; photo_file_id := fid;
     photo_file_unique_id := (fid ++ "-u")%string |}.

Definition example_burst : list (Z * PhotoMessage) :=
  [(1000, example_message "a1"); (1500, example_message "a2");
   (3000, example_message "a3")].

Definition example_apart : list (Z * PhotoMessage) :=
  [(1000, example_message "a1"); (3500, example_message "a2")].

(** Four photos of one album, all within the window, for a draft that
    takes three. *)
Definition example_over : list (Z * PhotoMessage) :=
  [(1000, example_message "a1"); (1100, example_message "a2");
   (1200, example_message "a3"); (1300, example_message "a4")].



End AlbumExamples.

(** * Further properties *)

(** ** app/services/tastings.py: what a call leaves in the database *)

Section GatewayRows.
Import Tastings.
Local Open Scope list_scope.

Variable save_photo_bytes : Value -> Z -> string -> string -> Result SaveResult.
Variable concurrent : nat -> Database -> Database.

(** What the other sessions committed during the attempts 1 to [n] of a
    call. *)
Definition others (n : nat) (db : Database) : Database :=
  fold_left (fun d k => concurrent k d) (seq 1 n) db.

(** The photo entries the second loop of the transaction stores: a bare
    file id, or a dict with both a body and a Telegram file id. *)
Definition storable (p : PhotoEntry) : bool :=
  match p with
  | PhotoStr _ => true
  | PhotoDict d =>
      match body d, telegram_file_id d with
      | Some _, Some _ => true
      | _, _ => false
      end
  end.

Definition entry_file_id (p : PhotoEntry) : option string :=
  match p with
  | PhotoStr fid => Some fid
  | PhotoDict d => telegram_file_id d
  end.

Lemma transaction_raised (k : nat) (db db' : Database) (td : TastingData)
    (infs : list Infusion) (phs : list PhotoEntry) (e : Exn) :
  transaction save_photo_bytes concurrent k db td infs phs = (db', Raise e) ->
  db' = concurrent k db.
Proof.
  unfold transaction.
  destruct (write save_photo_bytes (concurrent k db) _ td infs phs) as [[db2 t]|e'];
    intros [= <-]; reflexivity.
Qed.

Lemma add_photos_spec (uid : Value) (tid : Z) (phs : list PhotoEntry)
    (db db' : Database) :
  add_photos save_photo_bytes uid tid phs db = Ok db' ->
  infusions db' = infusions db
  /\ exists rows,
       photos db' = photos db ++ rows
       /\ Forall2 (fun p r => ph_tasting_id r = tid
                              /\ ph_telegram_file_id r = entry_file_id p
                              /\ Some (ph_file_id r) = entry_file_id p)
                  (List.filter storable phs) rows.
Proof.
  revert db. induction phs as [|p phs IH]; intros db; cbn [add_photos].
  - intros [= <-]. split; [reflexivity|]. exists []. rewrite app_nil_r. split; constructor.
  - destruct p as [fid | d].
    + intros H. apply IH in H as (Hi & rows & Hp & Hall). cbn in Hi, Hp.
      split; [exact Hi|]. eexists (_ :: rows). rewrite Hp, <- app_assoc.
      split; [reflexivity|]. cbn. constructor; [cbn; auto|exact Hall].
    + unfold storable at 1. cbn [List.filter storable].
      destruct (body d) as [bd|]; [destruct (telegram_file_id d) as [tf|] eqn:Htf|].
      * destruct (save_photo_bytes _ _ _ _) as [r|e]; [|discriminate].
        intros H. apply IH in H as (Hi & rows & Hp & Hall). cbn in Hi, Hp.
        split; [exact Hi|]. eexists (_ :: rows). rewrite Hp, <- app_assoc.
        split; [reflexivity|]. constructor; [cbn; rewrite Htf; auto|exact Hall].
      * apply IH.
      * apply IH.
Qed.

Lemma next_id_fresh (db : Database) (t : Tasting) :
  In t (tastings db) -> id t < next_id db.
Proof.
  unfold next_id. induction (tastings db) as [|x l IH]; [intros []|].
  cbn [map fold_right]. intros [-> | H]; [lia|]. specialize (IH H). lia.
Qed.

(** What a committed transaction wrote. *)
Lemma write_rows (db db' : Database) (seq : Z) (td : TastingData)
    (infs : list Infusion) (phs : list PhotoEntry) (t : Tasting) :
  write save_photo_bytes db seq td infs phs = Ok (db', t) ->
  tastings db' = tastings db ++ [t]
  /\ id t = next_id db /\ seq_no t = seq /\ columns t = td
  /\ td_user_id td = VInt (user_id t)
  /\ infusions db'
     = infusions db ++ map (fun i => {| ir_tasting_id := id t; ir_infusion := i |}) infs
  /\ exists rows,
       photos db' = photos db ++ rows
       /\ Forall2 (fun p r => ph_tasting_id r = id t
                              /\ ph_telegram_file_id r = entry_file_id p
                              /\ Some (ph_file_id r) = entry_file_id p)
                  (List.filter storable phs) rows.
Proof.
  intros Hw. pose proof (write_committed save_photo_bytes _ _ _ _ _ _ _ Hw)
    as (Hrows & Hseq & Hu & _).
  unfold write, insert_tasting in Hw.
  destruct (td_user_id td) as [| | u | | | | |]; try discriminate.
  destruct (is_None (td_name td) || is_None (td_category td)); [discriminate|].
  destruct (seq_taken db u seq); [discriminate|].
  destruct (add_photos _ _ _ _ _) as [db2|e] eqn:Hph; [|discriminate].
  injection Hw as <- <-. cbn [id columns] in *.
  apply add_photos_spec in Hph as (Hi & rows & Hp & Hall). cbn in Hi, Hp.
  split; [exact Hrows|]. split; [reflexivity|]. split; [reflexivity|].
  split; [reflexivity|]. split; [exact Hu|].
  split; [exact Hi|]. exists rows. split; assumption.
Qed.


(** What a call that returns has written. *)
Lemma create_tasting_committed (db : Database) (td : TastingData)
    (infs : list Infusion) (phs : list PhotoEntry) (t : Tasting) :
  let outcome := create_tasting save_photo_bytes concurrent db td infs phs in
  let db' := fst (fst outcome) in
  let base := others (snd outcome) db in
  snd (fst outcome) = Ok t ->
  tastings db' = tastings base ++ [t]
  /\ (forall t', In t' (tastings base) -> id t' < id t)
  /\ columns t = td
  /\ td_user_id td = VInt (user_id t)
  /\ seq_no t = _next_seq_for_user (others (snd outcome - 1) db) (td_user_id td)
  /\ infusions db'
     = infusions base ++ map (fun i => {| ir_tasting_id := id t; ir_infusion := i |}) infs
  /\ exists rows,
       photos db' = photos base ++ rows
       /\ Forall2 (fun p r => ph_tasting_id r = id t
                              /\ ph_telegram_file_id r = entry_file_id p
                              /\ Some (ph_file_id r) = entry_file_id p)
                  (List.filter storable phs) rows.
Proof.
  cbv zeta. unfold create_tasting, _MAX_CREATE_ATTEMPTS, others. cbn [create_loop].
  change ((0 <? 2)%nat) with true. cbv iota.
  assert (Hone : forall k d d' r,
            transaction save_photo_bytes concurrent k d td infs phs = (d', Ok r) ->
            tastings d' = tastings (concurrent k d) ++ [r]
            /\ (forall t', In t' (tastings (concurrent k d)) -> id t' < id r)
            /\ columns r = td /\ td_user_id td = VInt (user_id r)
            /\ seq_no r = _next_seq_for_user d (td_user_id td)
            /\ infusions d'
               = infusions (concurrent k d)
                 ++ map (fun i => {| ir_tasting_id := id r; ir_infusion := i |}) infs
            /\ exists rows,
                 photos d' = photos (concurrent k d) ++ rows
                 /\ Forall2 (fun p x => ph_tasting_id x = id r
                                        /\ ph_telegram_file_id x = entry_file_id p
                                        /\ Some (ph_file_id x) = entry_file_id p)
                            (List.filter storable phs) rows).
  { intros k d d' r. unfold transaction.
    destruct (write save_photo_bytes (concurrent k d) _ td infs phs) as [[d2 r']|e'] eqn:W;
      [|discriminate].
    intros [= <- <-].
    apply write_rows in W as (Hr & Hid & Hs & Hc & Hu & Hi & Hp).
    split; [exact Hr|]. split.
    { intros t' Hin. rewrite Hid. apply next_id_fresh. exact Hin. }
    auto. }
  destruct (transaction save_photo_bytes concurrent 1 db td infs phs)
    as [db1 [r|e1]] eqn:E1.
  - cbn. intros [= <-]. exact (Hone _ _ _ _ E1).
  - apply transaction_raised in E1. subst db1.
    destruct e1; cbn; try discriminate.
    destruct (transaction save_photo_bytes concurrent 2 (concurrent 1 db) td infs phs)
      as [db2 [r|e2]] eqn:E2.
    + cbn. intros [= <-]. exact (Hone _ _ _ _ E2).
    + destruct e2; cbn; discriminate.
Qed.


(** X3. A draft without a name, without a category or without a user id
    violates a NOT NULL column on every attempt: the call makes both
    attempts and raises IntegrityError, and nothing of it is stored. *)
Theorem create_tasting_not_null (db : Database) (td : TastingData)
    (infs : list Infusion) (phs : list PhotoEntry) :
  (is_None (td_name td) = true \/ is_None (td_category td) = true
   \/ td_user_id td = VNone) ->
  create_tasting save_photo_bytes concurrent db td infs phs
  = (others 2 db, Raise IntegrityError, 2%nat).
Proof.
  intros Hnull.
  assert (Hw : forall d seq, write save_photo_bytes d seq td infs phs = Raise IntegrityError).
  { intros d seq. unfold write, insert_tasting.
    destruct (td_user_id td) as [| | u | | | | |] eqn:Hu; try reflexivity.
    destruct Hnull as [H|[H|H]].
    - rewrite H. reflexivity.
    - rewrite H, orb_true_r. reflexivity.
    - discriminate H. }
  assert (Ht : forall k d, transaction save_photo_bytes concurrent k d td infs phs
                           = (concurrent k d, Raise IntegrityError)).
  { intros k d. unfold transaction. rewrite Hw. reflexivity. }
  unfold create_tasting, _MAX_CREATE_ATTEMPTS, others. cbn [create_loop].
  change ((0 <? 2)%nat) with true. cbv iota.
  rewrite Ht. cbn. rewrite Ht. reflexivity.
Qed.

(** X4. A failure of the blob store is not retried: when the row can be
    inserted and the store refuses the first photo that has to be
    written, the call ends after one attempt with the error of the store,
    and the inserted row is rolled back. *)
Theorem create_tasting_storage_failure (db : Database) (td : TastingData)
    (infs : list Infusion) (phs : list PhotoEntry) (u : Z) (e : Exn) :
  td_user_id td = VInt u ->
  is_None (td_name td) = false -> is_None (td_category td) = false ->
  seq_taken (concurrent 1 db) u (_next_seq_for_user db (VInt u)) = false ->
  e <> IntegrityError ->
  (exists d, In (PhotoDict d) phs /\ body d <> None /\ telegram_file_id d <> None) ->
  (forall uid tid content hint, save_photo_bytes uid tid content hint = Raise e) ->
  create_tasting save_photo_bytes concurrent db td infs phs
  = (concurrent 1 db, Raise e, 1%nat).
Proof.
  intros Hu Hname Hcat Hfree He (d & Hin & Hbody & Hfile) Hsave.
  assert (Hph : forall tid d0, add_photos save_photo_bytes (VInt u) tid phs d0 = Raise e).
  { intros tid. induction phs as [|p l IH]; [destruct Hin|]. intros d0.
    assert (IH' : In (PhotoDict d) l -> forall d1,
              add_photos save_photo_bytes (VInt u) tid l d1 = Raise e)
      by (intros H; exact (IH H)).
    clear IH.
    cbn [add_photos]. destruct p as [fid|d'].
    - apply IH'. destruct Hin as [H|H]; [discriminate|exact H].
    - destruct (body d') as [bd|] eqn:Hb; [destruct (telegram_file_id d') as [tf|] eqn:Ht|].
      + rewrite Hsave. reflexivity.
      + apply IH'. destruct Hin as [[= ->]|H]; [congruence|exact H].
      + apply IH'. destruct Hin as [[= ->]|H]; [congruence|exact H]. }
  unfold create_tasting, _MAX_CREATE_ATTEMPTS. cbn [create_loop].
  change ((0 <? 2)%nat) with true. cbv iota.
  unfold transaction, write, insert_tasting. rewrite Hu, Hname, Hcat, Hfree. cbn [orb].
  cbv beta iota. cbn [id]. rewrite Hph.
  destruct e; try reflexivity. congruence.
Qed.

End GatewayRows.

Section GatewayRowsExamples.
Import Tastings.
Local Open Scope list_scope.

Definition example_infusion : Infusion :=
  {| n := Some 1; seconds := Some 20; liquor_color := Some "amber";
     taste := Some "roasted"; special_notes := None; inf_body := Some "medium";
     aftertaste := None |}.

(** A photo dict whose download never filled the body. *)
Definition example_bodyless : PhotoEntry :=
  PhotoDict {| body := None; filename_hint := None; telegram_file_id := Some "p9";
               telegram_file_unique_id := None |}.

Definition example_nameless : TastingData :=
  {| td_user_id := VInt 7; td_name := VNone; td_year := VNone; td_region := VNone;
     td_category := VStr "Улун"; td_grams := VNone; td_temp_c := VNone;
     td_tasted_at := VNone; td_gear := VNone; td_aroma_dry := VNone;
     td_aroma_warmed := VNone; td_aroma_after := VNone; td_effects_csv := VNone;
     td_scenarios_csv := VNone; td_rating := VInt 0; td_summary := VNone |}.

Definition example_created : Tasting :=
  {| id := 4; user_id := 7; seq_no := 3; columns := example_data 7 "Da Hong Pao" |}.



Lemma create_tasting_not_null_witness :
  create_tasting example_storage alone example_db example_nameless [] []
  = (others alone 2 example_db, Raise IntegrityError, 2%nat).
Proof.
  apply (create_tasting_not_null example_storage alone example_db example_nameless [] []).
  left. reflexivity.
Defined.

Lemma create_tasting_storage_failure_witness :
  create_tasting broken_storage alone example_db (example_data 7 "Da Hong Pao")
    [example_infusion] [PhotoStr "p1"; example_photo "p0"]
  = (alone 1%nat example_db, Raise OSError, 1%nat).
Proof.
  apply (create_tasting_storage_failure broken_storage alone example_db
           (example_data 7 "Da Hong Pao") [example_infusion]
           [PhotoStr "p1"; example_photo "p0"] 7 OSError);
    try reflexivity; try discriminate.
  eexists. split; [right; left; reflexivity|]. split; discriminate.
Defined.

End GatewayRowsExamples.

(** ** app/validators.py: what the parsers accept and return *)

Section ParserFacts.
Import Validators.
Local Open Scope list_scope.

(** *** Decimal digits *)

Lemma int_of_digits_snoc (ds : list ascii) (a : ascii) :
  int_of_digits (ds ++ [a]) = 10 * int_of_digits ds + digit_val a.
Proof. unfold int_of_digits. rewrite fold_left_app. reflexivity. Qed.

Lemma digit_char_val (d : Z) : 0 <= d < 10 -> digit_val (digit_char d) = d.
Proof.
  intros H. unfold digit_val, digit_char.
  rewrite nat_ascii_embedding by lia. lia.
Qed.

Lemma digit_char_is_digit (d : Z) : 0 <= d < 10 -> is_digit (digit_char d) = true.
Proof.
  intros H. unfold is_digit, digit_char. rewrite nat_ascii_embedding by lia.
  apply andb_true_iff. split; apply Nat.leb_le; lia.
Qed.

Lemma digits_fuel_acc (fuel : nat) (n : Z) (acc : list ascii) :
  digits_fuel fuel n acc = digits_fuel fuel n [] ++ acc.
Proof.
  revert n acc. induction fuel as [|f IH]; intros n acc; [reflexivity|].
  cbn [digits_fuel]. destruct (n <? 10); [reflexivity|].
  rewrite (IH (n / 10) (digit_char (n mod 10) :: acc)),
    (IH (n / 10) [digit_char (n mod 10)]), <- app_assoc. reflexivity.
Qed.

Lemma digits_fuel_spec (fuel : nat) (n : Z) :
  0 <= n < 2 ^ Z.of_nat fuel -> (0 < fuel)%nat ->
  int_of_digits (digits_fuel fuel n []) = n
  /\ forallb is_digit (digits_fuel fuel n []) = true
  /\ digits_fuel fuel n [] <> [].
Proof.
  revert n. induction fuel as [|f IH]; intros n Hn Hfuel; [lia|].
  - cbn [digits_fuel]. destruct (Z.ltb_spec n 10) as [Hlt|Hge].
    + split; [|split; [|discriminate]].
      * unfold int_of_digits. cbn [fold_left]. rewrite digit_char_val by lia. lia.
      * cbn [forallb]. rewrite digit_char_is_digit by lia. reflexivity.
    + rewrite digits_fuel_acc.
      assert (Hdiv : 0 <= n / 10 < 2 ^ Z.of_nat f).
      { split; [apply Z.div_pos; lia|].
        rewrite Nat2Z.inj_succ, Z.pow_succ_r in Hn by lia.
        apply Z.div_lt_upper_bound; lia. }
      assert (Hf : (0 < f)%nat).
      { destruct f; [cbn in Hdiv; assert (n / 10 = 0) by lia|lia].
        assert (n < 10) by (apply Z.div_small_iff in H; lia). lia. }
      destruct (IH (n / 10) Hdiv Hf) as (Hv & Hd & Hne).
      assert (Hmod : 0 <= n mod 10 < 10) by (apply Z.mod_pos_bound; lia).
      split; [|split].
      * rewrite int_of_digits_snoc, Hv, digit_char_val by exact Hmod.
        rewrite (Z.div_mod n 10) at 3 by lia. reflexivity.
      * rewrite forallb_app, Hd. cbn [forallb].
        rewrite digit_char_is_digit by exact Hmod. reflexivity.
      * intros H. apply app_eq_nil in H as [_ H]. discriminate.
Qed.

Lemma str_of_nat_spec (n : Z) :
  0 <= n ->
  int_of_digits (str_of_nat n) = n
  /\ forallb is_digit (str_of_nat n) = true
  /\ str_of_nat n <> [].
Proof.
  intros Hn. apply digits_fuel_spec; [|lia]. split; [exact Hn|].
  destruct (Z.eq_dec n 0) as [->|Hpos]; [cbn; lia|].
  rewrite Nat2Z.inj_add, Z2Nat.id by apply Z.log2_nonneg.
  change (Z.of_nat 1) with 1. apply Z.log2_spec. lia.
Qed.

(** *** White space *)

Lemma is_digit_not_space (a : ascii) : is_digit a = true -> is_space a = false.
Proof.
  unfold is_digit, is_space. intros H. apply andb_true_iff in H as [H1 H2].
  apply Nat.leb_le in H1, H2.
  apply orb_false_iff. split; apply andb_false_iff.
  - right. apply Nat.leb_gt. lia.
  - right. apply Nat.leb_gt. lia.
Qed.

Lemma lstrip_head (a : ascii) (s : list ascii) :
  is_space a = false -> lstrip (a :: s) = a :: s.
Proof. intros H. cbn. rewrite H. reflexivity. Qed.

(** A text that neither starts nor ends with white space is its own
    [strip]. *)
Lemma strip_kept (s : list ascii) :
  (forall a t, s = a :: t -> is_space a = false) ->
  (forall a t, s = t ++ [a] -> is_space a = false) ->
  strip s = s.
Proof.
  intros Hfirst Hlast. unfold strip.
  destruct s as [|a t]; [reflexivity|].
  rewrite (lstrip_head a t (Hfirst a t eq_refl)).
  destruct (exists_last (l := a :: t)) as (t' & z & Hz); [discriminate|].
  rewrite Hz, rev_app_distr. cbn [rev app].
  rewrite (lstrip_head z (rev t') (Hlast z t' Hz)).
  cbn [rev]. rewrite rev_involutive. reflexivity.
Qed.

Lemma strip_digits (s : list ascii) : forallb is_digit s = true -> strip s = s.
Proof.
  intros H. rewrite forallb_forall in H.
  apply strip_kept; intros a t ->; apply is_digit_not_space, H.
  - left. reflexivity.
  - apply in_or_app. right. left. reflexivity.
Qed.

(** *** [parse_float] *)

Lemma quantize_exponent (d q : Decimal) (target : Z) :
  quantize d target = Ok q -> exists s c, q = Finite s c target.
Proof.
  unfold quantize. destruct d as [sign coeff e|]; [|discriminate].
  destruct (negb _); [discriminate|].
  destruct (coeff =? 0); [intros [= <-]; eauto|].
  destruct (Emax <? _); [discriminate|]. destruct (prec <? _); [discriminate|].
  unfold rescale_half_up.
  destruct (target <=? e).
  - destruct (Emax <? _); [discriminate|]. destruct (prec <? _); [discriminate|].
    intros [= <-]. eauto.
  - destruct (Emax <? _); [discriminate|]. destruct (prec <? _); [discriminate|].
    intros [= <-]. eauto.
Qed.

Lemma quantize_raises (d : Decimal) (target : Z) (e : Exn) :
  quantize d target = Raise e -> e = InvalidOperation.
Proof.
  unfold quantize. destruct d as [sign coeff ex|]; [|intros [= <-]; reflexivity].
  destruct (negb _); [intros [= <-]; reflexivity|].
  destruct (coeff =? 0); [discriminate|].
  destruct (Emax <? _); [intros [= <-]; reflexivity|].
  destruct (prec <? _); [intros [= <-]; reflexivity|].
  destruct (rescale_half_up sign coeff ex target) as [s c e'|];
    [|intros [= <-]; reflexivity].
  destruct (Emax <? _); [intros [= <-]; reflexivity|].
  destruct (prec <? _); [intros [= <-]; reflexivity|discriminate].
Qed.

(** The outcomes of [parse_float]. *)
Lemma parse_float_cases (raw : string) (lo hi : Decimal) (msg : string)
    (precision : Z) :
  match parse_float raw lo hi msg precision with
  | Ok v =>
      dec_lt v lo = Some false /\ dec_lt hi v = Some false
      /\ exists s c, v = Finite s c (quant_exp precision)
  | Raise e => e = ValueError msg \/ e = InvalidOperation
  end.
Proof.
  unfold parse_float.
  destruct (comma_to_dot (strip (list_ascii_of_string raw))) as [|a text] eqn:Htext;
    [left; reflexivity|].
  destruct (Decimal_of_string (a :: text)) as [d|]; [|left; reflexivity].
  destruct (quantize d (quant_exp precision)) as [q|e] eqn:Hq.
  - destruct (dec_lt q lo) as [below|] eqn:Hlo; [|right; reflexivity].
    destruct (dec_lt hi q) as [above|] eqn:Hhi; [|right; reflexivity].
    destruct below; [left; reflexivity|]. destruct above; [left; reflexivity|].
    cbn [orb]. split; [exact Hlo|]. split; [exact Hhi|].
    exact (quantize_exponent _ _ _ Hq).
  - right. exact (quantize_raises _ _ _ Hq).
Qed.


(** The two ways to the uncaught exception, on the grams question. *)
Example parse_grams_special :
  parse_grams_value "nan" = Raise InvalidOperation
  /\ parse_grams_value "1e30" = Raise InvalidOperation
  /\ parse_grams_value "abc" = Raise (ValueError GRAMS_ERROR).
Proof. repeat split; vm_compute; reflexivity. Qed.

(** *** [parse_int] *)

Lemma take_sign_digit (a : ascii) (t : list ascii) :
  is_digit a = true -> take_sign (a :: t) = (false, a :: t).
Proof.
  destruct a as [[] [] [] [] [] [] [] []]; intros H; vm_compute in H;
    try discriminate; reflexivity.
Qed.

Lemma int_digits_all (ds : list ascii) (after_digit : bool) :
  forallb is_digit ds = true -> ds <> [] \/ after_digit = true ->
  int_digits ds after_digit = Some ds.
Proof.
  revert after_digit. induction ds as [|a ds IH]; intros b Hd Hne.
  - destruct Hne as [H| ->]; [congruence|reflexivity].
  - cbn [forallb] in Hd. apply andb_true_iff in Hd as [Ha Hd].
    cbn [int_digits]. rewrite Ha, (IH true Hd) by (right; reflexivity). reflexivity.
Qed.

Lemma int_of_string_digits (ds : list ascii) :
  forallb is_digit ds = true -> ds <> [] ->
  int_of_string ds = Some (int_of_digits ds).
Proof.
  intros Hd Hne. unfold int_of_string. rewrite (strip_digits ds Hd).
  destruct ds as [|a t]; [congruence|].
  cbn [forallb] in Hd. pose proof Hd as Hd'. apply andb_true_iff in Hd' as [Ha _].
  rewrite (take_sign_digit a t Ha).
  rewrite (int_digits_all (a :: t) false Hd) by (left; discriminate). reflexivity.
Qed.

Lemma strip_str_of_int (v : Z) : strip (str_of_int v) = str_of_int v.
Proof.
  unfold str_of_int. destruct (Z.ltb_spec v 0) as [Hneg|Hpos].
  - destruct (str_of_nat_spec (- v)) as (_ & Hd & Hne); [lia|].
    rewrite forallb_forall in Hd.
    apply strip_kept.
    + intros a t [= <- _]. reflexivity.
    + intros a t H. destruct (exists_last Hne) as (t' & z & Hz).
      rewrite Hz in H. change ("-"%char :: t' ++ [z]) with (("-"%char :: t') ++ [z]) in H.
      apply app_inj_tail in H as [_ <-].
      apply is_digit_not_space, Hd. rewrite Hz. apply in_or_app. right. left. reflexivity.
  - destruct (str_of_nat_spec v Hpos) as (_ & Hd & _). apply strip_digits. exact Hd.
Qed.

Lemma int_of_string_str (v : Z) : int_of_string (str_of_int v) = Some v.
Proof.
  unfold str_of_int. destruct (Z.ltb_spec v 0) as [Hneg|Hpos].
  - pose proof (strip_str_of_int v) as Hs. unfold str_of_int in Hs.
    destruct (Z.ltb_spec v 0) as [_|]; [|lia].
    unfold int_of_string. rewrite Hs. cbn [take_sign].
    destruct (str_of_nat_spec (- v)) as (Hv & Hd & Hne); [lia|].
    rewrite (int_digits_all _ false Hd) by (left; exact Hne). rewrite Hv. f_equal. lia.
  - destruct (str_of_nat_spec v Hpos) as (Hv & Hd & Hne).
    rewrite (int_of_string_digits _ Hd Hne), Hv. reflexivity.
Qed.

(** X6. [parse_int] returns an integer between [min_value] and
    [max_value], or raises [ValueError] with the message it was given;
    it raises nothing else. *)
Theorem parse_int_result (raw : string) (lo hi : Z) (msg : string) :
  match parse_int raw lo hi msg with
  | Ok v => lo <= v <= hi
  | Raise e => e = ValueError msg
  end.
Proof.
  unfold parse_int. destruct (int_of_string _) as [v|]; [|reflexivity].
  destruct (Z.ltb_spec v lo); [reflexivity|].
  destruct (Z.ltb_spec hi v); [reflexivity|]. cbn. lia.
Qed.


(** *** [parse_infusions_list] *)

Lemma read_parts_spec (parts : list (list ascii)) (lo hi : Z) (msg : string)
    (acc : list Z) :
  match read_parts parts lo hi msg acc with
  | Ok l => exists new, l = acc ++ new /\ Forall (fun v => lo <= v <= hi) new
  | Raise e => e = ValueError msg
  end.
Proof.
  revert acc. induction parts as [|part rest IH]; intros acc; cbn [read_parts].
  - exists []. rewrite app_nil_r. split; [reflexivity|constructor].
  - destruct part as [|a t]; [apply IH|].
    destruct (isdigit (a :: t)); cbn [negb]; [|reflexivity].
    destruct (Z.ltb_spec (int_of_digits (a :: t)) lo); [reflexivity|].
    destruct (Z.ltb_spec hi (int_of_digits (a :: t))); [reflexivity|]. cbn [orb].
    specialize (IH (acc ++ [int_of_digits (a :: t)])).
    destruct (read_parts rest lo hi msg _) as [l|e]; [|exact IH].
    destruct IH as (new & -> & Hnew). exists (int_of_digits (a :: t) :: new).
    rewrite <- app_assoc. split; [reflexivity|]. constructor; [lia|exact Hnew].
Qed.


(** [sep.join(pieces)] *)
Fixpoint join (sep : list ascii) (pieces : list (list ascii)) : list ascii :=
  match pieces with
  | [] => []
  | [p] => p
  | p :: rest => p ++ sep ++ join sep rest
  end.

Lemma is_digit_not_separator (a : ascii) :
  is_digit a = true -> is_list_separator a = false.
Proof.
  intros H. unfold is_list_separator. rewrite (is_digit_not_space a H).
  destruct a as [[] [] [] [] [] [] [] []]; vm_compute in H; try discriminate; reflexivity.
Qed.

(** Reading a piece made of digits. *)
Lemma re_split_digits (ds rest cur : list ascii) (in_run : bool) :
  forallb is_digit ds = true -> ds <> [] ->
  re_split (ds ++ rest) cur in_run = re_split rest (rev ds ++ cur) false.
Proof.
  revert cur in_run. induction ds as [|a ds IH]; intros cur b Hd Hne; [congruence|].
  cbn [forallb] in Hd. apply andb_true_iff in Hd as [Ha Hd].
  cbn [app re_split]. rewrite (is_digit_not_separator a Ha).
  destruct ds as [|a' ds'].
  - reflexivity.
  - rewrite (IH (a :: cur) false Hd) by discriminate.
    cbn [rev]. rewrite <- !app_assoc. reflexivity.
Qed.

(** Reading a run of separators after a piece. *)
Lemma re_split_run (sep rest cur : list ascii) :
  forallb is_list_separator sep = true -> sep <> [] ->
  (forall a t, rest = a :: t -> is_list_separator a = false) ->
  rest <> [] ->
  re_split (sep ++ rest) cur false = rev cur :: re_split rest [] false.
Proof.
  intros Hs Hne Hrest Hrest'.
  assert (Hrun : forall sep', forallb is_list_separator sep' = true ->
            re_split (sep' ++ rest) [] true = re_split rest [] false).
  { induction sep' as [|a sep' IH]; intros Hs'.
    - destruct rest as [|a t]; [congruence|]. cbn [app re_split].
      rewrite (Hrest a t eq_refl). reflexivity.
    - cbn [forallb] in Hs'. apply andb_true_iff in Hs' as [Ha Hs'].
      cbn [app re_split]. rewrite Ha. exact (IH Hs'). }
  destruct sep as [|a sep']; [congruence|].
  cbn [forallb] in Hs. apply andb_true_iff in Hs as [Ha Hs].
  cbn [app re_split]. rewrite Ha. rewrite (Hrun sep' Hs). reflexivity.
Qed.

Lemma join_cons (sep p : list ascii) (q : list ascii) (rest : list (list ascii)) :
  join sep (p :: q :: rest) = p ++ sep ++ join sep (q :: rest).
Proof. reflexivity. Qed.

Lemma join_digits_head (sep : list ascii) (l : list Z) :
  l <> [] -> Forall (fun v => 0 <= v) l ->
  exists a t, join sep (map str_of_int l) = a :: t /\ is_digit a = true.
Proof.
  intros Hne Hpos. destruct l as [|v l]; [congruence|].
  apply List.Forall_cons_iff in Hpos as [Hv _].
  destruct (str_of_nat_spec v Hv) as (_ & Hd & Hn).
  assert (Hstr : str_of_int v = str_of_nat v).
  { unfold str_of_int. destruct (Z.ltb_spec v 0); [lia|reflexivity]. }
  destruct (str_of_nat v) as [|a t] eqn:E; [congruence|].
  cbn [forallb] in Hd. apply andb_true_iff in Hd as [Ha _].
  exists a. cbn [map]. rewrite Hstr.
  destruct l as [|v' l']; cbn [map join]; eexists; split; try reflexivity; exact Ha.
Qed.

Lemma re_split_join (sep : list ascii) (l : list Z) (in_run : bool) :
  forallb is_list_separator sep = true -> sep <> [] ->
  l <> [] -> Forall (fun v => 0 <= v) l ->
  re_split (join sep (map str_of_int l)) [] in_run = map str_of_int l.
Proof.
  intros Hs Hsne. revert in_run. induction l as [|v l IH]; intros b Hne Hpos; [congruence|].
  apply List.Forall_cons_iff in Hpos as [Hv Hpos].
  destruct (str_of_nat_spec v Hv) as (_ & Hd & Hn).
  assert (Hstr : str_of_int v = str_of_nat v).
  { unfold str_of_int. destruct (Z.ltb_spec v 0); [lia|reflexivity]. }
  destruct l as [|v' l'].
  - cbn [map join]. rewrite Hstr.
    rewrite <- (app_nil_r (str_of_nat v)) at 1.
    rewrite (re_split_digits _ [] [] b Hd Hn). cbn [re_split].
    rewrite app_nil_r, rev_involutive. reflexivity.
  - cbn [map]. rewrite join_cons, Hstr.
    change (str_of_int v' :: map str_of_int l') with (map str_of_int (v' :: l')).
    rewrite (re_split_digits _ _ [] b Hd Hn).
    destruct (join_digits_head sep (v' :: l')) as (a & t & Hj & Ha);
      [discriminate|exact Hpos|].
    rewrite re_split_run; [|exact Hs|exact Hsne| |].
    + rewrite app_nil_r, rev_involutive. f_equal.
      apply IH; [discriminate|exact Hpos].
    + intros a0 t0 H. rewrite Hj in H. injection H as <- _.
      apply is_digit_not_separator. exact Ha.
    + rewrite Hj. discriminate.
Qed.

Lemma read_parts_digits (l : list Z) (lo hi : Z) (msg : string) (acc : list Z) :
  Forall (fun v => 0 <= v /\ lo <= v <= hi) l ->
  read_parts (map str_of_int l) lo hi msg acc = Ok (acc ++ l).
Proof.
  revert acc. induction l as [|v l IH]; intros acc Hl; cbn [map read_parts].
  - rewrite app_nil_r. reflexivity.
  - apply List.Forall_cons_iff in Hl as [[Hv Hr] Hl].
    destruct (str_of_nat_spec v Hv) as (Hval & Hd & Hn).
    assert (Hstr : str_of_int v = str_of_nat v).
    { unfold str_of_int. destruct (Z.ltb_spec v 0); [lia|reflexivity]. }
    rewrite Hstr. destruct (str_of_nat v) as [|a t] eqn:E; [congruence|].
    unfold isdigit. rewrite Hd. cbn [negb]. rewrite Hval.
    destruct (Z.ltb_spec v lo); [lia|]. destruct (Z.ltb_spec hi v); [lia|]. cbn [orb].
    rewrite (IH (acc ++ [v]) Hl), <- app_assoc. reflexivity.
Qed.


End ParserFacts.

Section ParserExamples.
Import Validators.
Local Open Scope list_scope.


(** Separators may pile up, and other characters are refused. *)
Example parse_infusions_list_examples :
  parse_infusions_list " 20;;25 ,30, " 1 600 30 "error" = Ok [20; 25; 30]
  /\ parse_infusions_list "20, 2x" 1 600 30 "error" = Raise (ValueError "error")
  /\ parse_infusions_list "20, 601" 1 600 30 "error" = Raise (ValueError "error")
  /\ parse_infusions_list ",;" 1 600 30 "error" = Raise (ValueError "error")
  /\ parse_int " +1_0 " 0 100 "error" = Ok 10
  /\ parse_int "1__0" 0 100 "error" = Raise (ValueError "error")
  /\ parse_temp_value "39" = Raise (ValueError TEMP_ERROR)
  /\ parse_temp_value "95" = Ok 95.
Proof. repeat split; vm_compute; reflexivity. Qed.

End ParserExamples.

(** ** app/main.py: time zone offsets and comma-separated lists *)

Section TextFacts.
Import Validators Bot.
Local Open Scope list_scope.

(** *** [parse_tz_offset] and [format_tz_offset] *)

(** The offsets [parse_tz_offset] can return: whole and half hours from
    UTC-12 to UTC+14. *)
Definition tz_offsets : list Z := map (fun k => 30 * (Z.of_nat k - 24)) (seq 0 53).

Lemma in_tz_offsets (o : Z) :
  -12 * 60 <= o <= 14 * 60 -> o mod 30 = 0 -> In o tz_offsets.
Proof.
  intros Hr Hm. unfold tz_offsets. apply in_map_iff.
  exists (Z.to_nat (o / 30 + 24)).
  assert (Ho : o = 30 * (o / 30)).
  { rewrite (Z.div_mod o 30) at 1 by lia. lia. }
  assert (-24 <= o / 30 <= 28) by lia.
  split; [rewrite Z2Nat.id by lia; lia|].
  apply in_seq. lia.
Qed.

Lemma format_tz_offset_parsed (o : Z) :
  -12 * 60 <= o <= 14 * 60 -> o mod 30 = 0 ->
  parse_tz_offset (format_tz_offset o) = Ok o.
Proof.
  intros Hr Hm. pose proof (in_tz_offsets o Hr Hm) as Hin.
  assert (Hall : forallb (fun x => match parse_tz_offset (format_tz_offset x) with
                                   | Ok y => x =? y
                                   | Raise _ => false
                                   end) tz_offsets = true)
    by (vm_compute; reflexivity).
  rewrite forallb_forall in Hall. specialize (Hall o Hin).
  destruct (parse_tz_offset (format_tz_offset o)) as [y|e]; [|discriminate].
  apply Z.eqb_eq in Hall. subst y. reflexivity.
Qed.

(** X10. What [format_tz_offset] writes for an offset of whole or half
    hours between UTC-12 and UTC+14, [parse_tz_offset] reads back as that
    offset. *)
Theorem parse_tz_offset_of_format (o : Z) :
  -12 * 60 <= o <= 14 * 60 -> o mod 30 = 0 ->
  parse_tz_offset (format_tz_offset o) = Ok o.
Proof. exact (format_tz_offset_parsed o). Qed.

Lemma half_hours (h m : Z) :
  m = 0 \/ m = 30 -> (h * 60 + m) mod 30 = 0 /\ (- (h * 60 + m)) mod 30 = 0.
Proof.
  intros [-> | ->].
  - replace (h * 60 + 0) with ((2 * h) * 30) by lia.
    replace (- (2 * h * 30)) with ((- (2 * h)) * 30) by lia.
    rewrite !Z.mod_mul by lia. auto.
  - replace (h * 60 + 30) with ((2 * h + 1) * 30) by lia.
    replace (- ((2 * h + 1) * 30)) with ((- (2 * h + 1)) * 30) by lia.
    rewrite !Z.mod_mul by lia. auto.
Qed.

(** X11. Every offset [parse_tz_offset] returns is a whole or half hour
    between UTC-12 and UTC+14, so the text [format_tz_offset] shows for
    it is accepted again and means the same offset; every refusal is a
    [ValueError]. *)
Theorem parse_tz_offset_result (raw : string) :
  match parse_tz_offset raw with
  | Ok o =>
      -12 * 60 <= o <= 14 * 60 /\ o mod 30 = 0
      /\ parse_tz_offset (format_tz_offset o) = Ok o
  | Raise e => e = ValueError ""
  end.
Proof.
  assert (Hok : forall o, parse_tz_offset raw = Ok o ->
                          -12 * 60 <= o <= 14 * 60 /\ o mod 30 = 0).
  { intros o. unfold parse_tz_offset.
    destruct (strip (list_ascii_of_string raw)) as [|a text]; [discriminate|].
    destruct (tz_offset_match _) as [[[sign hours_token] tail]|]; [|discriminate].
    set (h := int_of_digits hours_token).
    set (negative := match sign with Some c => Ascii.eqb c "-" | None => false end).
    assert (Hmin : forall m, m = 0 \/ m = 30 ->
              (if negb negative && (h =? 14) && negb (m =? 0)
               then Raise (ValueError "")
               else if negative && (h =? 12) && negb (m =? 0)
               then Raise (ValueError "")
               else if ((if negative then - (h * 60 + m) else h * 60 + m) <? -12 * 60)
                       || (14 * 60 <? (if negative then - (h * 60 + m) else h * 60 + m))
               then Raise (ValueError "")
               else Ok (if negative then - (h * 60 + m) else h * 60 + m)) = Ok o ->
              -12 * 60 <= o <= 14 * 60 /\ o mod 30 = 0).
    { intros m Hm. destruct (half_hours h m Hm) as [Hp Hn].
      destruct (negb negative && (h =? 14) && negb (m =? 0)); [discriminate|].
      destruct (negative && (h =? 12) && negb (m =? 0)); [discriminate|].
      destruct negative.
      - destruct (Z.ltb_spec (- (h * 60 + m)) (-12 * 60)); [discriminate|].
        destruct (Z.ltb_spec (14 * 60) (- (h * 60 + m))); [discriminate|].
        intros [= <-]. split; [lia|exact Hn].
      - destruct (Z.ltb_spec (h * 60 + m) (-12 * 60)); [discriminate|].
        destruct (Z.ltb_spec (14 * 60) (h * 60 + m)); [discriminate|].
        intros [= <-]. split; [lia|exact Hp]. }
    destruct tail as [[sep minutes_token]|].
    - destruct (Ascii.eqb sep ":").
      + destruct (String.eqb _ "30"); [|discriminate]. apply Hmin. right. reflexivity.
      + destruct (String.eqb _ "5"); [|discriminate]. apply Hmin. right. reflexivity.
    - apply Hmin. left. reflexivity. }
  destruct (parse_tz_offset raw) as [o|e] eqn:E.
  - destruct (Hok o eq_refl) as [Hr Hm]. split; [exact Hr|]. split; [exact Hm|].
    apply format_tz_offset_parsed; assumption.
  - revert E. unfold parse_tz_offset.
    destruct (strip (list_ascii_of_string raw)) as [|a text]; [intros [= <-]; reflexivity|].
    destruct (tz_offset_match _) as [[[sign hours_token] tail]|];
      [|intros [= <-]; reflexivity].
    destruct tail as [[sep minutes_token]|].
    + destruct (Ascii.eqb sep ":"); destruct (String.eqb _ _);
        try (intros [= <-]; reflexivity);
        repeat match goal with
               | |- context [if ?c then _ else _] => destruct c
               end; intros [= <-]; reflexivity.
    + repeat match goal with
             | |- context [if ?c then _ else _] => destruct c
             end; intros [= <-]; reflexivity.
Qed.

Lemma parse_tz_offset_of_format_witness :
  format_tz_offset 330 = "UTC+5:30"
  /\ parse_tz_offset (format_tz_offset 330) = Ok 330.
Proof.
  split; [reflexivity|].
  apply (parse_tz_offset_of_format 330); [lia|reflexivity].
Defined.

Example parse_tz_offset_examples :
  parse_tz_offset "UTC -2" = Ok (-120)
  /\ parse_tz_offset "+5.5" = Ok 330
  /\ parse_tz_offset "14" = Ok 840
  /\ parse_tz_offset "+14:30" = Raise (ValueError "")
  /\ parse_tz_offset "+5:45" = Raise (ValueError "")
  /\ parse_tz_offset "-13" = Raise (ValueError "")
  /\ format_tz_offset (-120) = "UTC-2"
  /\ format_tz_offset 45 = "UTC+0:45"
  /\ parse_tz_offset (format_tz_offset 45) = Raise (ValueError "").
Proof. repeat split; vm_compute; reflexivity. Qed.

(** *** [normalize_csv_text] and [_parse_quick_effects_csv] *)

Definition nonempty (p : list ascii) : bool :=
  match p with [] => false | _ => true end.

Definition comma_free (p : list ascii) : Prop := Forall (fun a => a <> ","%char) p.

Lemma lstrip_suffix (s : list ascii) : exists pre, s = pre ++ lstrip s.
Proof.
  induction s as [|a s (pre & IH)]; [exists []; reflexivity|].
  cbn [lstrip]. destruct (is_space a).
  - exists (a :: pre). cbn. rewrite <- IH. reflexivity.
  - exists []. reflexivity.
Qed.

Lemma lstrip_head_kept (s : list ascii) (a : ascii) (t : list ascii) :
  lstrip s = a :: t -> is_space a = false.
Proof.
  induction s as [|b s IH]; [discriminate|]. cbn [lstrip].
  destruct (is_space b) eqn:E; [exact IH|]. intros [= <- _]. exact E.
Qed.

Lemma strip_in (s : list ascii) (a : ascii) : In a (strip s) -> In a s.
Proof.
  unfold strip. intros H. apply in_rev in H.
  destruct (lstrip_suffix (rev (lstrip s))) as (pre & Hpre).
  assert (In a (rev (lstrip s))) by (rewrite Hpre; apply in_or_app; right; exact H).
  apply in_rev in H0. destruct (lstrip_suffix s) as (pre' & Hpre').
  rewrite Hpre'. apply in_or_app. right. exact H0.
Qed.

Lemma strip_strip (s : list ascii) : strip (strip s) = strip s.
Proof.
  apply strip_kept.
  - intros a t H. unfold strip in H.
    destruct (lstrip_suffix (rev (lstrip s))) as (pre & Hpre).
    assert (Hrev : lstrip s = rev (lstrip (rev (lstrip s))) ++ rev pre).
    { rewrite <- rev_app_distr, <- Hpre, rev_involutive. reflexivity. }
    rewrite H in Hrev. cbn [app] in Hrev. exact (lstrip_head_kept s a _ Hrev).
  - intros a t H. unfold strip in H.
    assert (Hl : lstrip (rev (lstrip s)) = a :: rev t).
    { rewrite <- (rev_involutive (lstrip (rev (lstrip s)))), H, rev_app_distr.
      reflexivity. }
    exact (lstrip_head_kept _ a _ Hl).
Qed.

Lemma split_commas_piece (p s cur : list ascii) :
  comma_free p -> split_commas (p ++ s) cur = split_commas s (rev p ++ cur).
Proof.
  revert cur. induction p as [|a p IH]; intros cur Hp; [reflexivity|].
  apply List.Forall_cons_iff in Hp as [Ha Hp].
  cbn [app split_commas]. rewrite (proj2 (Ascii.eqb_neq a ","%char) Ha).
  rewrite (IH (a :: cur) Hp). cbn [rev]. rewrite <- app_assoc. reflexivity.
Qed.

Lemma split_commas_free (s cur : list ascii) :
  comma_free cur -> Forall comma_free (split_commas s cur).
Proof.
  revert cur. induction s as [|a s IH]; intros cur Hcur; cbn [split_commas].
  - constructor; [|constructor]. apply Forall_rev. exact Hcur.
  - destruct (Ascii.eqb_spec a ","%char) as [->|Ha].
    + constructor; [apply Forall_rev; exact Hcur|]. apply IH. constructor.
    + apply IH. constructor; assumption.
Qed.

(** The items of a text: stripped, not empty, free of commas. *)
Definition items (raw : list ascii) : list (list ascii) := _parse_quick_effects_csv raw.

Lemma items_shape (raw : list ascii) :
  Forall (fun p => nonempty p = true /\ strip p = p /\ comma_free p) (items raw).
Proof.
  unfold items, _parse_quick_effects_csv. apply List.Forall_forall. intros p Hp.
  apply filter_In in Hp as [Hp Hne]. apply in_map_iff in Hp as (x & <- & Hx).
  split; [exact Hne|]. split; [apply strip_strip|].
  pose proof (split_commas_free raw [] (List.Forall_nil _)) as Hfree.
  rewrite List.Forall_forall in Hfree. specialize (Hfree x Hx).
  unfold comma_free in *. rewrite List.Forall_forall in *.
  intros a Ha. apply Hfree, strip_in, Ha.
Qed.

Lemma split_commas_join (ps : list (list ascii)) :
  Forall comma_free ps ->
  split_commas (join_comma_space ps) []
  = match ps with
    | [] => [[]]
    | p :: rest => p :: map (cons " "%char) rest
    end.
Proof.
  induction ps as [|p rest IH]; intros Hps; [reflexivity|].
  apply List.Forall_cons_iff in Hps as [Hp Hrest].
  destruct rest as [|q rest'].
  - cbn [join_comma_space map]. rewrite <- (app_nil_r p) at 1.
    rewrite (split_commas_piece p [] [] Hp). cbn [split_commas].
    rewrite app_nil_r, rev_involutive. reflexivity.
  - change (join_comma_space (p :: q :: rest'))
      with (p ++ ","%char :: " "%char :: join_comma_space (q :: rest')).
    rewrite (split_commas_piece p _ [] Hp). cbn [split_commas].
    change (Ascii.eqb "," ",") with true. cbv iota.
    rewrite app_nil_r, rev_involutive. f_equal.
    cbn [split_commas]. change (Ascii.eqb " " ",") with false. cbv iota.
    specialize (IH Hrest).
    assert (Hgen : forall s cur, split_commas s (cur ++ [" "%char])
                   = match split_commas s cur with
                     | x :: l => (" "%char :: x) :: l
                     | [] => []
                     end).
    { induction s as [|a s IHs]; intros cur; cbn [split_commas].
      - rewrite rev_app_distr. reflexivity.
      - destruct (Ascii.eqb a ","); [rewrite rev_app_distr; reflexivity|].
        exact (IHs (a :: cur)). }
    change [" "%char] with ([] ++ [" "%char]).
    rewrite (Hgen (join_comma_space (q :: rest')) []), IH. reflexivity.
Qed.

Lemma items_of_join (ps : list (list ascii)) :
  Forall (fun p => nonempty p = true /\ strip p = p /\ comma_free p) ps ->
  items (join_comma_space ps) = ps.
Proof.
  intros Hps. unfold items, _parse_quick_effects_csv.
  rewrite split_commas_join.
  2:{ eapply List.Forall_impl; [|exact Hps]. cbn. tauto. }
  destruct ps as [|p rest]; [reflexivity|].
  apply List.Forall_cons_iff in Hps as [(Hne & Hs & _) Hrest].
  unfold nonempty in Hne. cbn [map List.filter]. rewrite Hs, Hne. f_equal.
  induction Hrest as [|q rest' (Hq & Hsq & _) _ IH]; [reflexivity|].
  cbn [map List.filter].
  assert (Hsp : strip (" "%char :: q) = q).
  { unfold strip. cbn [lstrip]. change (is_space " ") with true. cbv iota. exact Hsq. }
  unfold nonempty in Hq. rewrite Hsp, Hq, IH. reflexivity.
Qed.

(** X12. [normalize_csv_text] keeps the items of the text, in order, and
    writes them in a form it leaves alone: the items of the normalised
    text are the items of the raw text, and normalising twice is
    normalising once. *)
Theorem normalize_csv_text_fixed (raw : list ascii) :
  _parse_quick_effects_csv (normalize_csv_text raw) = _parse_quick_effects_csv raw
  /\ normalize_csv_text (normalize_csv_text raw) = normalize_csv_text raw.
Proof.
  assert (H : items (normalize_csv_text raw) = items raw)
    by (apply (items_of_join (items raw)), items_shape).
  split; [exact H|].
  change (normalize_csv_text (normalize_csv_text raw))
    with (join_comma_space (items (normalize_csv_text raw))).
  rewrite H. reflexivity.
Qed.

Example normalize_csv_text_example :
  normalize_csv_text (list_ascii_of_string " honey ,, dried fruit,smoke , ")
  = list_ascii_of_string "honey, dried fruit, smoke".
Proof. vm_compute. reflexivity. Qed.

End TextFacts.

(** ** app/main.py: photos and the limit of a draft *)

Section PhotoLimitFacts.
Import Tastings Bot.
Local Open Scope list_scope.

Variable PHOTO_LIMIT : option Z.
Variable fetch : string -> Fetched.

(** What a download adds to a draft: one photo, or nothing when Telegram
    does not deliver the file. *)
Definition fetched_photo (f : AlbumFile) : list PhotoEntry :=
  match fetch (file_id f) with
  | File basename content => [draft_photo f basename content]
  | _ => []
  end.

Lemma fetched_photo_length (f : AlbumFile) : (List.length (fetched_photo f) <= 1)%nat.
Proof. unfold fetched_photo. destruct (fetch _); cbn; lia. Qed.

Lemma store_photo_any (chat uid : Z) (f : AlbumFile) (photos : list PhotoEntry)
    (w : World) :
  photos_of (data_of w uid) = photos ->
  exists w',
    _store_photo_from_file_id fetch chat uid (file_id f) photos (Some (file_unique_id f)) w
    = (Ok (match fetched_photo f with [] => false | _ => true end,
           photos ++ fetched_photo f), w')
    /\ album_frame uid w w'
    /\ photos_of (data_of w' uid) = photos ++ fetched_photo f
    /\ data_of w' uid !! "photo_limit" = data_of w uid !! "photo_limit"
    /\ (fetched_photo f = [] -> exists text, In (Answer chat text []) (outbox w')).
Proof.
  intros Hph. unfold _store_photo_from_file_id, fetched_photo.
  destruct (fetch (file_id f)) as [| | basename content].
  - unfold bind, answer, post. eexists. rewrite app_nil_r.
    split; [reflexivity|]. split; [apply telegram_only_frame; repeat split|].
    split; [exact Hph|]. split; [reflexivity|].
    intros _. eexists. cbn [outbox]. apply in_or_app. right. left. reflexivity.
  - unfold bind, answer, post. eexists. rewrite app_nil_r.
    split; [reflexivity|]. split; [apply telegram_only_frame; repeat split|].
    split; [exact Hph|]. split; [reflexivity|].
    intros _. eexists. cbn [outbox]. apply in_or_app. right. left. reflexivity.
  - unfold bind.
    change (PhotoDict _) with (draft_photo f basename content).
    destruct (update_data_fields uid
                [("new_photos", VPhotos (photos ++ [draft_photo f basename content]))] w)
      as (Hok & Hdata & _).
    destruct (update_data uid _ w) as [r w1] eqn:E. cbn [fst snd] in *. subst r.
    exists w1. cbn [fold_left fst snd] in Hdata.
    assert (Hphotos : photos_of (data_of w1 uid)
                      = photos ++ [draft_photo f basename content]).
    { rewrite Hdata. unfold photos_of, dget. rewrite lookup_insert_eq. reflexivity. }
    split; [reflexivity|]. split; [|split; [exact Hphotos|split]].
    + replace w1 with (snd (update_data uid
          [("new_photos", VPhotos (photos ++ [draft_photo f basename content]))] w))
        by (rewrite E; reflexivity).
      apply update_books_frame; [repeat constructor|].
      exists [draft_photo f basename content]. cbn [fold_left fst snd].
      unfold photos_of at 1. unfold dget. rewrite lookup_insert_eq. cbn. congruence.
    + rewrite Hdata. apply lookup_insert_ne. discriminate.
    + discriminate.
Qed.

Lemma dget_int (data : gmap string Value) (k : string) (z : Z) :
  dget data k = VInt z -> data !! k = Some (VInt z).
Proof. unfold dget. destruct (data !! k) as [v|]; cbn; intros H; congruence. Qed.

Lemma dget_of_lookup (data : gmap string Value) (k : string) (v : Value) :
  data !! k = Some v -> dget data k = v.
Proof. unfold dget. intros ->. reflexivity. Qed.

(** [photo_add] when the draft is full. *)
Lemma photo_add_full_spec (m : PhotoMessage) (limit : Z) (w : World) :
  data_of w (from_user m) !! "photo_limit" = Some (VInt limit) ->
  limit <= zlen (photos_of (data_of w (from_user m))) ->
  exists w',
    photo_add fetch m w = (Ok tt, w')
    /\ album_frame (from_user m) w w'
    /\ data_of w' (from_user m) !! "new_photos" = data_of w (from_user m) !! "new_photos"
    /\ data_of w' (from_user m) !! "photo_limit" = Some (VInt limit)
    /\ In (LimitReached (from_user m) (zlen (photos_of (data_of w (from_user m)))) limit)
          (outbox w').
Proof.
  intros Hlim Hfull. unfold photo_add.
  unfold bind at 1, get_data, gets. cbv beta iota zeta.
  fold (data_of w (from_user m)). rewrite (dget_of_lookup _ _ _ Hlim).
  destruct (Z.leb_spec limit (zlen (photos_of (data_of w (from_user m))))) as [_|]; [|lia].
  destruct (update_photo_progress_spec (from_user m) (from_user m)
              (zlen (photos_of (data_of w (from_user m)))) limit w)
    as (w1 & E1 & F1 & Hn1 & Hl1).
  unfold bind at 1. rewrite E1. unfold bind, post, ret. eexists.
  split; [reflexivity|]. split; [|split; [exact Hn1|split; [exact Hl1|]]].
  - eapply album_frame_trans; [exact F1|]. apply telegram_only_frame. repeat split.
  - cbn [outbox]. apply in_or_app. right. left. reflexivity.
Qed.

(** [photo_add] for a photo that is not part of an album. *)
Lemma photo_add_single_spec (m : PhotoMessage) (limit : Z) (w : World) :
  data_of w (from_user m) !! "photo_limit" = Some (VInt limit) ->
  zlen (photos_of (data_of w (from_user m))) < limit ->
  media_group_id m = None \/ media_group_id m = Some "" ->
  exists w',
    photo_add fetch m w = (Ok tt, w')
    /\ album_frame (from_user m) w w'
    /\ photos_of (data_of w' (from_user m))
       = photos_of (data_of w (from_user m)) ++ fetched_photo (album_file m)
    /\ data_of w' (from_user m) !! "photo_limit" = Some (VInt limit)
    /\ (fetched_photo (album_file m) = [] ->
        exists text, In (Answer (from_user m) text []) (outbox w')).
Proof.
  intros Hlim Hroom Hsingle. unfold photo_add.
  unfold bind at 1, get_data, gets. cbv beta iota zeta.
  fold (data_of w (from_user m)). rewrite (dget_of_lookup _ _ _ Hlim).
  destruct (Z.leb_spec limit (zlen (photos_of (data_of w (from_user m))))) as [|_]; [lia|].
  destruct (store_photo_any (from_user m) (from_user m) (album_file m)
              (photos_of (data_of w (from_user m))) w eq_refl)
    as (w1 & E1 & F1 & P1 & L1 & O1).
  cbn [album_file file_id file_unique_id] in E1.
  assert (Hgoal :
    exists w',
      (let* r := _store_photo_from_file_id fetch (from_user m) (from_user m)
                   (photo_file_id m) (photos_of (data_of w (from_user m)))
                   (Some (photo_file_unique_id m)) in
       if fst r then update_photo_progress (from_user m) (from_user m) (zlen (snd r)) limit
       else ret tt) w = (Ok tt, w')
      /\ album_frame (from_user m) w w'
      /\ photos_of (data_of w' (from_user m))
         = photos_of (data_of w (from_user m)) ++ fetched_photo (album_file m)
      /\ data_of w' (from_user m) !! "photo_limit" = Some (VInt limit)
      /\ (fetched_photo (album_file m) = [] ->
          exists text, In (Answer (from_user m) text []) (outbox w'))).
  { unfold bind at 1. rewrite E1. cbn [fst snd].
    destruct (fetched_photo (album_file m)) as [|p ps] eqn:Hf.
    - exists w1. split; [reflexivity|]. split; [exact F1|]. split; [exact P1|].
      split; [rewrite L1; exact Hlim|exact O1].
    - destruct (update_photo_progress_spec (from_user m) (from_user m)
                  (zlen (photos_of (data_of w (from_user m)) ++ p :: ps)) limit w1)
        as (w2 & E2 & F2 & Hn2 & Hl2).
      exists w2. split; [exact E2|]. split; [eapply album_frame_trans; eassumption|].
      split; [rewrite (photos_of_same _ _ Hn2); exact P1|].
      split; [exact Hl2|discriminate]. }
  destruct Hsingle as [-> | ->]; [exact Hgoal|].
  change (String.eqb "" "") with true. cbv iota. exact Hgoal.
Qed.

(** X13. A photo sent when the draft already holds as many photos as its
    limit allows is refused, album or not: the user gets the notice, the
    photos of the draft stay as they are, and nothing is buffered and no
    timer is started. *)
Theorem photo_add_full (m : PhotoMessage) (limit : Z) (w : World) :
  data_of w (from_user m) !! "photo_limit" = Some (VInt limit) ->
  limit <= zlen (photos_of (data_of w (from_user m))) ->
  let out := photo_add fetch m w in
  fst out = Ok tt
  /\ photos_of (data_of (snd out) (from_user m)) = photos_of (data_of w (from_user m))
  /\ ALBUM_BUFFER (snd out) = ALBUM_BUFFER w
  /\ tasks (snd out) = tasks w
  /\ In (LimitReached (from_user m) (zlen (photos_of (data_of w (from_user m)))) limit)
        (outbox (snd out)).
Proof.
  intros Hlim Hfull. cbv zeta.
  destruct (photo_add_full_spec m limit w Hlim Hfull) as (w' & -> & F & Hn & _ & Ho).
  cbn [fst snd]. split; [reflexivity|]. split; [apply photos_of_same; exact Hn|].
  split; [exact (af_buffer _ _ _ F)|]. split; [exact (af_tasks _ _ _ F)|exact Ho].
Qed.

(** X14. A photo that is not part of an album, sent while the draft has
    room, is downloaded at once: it becomes the last photo of the draft,
    or, when Telegram does not deliver the file, the draft stays as it is
    and the user is told. Either way the step, the other fields, the album
    buffer and the timers are untouched. *)
Theorem photo_add_single (m : PhotoMessage) (limit : Z) (w : World) :
  data_of w (from_user m) !! "photo_limit" = Some (VInt limit) ->
  zlen (photos_of (data_of w (from_user m))) < limit ->
  media_group_id m = None \/ media_group_id m = Some "" ->
  let out := photo_add fetch m w in
  let u := from_user m in
  fst out = Ok tt
  /\ photos_of (data_of (snd out) u)
     = photos_of (data_of w u)
       ++ match fetch (photo_file_id m) with
          | File basename content => [draft_photo (album_file m) basename content]
          | _ => []
          end
  /\ (match fetch (photo_file_id m) with
      | File _ _ => True
      | _ => exists text, In (Answer u text []) (outbox (snd out))
      end)
  /\ state_of (snd out) u = state_of w u
  /\ (forall k, photo_key k = false -> data_of (snd out) u !! k = data_of w u !! k)
  /\ ALBUM_BUFFER (snd out) = ALBUM_BUFFER w
  /\ tasks (snd out) = tasks w.
Proof.
  intros Hlim Hroom Hsingle. cbv zeta.
  destruct (photo_add_single_spec m limit w Hlim Hroom Hsingle)
    as (w' & -> & F & P & _ & O).
  cbn [fst snd]. unfold fetched_photo in P, O. cbn [album_file file_id] in P, O.
  split; [reflexivity|]. split; [exact P|].
  destruct (fr_draft _ _ _ (af_frame _ _ _ F)) as (Hs & Hd & _).
  split; [destruct (fetch (photo_file_id m)); auto|].
  split; [exact Hs|]. split; [exact Hd|].
  split; [exact (af_buffer _ _ _ F)|exact (af_tasks _ _ _ F)].
Qed.

(** *** No draft outgrows its limit *)

(** Every draft holds at most as many photos as its limit says: the
    number kept under [photo_limit], or [MAX_PHOTOS] when the draft has
    none. *)
Definition within_limit (w : World) : Prop :=
  forall uid limit,
    limit_of PHOTO_LIMIT (data_of w uid) = Ok limit ->
    zlen (photos_of (data_of w uid)) <= limit.

Lemma within_limit_storage (w w' : World) :
  storage w' = storage w -> within_limit w -> within_limit w'.
Proof.
  intros Hs H uid limit. unfold data_of, record_of. rewrite Hs. apply H.
Qed.

(** A step that leaves the other drafts alone and keeps the draft of [u]
    within its limit. *)
Lemma within_limit_step (u : Z) (w w' : World) :
  within_limit w ->
  (forall v, v <> u -> record_of w' v = record_of w v) ->
  (forall limit, limit_of PHOTO_LIMIT (data_of w' u) = Ok limit ->
                 zlen (photos_of (data_of w' u)) <= limit) ->
  within_limit w'.
Proof.
  intros H Ho Hu uid limit. destruct (Z.eq_dec uid u) as [->|Hne]; [apply Hu|].
  unfold data_of. rewrite (Ho uid Hne). apply H.
Qed.

Lemma processed_bound (limit : Z) (photos : list PhotoEntry) (e : AlbumEntry) :
  zlen photos <= limit -> zlen (processed fetch limit photos e) <= limit.
Proof.
  intros H. unfold processed. destruct (message e); [|exact H].
  destruct (files e) as [|f fs] eqn:Hf; [exact H|]. rewrite <- Hf.
  destruct (Z.leb_spec (limit - zlen photos) 0); [exact H|].
  pose proof (downloads_length fetch
                (take (Z.to_nat (limit - zlen photos)) (files e))) as Hd.
  unfold zlen in *. rewrite length_app. rewrite length_take in Hd. lia.
Qed.

Lemma process_within (e : AlbumEntry) (w : World) :
  within_limit w -> within_limit (snd (_process_album_entry PHOTO_LIMIT fetch e w)).
Proof.
  intros H. destruct (state e) as [uid|] eqn:Hst.
  2:{ unfold _process_album_entry. rewrite Hst. exact H. }
  destruct (limit_of PHOTO_LIMIT (data_of w uid)) as [limit|exn] eqn:Hlim.
  - destruct (process_entry_spec PHOTO_LIMIT fetch uid e limit w Hst Hlim)
      as (w' & -> & F & P & L).
    cbn [snd]. apply (within_limit_step uid w w' H).
    + exact (fr_others _ _ _ (af_frame _ _ _ F)).
    + intros limit' Hl'. rewrite L in Hl'. injection Hl' as <-.
      rewrite P. apply processed_bound. exact (H uid limit Hlim).
  - unfold _process_album_entry. rewrite Hst.
    destruct (message e) as [chat|]; [|exact H].
    destruct (files e) as [|f fs]; [exact H|].
    unfold bind at 1. unfold get_data, gets. cbv beta iota zeta.
    fold (data_of w uid). unfold limit_of in Hlim. unfold bind at 1.
    destruct (data_of w uid !! "photo_limit") as [v|]; [|discriminate].
    destruct v; try discriminate; exact H.
Qed.

Lemma wake_within (i : nat) (w : World) :
  within_limit w -> within_limit (wake PHOTO_LIMIT fetch i w).
Proof.
  intros H. unfold wake. destruct (tasks w !! i) as [tk|]; [|exact H].
  destruct (status tk); try exact H.
  destruct (deadline tk <=? now w); [|exact H].
  unfold _album_timeout_handler, bind, buffer_pop.
  match goal with
  | |- context [buffer_get ?k ?b] => destruct (buffer_get k b) as [e|]
  end.
  - apply process_within. eapply within_limit_storage; [|exact H]. reflexivity.
  - cbn [snd ret]. eapply within_limit_storage; [|exact H]. reflexivity.
Qed.

Lemma fold_wake_within (l : list nat) (x : World) :
  within_limit x ->
  within_limit (fold_left (fun w i => wake PHOTO_LIMIT fetch i w) l x).
Proof.
  revert x. induction l as [|i l IH]; intros x Hx; [exact Hx|].
  cbn [fold_left]. apply IH. apply wake_within. exact Hx.
Qed.

Lemma advance_within (t : Z) (w : World) :
  within_limit w -> within_limit (advance PHOTO_LIMIT fetch t w).
Proof.
  intros H. unfold advance. cbv zeta. apply fold_wake_within.
  eapply within_limit_storage; [|exact H]. reflexivity.
Qed.

Lemma photo_add_album_storage (m : PhotoMessage) (limit : Z) (g : string) (w : World) :
  data_of w (from_user m) !! "photo_limit" = Some (VInt limit) ->
  zlen (photos_of (data_of w (from_user m))) < limit ->
  media_group_id m = Some g -> g <> "" ->
  storage (snd (photo_add fetch m w)) = storage w.
Proof.
  intros Hlim Hroom Hg Hne. unfold photo_add.
  unfold bind at 1, get_data, gets. cbv beta iota zeta.
  fold (data_of w (from_user m)). rewrite (dget_of_lookup _ _ _ Hlim), Hg.
  destruct (Z.leb_spec limit (zlen (photos_of (data_of w (from_user m))))) as [|_]; [lia|].
  rewrite (proj2 (String.eqb_neq g "") Hne).
  unfold bind at 1. cbv beta iota.
  unfold bind at 1. rewrite cancel_task_spec.
  unfold bind, create_task, modify. reflexivity.
Qed.

Lemma photo_add_within (m : PhotoMessage) (w : World) :
  within_limit w -> within_limit (snd (photo_add fetch m w)).
Proof.
  intros H.
  destruct (dget (data_of w (from_user m)) "photo_limit") as [| | limit | | | | |] eqn:Hd;
    try (unfold photo_add, bind at 1, get_data, gets; cbv beta iota zeta;
         fold (data_of w (from_user m)); rewrite Hd; exact H).
  apply dget_int in Hd.
  pose proof (H (from_user m) limit (limit_of_set PHOTO_LIMIT _ _ Hd)) as Hbound.
  assert (Hkeep : forall w',
            album_frame (from_user m) w w' ->
            data_of w' (from_user m) !! "photo_limit" = Some (VInt limit) ->
            zlen (photos_of (data_of w' (from_user m))) <= limit ->
            within_limit w').
  { intros w' F Hl Hp. apply (within_limit_step (from_user m) w w' H).
    - exact (fr_others _ _ _ (af_frame _ _ _ F)).
    - intros limit' Hl'. rewrite (limit_of_set PHOTO_LIMIT _ _ Hl) in Hl'.
      injection Hl' as <-. exact Hp. }
  destruct (Z.le_gt_cases limit (zlen (photos_of (data_of w (from_user m)))))
    as [Hfull|Hroom].
  - destruct (photo_add_full_spec m limit w Hd Hfull) as (w' & -> & F & Hn & Hl & _).
    cbn [snd]. apply (Hkeep w' F Hl). rewrite (photos_of_same _ _ Hn). exact Hbound.
  - destruct (media_group_id m) as [g|] eqn:Hg.
    + destruct (String.eqb_spec g "") as [->|Hne].
      * destruct (photo_add_single_spec m limit w Hd Hroom (or_intror Hg))
          as (w' & -> & F & P & Hl & _).
        cbn [snd]. apply (Hkeep w' F Hl). rewrite P. unfold zlen in *.
        rewrite length_app. pose proof (fetched_photo_length (album_file m)). lia.
      * eapply within_limit_storage; [|exact H].
        exact (photo_add_album_storage m limit g w Hd Hroom Hg Hne).
    + destruct (photo_add_single_spec m limit w Hd Hroom (or_introl Hg))
        as (w' & -> & F & P & Hl & _).
      cbn [snd]. apply (Hkeep w' F Hl). rewrite P. unfold zlen in *.
      rewrite length_app. pose proof (fetched_photo_length (album_file m)). lia.
Qed.

(** X15. No sequence of photo messages and timer expiries pushes a draft
    beyond its limit: if every draft holds at most as many photos as its
    limit allows, then so it is after any photos, of any users, albums or
    not, delivered at any times, and after the timers that fall due. *)
Theorem photos_stay_within_limit (evs : list (Z * PhotoMessage)) (horizon : Z)
    (w : World) :
  within_limit w -> within_limit (run_photos PHOTO_LIMIT fetch evs horizon w).
Proof.
  intros H. unfold run_photos. apply advance_within.
  revert w H. induction evs as [|ev evs IH]; intros w H; [exact H|].
  cbn [fold_left]. apply IH. unfold deliver_photo.
  apply photo_add_within, advance_within. exact H.
Qed.

End PhotoLimitFacts.

(** ** app/main.py: leaving and entering steps *)

Section FlowFacts.
Import Tastings Bot.
Local Open Scope list_scope.

Variable PHOTO_LIMIT : option Z.
Variable fetch : string -> Fetched.
Variable save_photo_bytes : Value -> Z -> string -> string -> Result SaveResult.
Variable concurrent : nat -> Database -> Database.
Variable get_user_now_hm : Z -> string.

Local Abbreviation route :=
  (callback_query PHOTO_LIMIT fetch save_photo_bytes concurrent get_user_now_hm).

(** *** Dropping the buffered albums of a user *)

(** Everything but the album buffer and the timers is the same. *)
Definition albums_only (w w' : World) : Prop :=
  storage w' = storage w /\ database w' = database w /\ outbox w' = outbox w
  /\ gateway_calls w' = gateway_calls w /\ now w' = now w
  /\ next_message_id w' = next_message_id w.

Lemma discard_loop (v : Value) (st : Z)
    (rest pre : list ((Z * string) * AlbumEntry)) (w : World) :
  ALBUM_BUFFER w = pre ++ rest ->
  Forall (fun ke => owned v ke = false) pre ->
  exists w',
    for_each (List.filter (fun key => int_eqb v (fst key)) (map fst rest))
             (flush_one PHOTO_LIMIT fetch st false) w = (Ok tt, w')
    /\ ALBUM_BUFFER w' = pre ++ List.filter (fun ke => negb (owned v ke)) rest
    /\ tasks w' = fold_left cancel_one (map (fun ke => task (snd ke))
                                            (List.filter (owned v) rest)) (tasks w)
    /\ albums_only w w'.
Proof.
  revert pre w. induction rest as [|[k e] rest IH]; intros pre w Hbuf Hpre.
  - exists w. cbn. rewrite app_nil_r in *. repeat split; auto.
  - cbn [map List.filter fst snd].
    change (owned v (k, e)) with (int_eqb v (fst k)).
    destruct (int_eqb v (fst k)) eqn:Hk; cbn [negb map snd fold_left].
    + cbn [for_each]. unfold bind at 1. unfold flush_one at 1.
      unfold bind at 1. unfold buffer_pop at 1. rewrite Hbuf.
      destruct (buffer_get_app v k e pre rest Hk Hpre) as [-> ->].
      unfold bind at 1. rewrite cancel_task_spec. cbn [ALBUM_BUFFER tasks set_album negb].
      set (w2 := set_album (pre ++ rest) (cancel_one (tasks w) (task e))
                   (set_album (pre ++ rest) (tasks w) w)).
      destruct (IH pre w2) as (w' & E & B & T & A); [reflexivity|exact Hpre|].
      exists w'. split; [exact E|]. split; [exact B|]. split; [exact T|].
      destruct A as (A1 & A2 & A3 & A4 & A5 & A6). repeat split; assumption.
    + destruct (IH (pre ++ [(k, e)]) w) as (w' & E & B & T & A).
      { rewrite <- app_assoc. exact Hbuf. }
      { apply Forall_app. split; [exact Hpre|]. constructor; [exact Hk | constructor]. }
      exists w'. split; [exact E|]. rewrite <- app_assoc in B. auto.
Qed.

(** [flush_user_albums(uid, state, process=False)] *)
Lemma flush_discard_spec (v : Value) (st : Z) (w : World) :
  exists w',
    flush_user_albums PHOTO_LIMIT fetch v st false w = (Ok tt, w')
    /\ ALBUM_BUFFER w' = List.filter (fun ke => negb (owned v ke)) (ALBUM_BUFFER w)
    /\ tasks w' = fold_left cancel_one
                    (map (fun ke => task (snd ke)) (List.filter (owned v) (ALBUM_BUFFER w)))
                    (tasks w)
    /\ albums_only w w'.
Proof.
  rewrite flush_user_albums_unfold. destruct (is_None v) eqn:Hv.
  - exists w. split; [reflexivity|].
    assert (Hown : forall ke, owned v ke = false).
    { intros ke. unfold owned, int_eqb. destruct v; try reflexivity; discriminate. }
    split; [|split; [|repeat split]].
    + induction (ALBUM_BUFFER w) as [|ke l IH]; [reflexivity|].
      cbn [List.filter]. rewrite (Hown ke). cbn [negb]. f_equal. exact IH.
    + replace (List.filter (owned v) (ALBUM_BUFFER w)) with (@nil ((Z * string) * AlbumEntry));
        [reflexivity|].
      induction (ALBUM_BUFFER w) as [|ke l IH]; [reflexivity|].
      cbn [List.filter]. rewrite (Hown ke). exact IH.
  - destruct (discard_loop v st (ALBUM_BUFFER w) [] w eq_refl (List.Forall_nil _))
      as (w' & E & B & T & A).
    exists w'. auto.
Qed.

Lemma albums_only_data (uid : Z) (w w' : World) :
  albums_only w w' -> record_of w' uid = record_of w uid.
Proof. intros (Hs & _). unfold record_of. rewrite Hs. reflexivity. Qed.

(** *** Entering the photo step *)

Lemma max_photos_positive : 1 <= MAX_PHOTOS PHOTO_LIMIT.
Proof. unfold MAX_PHOTOS, MAX_PHOTOS_of. destruct PHOTO_LIMIT; lia. Qed.

Lemma prompt_photos_spec (uid : Z) (w : World) :
  exists w',
    prompt_photos PHOTO_LIMIT fetch uid w = (Ok tt, w')
    /\ state_of w' uid = Some PhotoFlow_photos
    /\ data_of w' uid !! "new_photos" = Some (VPhotos [])
    /\ data_of w' uid !! "photo_limit" = Some (VInt (MAX_PHOTOS PHOTO_LIMIT))
    /\ (forall k, photo_key k = false -> data_of w' uid !! k = data_of w uid !! k)
    /\ (forall v, v <> uid -> record_of w' v = record_of w v)
    /\ ALBUM_BUFFER w'
       = List.filter (fun ke => negb (owned (VInt uid) ke)) (ALBUM_BUFFER w)
    /\ tasks w'
       = fold_left cancel_one
           (map (fun ke => task (snd ke)) (List.filter (owned (VInt uid)) (ALBUM_BUFFER w)))
           (tasks w)
    /\ database w' = database w /\ gateway_calls w' = gateway_calls w
    /\ In (PhotoPrompt uid (MAX_PHOTOS PHOTO_LIMIT) ["skip:photos"]) (outbox w').
Proof.
  unfold prompt_photos.
  destruct (flush_discard_spec (VInt uid) uid w) as (w1 & E1 & B1 & T1 & A1).
  unfold bind at 1. rewrite E1.
  set (kvs := [("new_photos", VPhotos []); ("photo_count", VInt 0);
               ("photo_limit", VInt (MAX_PHOTOS PHOTO_LIMIT))]).
  destruct (update_data_spec uid kvs w1)
    as (w2 & E2 & Hs2 & Hd2 & Ho2 & Hb2 & Ht2 & Hdb2 & Hc2 & Hout2).
  unfold bind at 1. rewrite E2.
  destruct (clear_photo_progress_spec uid uid w2) as (w3 & E3 & F3 & Hn3 & Hl3).
  unfold bind at 1. rewrite E3.
  unfold bind at 1, post. cbv beta iota.
  match goal with
  | |- exists w', ?f ?x = _ /\ _ => set (w4 := x)
  end.
  destruct (update_data_spec uid [("progress_msg_id", VInt (next_message_id w3))] w4)
    as (w5 & E5 & Hs5 & Hd5 & Ho5 & Hb5 & Ht5 & Hdb5 & Hc5 & Hout5).
  unfold bind at 1. rewrite E5.
  destruct (set_state_spec uid (Some PhotoFlow_photos) w5) as (w6 & E6 & Hs6 & Hd6 & P6).
  rewrite E6. exists w6. split; [reflexivity|]. split; [exact Hs6|].
  subst kvs. cbn [fold_left fst snd] in Hd2, Hd5.
  assert (Hd4 : data_of w4 uid = data_of w3 uid) by reflexivity.
  assert (Hk3 : forall k, photo_key k = false ->
                          data_of w3 uid !! k = data_of w2 uid !! k)
    by (destruct (fr_draft _ _ _ (af_frame _ _ _ F3)) as (_ & H & _); exact H).
  assert (Hd1 : data_of w1 uid = data_of w uid)
    by (unfold data_of; rewrite (albums_only_data uid w w1 A1); reflexivity).
  assert (Hlook : forall k, k <> "progress_msg_id" ->
            data_of w6 uid !! k = data_of w3 uid !! k).
  { intros k Hk. rewrite Hd6, Hd5, Hd4. apply lookup_insert_ne. congruence. }
  split; [rewrite Hlook, Hn3, Hd2 by discriminate;
          rewrite !lookup_insert_ne by discriminate; apply lookup_insert_eq|].
  split; [rewrite Hlook, Hl3, Hd2 by discriminate; apply lookup_insert_eq|].
  split.
  { intros k Hk. destruct (photo_key_false k Hk) as (K1 & K2 & K3 & K4).
    rewrite Hlook by congruence. rewrite (Hk3 k Hk), Hd2.
    rewrite !lookup_insert_ne by congruence. rewrite Hd1. reflexivity. }
  split.
  { intros v Hv. rewrite (pr_others _ _ _ P6 v Hv), (Ho5 v Hv).
    change (record_of w4 v) with (record_of w3 v).
    rewrite (fr_others _ _ _ (af_frame _ _ _ F3) v Hv), (Ho2 v Hv).
    exact (albums_only_data v w w1 A1). }
  destruct A1 as (_ & A2 & _ & A4 & _).
  split.
  { rewrite (pr_buffer _ _ _ P6), Hb5. change (ALBUM_BUFFER w4) with (ALBUM_BUFFER w3).
    rewrite (af_buffer _ _ _ F3), Hb2. exact B1. }
  split.
  { rewrite (pr_tasks _ _ _ P6), Ht5. change (tasks w4) with (tasks w3).
    rewrite (af_tasks _ _ _ F3), Ht2. exact T1. }
  split.
  { rewrite (pr_db _ _ _ P6), Hdb5. change (database w4) with (database w3).
    rewrite (fr_db _ _ _ (af_frame _ _ _ F3)), Hdb2. exact A2. }
  split.
  { rewrite (pr_calls _ _ _ P6), Hc5. change (gateway_calls w4) with (gateway_calls w3).
    rewrite (fr_calls _ _ _ (af_frame _ _ _ F3)), Hc2. exact A4. }
  assert (Hout6 : outbox w6 = outbox w5).
  { unfold set_state, modify in E6. injection E6 as <-. reflexivity. }
  rewrite Hout6, Hout5. subst w4. cbn [outbox]. apply in_or_app. right. left. reflexivity.
Qed.

(** X16. Entering the photo step starts the photo books afresh: the step
    is the photo step, the draft holds no photo, its limit is
    [MAX_PHOTOS], which is at least one, and the user is shown the prompt
    with the skip button. Albums of the user still waiting in the buffer
    are dropped unread and their timers cancelled. The other fields of the
    draft, the other drafts and the database are as before. *)
Theorem prompt_photos_resets (uid : Z) (w : World) :
  let out := prompt_photos PHOTO_LIMIT fetch uid w in
  let w' := snd out in
  fst out = Ok tt
  /\ state_of w' uid = Some PhotoFlow_photos
  /\ photos_of (data_of w' uid) = []
  /\ data_of w' uid !! "photo_limit" = Some (VInt (MAX_PHOTOS PHOTO_LIMIT))
  /\ 1 <= MAX_PHOTOS PHOTO_LIMIT
  /\ (forall k, photo_key k = false -> data_of w' uid !! k = data_of w uid !! k)
  /\ (forall v, v <> uid -> record_of w' v = record_of w v)
  /\ ALBUM_BUFFER w'
     = List.filter (fun ke => negb (owned (VInt uid) ke)) (ALBUM_BUFFER w)
  /\ tasks w'
     = fold_left cancel_one
         (map (fun ke => task (snd ke)) (List.filter (owned (VInt uid)) (ALBUM_BUFFER w)))
         (tasks w)
  /\ database w' = database w
  /\ In (PhotoPrompt uid (MAX_PHOTOS PHOTO_LIMIT) ["skip:photos"]) (outbox w').
Proof.
  cbv zeta.
  destruct (prompt_photos_spec uid w)
    as (w' & -> & Hs & Hn & Hl & Hk & Ho & Hb & Ht & Hdb & _ & Hout).
  cbn [fst snd]. split; [reflexivity|]. split; [exact Hs|].
  split; [unfold photos_of, dget; rewrite Hn; reflexivity|].
  split; [exact Hl|]. split; [exact max_photos_positive|].
  auto 10.
Qed.

(** *** Confirming the cancellation *)

Lemma route_find (uid : Z) (data : string) (w : World) :
  route uid data w
  = match find (data_then_state (state_of w uid) data)
               (callback_handlers PHOTO_LIMIT fetch save_photo_bytes concurrent
                                  get_user_now_hm) with
    | Some h => snd h uid data w
    | None => (Ok tt, w)
    end.
Proof. apply dispatch_find. Qed.

Lemma quick_cancel_yes_spec (uid : Z) (w : World) :
  let owner := dget (data_of w uid) "user_id" in
  exists w',
    quick_cancel_yes PHOTO_LIMIT fetch uid w = (Ok tt, w')
    /\ record_of w' uid = empty_record
    /\ (forall v, v <> uid -> record_of w' v = record_of w v)
    /\ ALBUM_BUFFER w' = List.filter (fun ke => negb (owned owner ke)) (ALBUM_BUFFER w)
    /\ tasks w'
       = fold_left cancel_one
           (map (fun ke => task (snd ke)) (List.filter (owned owner) (ALBUM_BUFFER w)))
           (tasks w)
    /\ database w' = database w /\ gateway_calls w' = gateway_calls w
    /\ In (Answer uid "Привет! Что делаем?" main_kb) (outbox w').
Proof.
  cbv zeta. unfold quick_cancel_yes, bind at 1, get_data, gets. cbv beta iota.
  fold (data_of w uid).
  destruct (flush_discard_spec (dget (data_of w uid) "user_id") uid w)
    as (w1 & E1 & B1 & T1 & A1).
  unfold bind at 1. rewrite E1.
  unfold bind, clear, modify, answer, post, call_answer, send. cbv beta iota.
  eexists. split; [reflexivity|].
  destruct A1 as (A1 & A2 & A3 & A4 & A5 & A6).
  split.
  { unfold record_of, set_record. cbn [storage]. rewrite lookup_insert_eq. reflexivity. }
  split.
  { intros v Hv. unfold record_of, set_record. cbn [storage].
    rewrite lookup_insert_ne by congruence. rewrite A1. reflexivity. }
  cbn [ALBUM_BUFFER tasks database gateway_calls outbox set_record].
  split; [exact B1|]. split; [exact T1|]. split; [exact A2|]. split; [exact A4|].
  apply in_or_app. left. apply in_or_app. right. left. reflexivity.
Qed.

(** X17. "Yes" on the cancel confirmation throws the draft away: the
    user's FSM record is empty (no step, no data), the albums of the
    draft's user still in the buffer are dropped unread and their timers
    cancelled, nothing is written to the database, and the main menu is
    shown. Outside the confirmation state the same button is dropped: the
    world stays as it is. *)
Theorem cancel_confirmed (uid : Z) (w : World) :
  let out := route uid "q:cancel:yes" w in
  let owner := dget (data_of w uid) "user_id" in
  (state_of w uid = Some QuickCancel_confirm ->
   fst out = Ok tt
   /\ record_of (snd out) uid = empty_record
   /\ (forall v, v <> uid -> record_of (snd out) v = record_of w v)
   /\ ALBUM_BUFFER (snd out)
      = List.filter (fun ke => negb (owned owner ke)) (ALBUM_BUFFER w)
   /\ tasks (snd out)
      = fold_left cancel_one
          (map (fun ke => task (snd ke)) (List.filter (owned owner) (ALBUM_BUFFER w)))
          (tasks w)
   /\ database (snd out) = database w
   /\ gateway_calls (snd out) = gateway_calls w
   /\ In (Answer uid "Привет! Что делаем?" main_kb) (outbox (snd out)))
  /\ (state_of w uid <> Some QuickCancel_confirm -> out = (Ok tt, w)).
Proof.
  cbv zeta. split.
  - intros Hst.
    assert (Hr : route uid "q:cancel:yes" w = quick_cancel_yes PHOTO_LIMIT fetch uid w)
      by (rewrite route_find, Hst; reflexivity).
    rewrite Hr.
    destruct (quick_cancel_yes_spec uid w) as (w' & -> & H). cbn [fst snd].
    split; [reflexivity|exact H].
  - intros Hst. rewrite route_find.
    assert (Hs : state_is (state_of w uid) QuickCancel_confirm = false).
    { unfold state_is. destruct (state_of w uid) as [c|]; [|reflexivity].
      apply String.eqb_neq. congruence. }
    cbn. rewrite Hs. reflexivity.
Qed.

(** *** Skipping a question of the quick flow *)

(** The branches of [quick_skip]: the step named in the callback data,
    the field it writes with its value, and the step asked next. *)
Definition quick_skip_steps : list (string * (string * Value * string)) :=
  [ ("type", ("category", VStr QUICK_CATEGORY_FALLBACK, QuickNote_grams));
    ("grams", ("grams", VNone, QuickNote_temp_pick));
    ("temp", ("temp_c", VNone, QuickNote_gear_pick));
    ("gear", ("gear", VNone, QuickNote_aroma));
    ("aroma", ("aroma_dry", VNone, QuickNote_taste));
    ("taste", ("aroma_warmed", VNone, QuickNote_eff_pick));
    ("eff", ("effects", VStrs [], QuickNote_rating));
    ("note", ("summary", VNone, PhotoFlow_photos)) ].

(** What a skip leaves: the step [next], the field written, the other
    fields but the books of prompts and photos untouched, nothing
    stored. *)
Definition skipped (uid : Z) (key : string) (value : Value) (next : string)
    (w w' : World) : Prop :=
  state_of w' uid = Some next
  /\ data_of w' uid !! key = Some value
  /\ (forall k, k <> key -> k <> "live_q_id" -> photo_key k = false ->
                data_of w' uid !! k = data_of w uid !! k)
  /\ (forall v, v <> uid -> record_of w' v = record_of w v)
  /\ database w' = database w /\ gateway_calls w' = gateway_calls w.

Lemma skip_to (uid : Z) (key : string) (value : Value) (status next : string)
    (m : M unit) (w : World) :
  key <> "live_q_id" ->
  reprompts uid next m ->
  exists w',
    ((update_data uid [(key, value)] >> close_inline uid status >> m)
     >> call_answer uid "Пропущено" false) w = (Ok tt, w')
    /\ skipped uid key value next w w'.
Proof.
  intros Hkey Hm.
  destruct (update_data_spec uid [(key, value)] w)
    as (w1 & E1 & _ & Hd1 & Ho1 & _ & _ & Hdb1 & Hc1 & _).
  unfold bind at 1. unfold bind at 1. rewrite E1.
  destruct (quiet_close_inline uid status w1) as ([] & w2 & E2 & T2).
  unfold bind at 1. rewrite E2.
  destruct (Hm w2) as (w3 & E3 & Hs3 & P3). rewrite E3, call_answer_spec.
  eexists. split; [reflexivity|].
  destruct (telegram_only_data uid _ _ T2) as [Hd2 _].
  destruct T2 as (Hst2 & _ & _ & Hdb2 & Hc2 & _).
  cbn [fold_left fst snd] in Hd1.
  unfold skipped.
  change (state_of (notified ?o ?x) uid) with (state_of x uid).
  change (data_of (notified ?o ?x) uid) with (data_of x uid).
  split; [exact Hs3|]. split.
  { rewrite (pr_data _ _ _ P3) by exact Hkey. rewrite Hd2, Hd1. apply lookup_insert_eq. }
  split.
  { intros k Hk Hlive _. rewrite (pr_data _ _ _ P3) by exact Hlive.
    rewrite Hd2, Hd1. apply lookup_insert_ne. congruence. }
  split.
  { intros v Hv. change (record_of (notified ?o ?x) v) with (record_of x v).
    rewrite (pr_others _ _ _ P3 v Hv). unfold record_of. rewrite Hst2.
    exact (Ho1 v Hv). }
  cbn [database gateway_calls notified].
  rewrite (pr_db _ _ _ P3), (pr_calls _ _ _ P3), Hdb2, Hc2. auto.
Qed.

Lemma skip_to_photos (uid : Z) (status : string) (w : World) :
  exists w',
    ((update_data uid [("summary", VNone)] >> close_inline uid status
      >> prompt_photos PHOTO_LIMIT fetch uid)
     >> call_answer uid "Пропущено" false) w = (Ok tt, w')
    /\ skipped uid "summary" VNone PhotoFlow_photos w w'.
Proof.
  destruct (update_data_spec uid [("summary", VNone)] w)
    as (w1 & E1 & _ & Hd1 & Ho1 & _ & _ & Hdb1 & Hc1 & _).
  unfold bind at 1. unfold bind at 1. rewrite E1.
  destruct (quiet_close_inline uid status w1) as ([] & w2 & E2 & T2).
  unfold bind at 1. rewrite E2.
  destruct (prompt_photos_spec uid w2)
    as (w3 & E3 & Hs3 & _ & _ & Hk3 & Ho3 & _ & _ & Hdb3 & Hc3 & _).
  rewrite E3, call_answer_spec. eexists. split; [reflexivity|].
  destruct (telegram_only_data uid _ _ T2) as [Hd2 _].
  destruct T2 as (Hst2 & _ & _ & Hdb2 & Hc2 & _).
  cbn [fold_left fst snd] in Hd1.
  unfold skipped.
  change (state_of (notified ?o ?x) uid) with (state_of x uid).
  change (data_of (notified ?o ?x) uid) with (data_of x uid).
  split; [exact Hs3|]. split.
  { rewrite (Hk3 "summary") by reflexivity. rewrite Hd2, Hd1. apply lookup_insert_eq. }
  split.
  { intros k Hk _ Hphoto. rewrite (Hk3 k Hphoto), Hd2, Hd1.
    apply lookup_insert_ne. congruence. }
  split.
  { intros v Hv. change (record_of (notified ?o ?x) v) with (record_of x v).
    rewrite (Ho3 v Hv). unfold record_of. rewrite Hst2. exact (Ho1 v Hv). }
  cbn [database gateway_calls notified]. rewrite Hdb3, Hc3, Hdb2, Hc2. auto.
Qed.

Lemma prefix_app (p s : string) : String.prefix p (p ++ s) = true.
Proof.
  induction p as [|a p IH]; [destruct s; reflexivity|].
  change (match ascii_dec a a with
          | left _ => String.prefix p (p ++ s)
          | right _ => false
          end = true).
  destruct (ascii_dec a a) as [_|Hne]; [exact IH | contradiction].
Qed.

(** X18. A skip button of the quick flow acts on the step named in its
    callback data, whatever step the flow is at: the field of that step
    is written with its "skipped" value, the question that follows it is
    asked, and no other entered field changes. Callback data naming no
    step of the flow is only acknowledged. *)
Theorem quick_skip_moves (uid : Z) (step : string) (w : World) :
  let out := route uid ("q:skip:" ++ step) w in
  fst out = Ok tt
  /\ (forall key value next,
        In (step, (key, value, next)) quick_skip_steps ->
        skipped uid key value next w (snd out))
  /\ ((forall entry, ~ In (step, entry) quick_skip_steps) ->
      snd out = notified (CallbackAnswer uid "Пропущено" false) w).
Proof.
  cbv zeta.
  assert (Hr : route uid ("q:skip:" ++ step) w
               = quick_skip PHOTO_LIMIT fetch uid ("q:skip:" ++ step) w).
  { rewrite route_find. cbn [find callback_handlers].
    repeat match goal with
           | |- context [data_then_state ?c ?d ?h] =>
               change (data_then_state c d h) with false; cbv iota
           end.
    unfold data_then_state. cbn [fst snd data_matches].
    rewrite prefix_app. reflexivity. }
  rewrite Hr. unfold quick_skip. cbv zeta.
  change (after_colon (after_colon ("q:skip:" ++ step))) with step.
  assert (Hcase :
    forall key value next, In (step, (key, value, next)) quick_skip_steps ->
      step = "type" /\ key = "category" /\ value = VStr QUICK_CATEGORY_FALLBACK
        /\ next = QuickNote_grams
      \/ step = "grams" /\ key = "grams" /\ value = VNone /\ next = QuickNote_temp_pick
      \/ step = "temp" /\ key = "temp_c" /\ value = VNone /\ next = QuickNote_gear_pick
      \/ step = "gear" /\ key = "gear" /\ value = VNone /\ next = QuickNote_aroma
      \/ step = "aroma" /\ key = "aroma_dry" /\ value = VNone /\ next = QuickNote_taste
      \/ step = "taste" /\ key = "aroma_warmed" /\ value = VNone
         /\ next = QuickNote_eff_pick
      \/ step = "eff" /\ key = "effects" /\ value = VStrs [] /\ next = QuickNote_rating
      \/ step = "note" /\ key = "summary" /\ value = VNone /\ next = PhotoFlow_photos).
  { intros key value next Hin. cbn in Hin.
    repeat (destruct Hin as [Hin|Hin]; [injection Hin as <- <- <- <-; tauto|]).
    destruct Hin. }
  destruct (String.eqb_spec step "type") as [->|N1].
  { destruct (skip_to uid "category" (VStr QUICK_CATEGORY_FALLBACK) "Тип: не знаю"
                QuickNote_grams (ask_quick_grams uid) w ltac:(discriminate)
                (reprompts_grams uid)) as (w' & -> & H).
    cbn [fst snd]. split; [reflexivity|]. split.
    - intros key value next Hin.
      destruct (Hcase key value next Hin)
        as [(_ & -> & -> & ->)|[H'|[H'|[H'|[H'|[H'|[H'|H']]]]]]];
        [exact H|destruct H' as (E & _); discriminate E ..].
    - intros Hno. exfalso. eapply Hno. left. reflexivity. }
  destruct (String.eqb_spec step "grams") as [->|N2].
  { destruct (skip_to uid "grams" VNone "Граммовка: пропущено"
                QuickNote_temp_pick (ask_quick_temp uid) w ltac:(discriminate)
                (reprompts_temp uid)) as (w' & -> & H).
    cbn [fst snd]. split; [reflexivity|]. split.
    - intros key value next Hin.
      destruct (Hcase key value next Hin)
        as [H'|[(_ & -> & -> & ->)|[H'|[H'|[H'|[H'|[H'|H']]]]]]];
        [destruct H' as (E & _); discriminate E|exact H
        |destruct H' as (E & _); discriminate E ..].
    - intros Hno. exfalso. eapply Hno. right. left. reflexivity. }
  destruct (String.eqb_spec step "temp") as [->|N3].
  { destruct (skip_to uid "temp_c" VNone "Температура: пропущено"
                QuickNote_gear_pick (ask_quick_gear uid) w ltac:(discriminate)
                (reprompts_gear uid)) as (w' & -> & H).
    cbn [fst snd]. split; [reflexivity|]. split.
    - intros key value next Hin.
      destruct (Hcase key value next Hin)
        as [H'|[H'|[(_ & -> & -> & ->)|[H'|[H'|[H'|[H'|H']]]]]]];
        try (destruct H' as (E & _); discriminate E). exact H.
    - intros Hno. exfalso. eapply Hno. do 2 right. left. reflexivity. }
  destruct (String.eqb_spec step "gear") as [->|N4].
  { destruct (skip_to uid "gear" VNone "Посуда: пропущено"
                QuickNote_aroma (ask_quick_aroma uid) w ltac:(discriminate)
                (reprompts_aroma uid)) as (w' & -> & H).
    cbn [fst snd]. split; [reflexivity|]. split.
    - intros key value next Hin.
      destruct (Hcase key value next Hin)
        as [H'|[H'|[H'|[(_ & -> & -> & ->)|[H'|[H'|[H'|H']]]]]]];
        try (destruct H' as (E & _); discriminate E). exact H.
    - intros Hno. exfalso. eapply Hno. do 3 right. left. reflexivity. }
  destruct (String.eqb_spec step "aroma") as [->|N5].
  { destruct (skip_to uid "aroma_dry" VNone "Аромат: пропущено"
                QuickNote_taste (ask_quick_taste uid) w ltac:(discriminate)
                (reprompts_taste uid)) as (w' & -> & H).
    cbn [fst snd]. split; [reflexivity|]. split.
    - intros key value next Hin.
      destruct (Hcase key value next Hin)
        as [H'|[H'|[H'|[H'|[(_ & -> & -> & ->)|[H'|[H'|H']]]]]]];
        try (destruct H' as (E & _); discriminate E). exact H.
    - intros Hno. exfalso. eapply Hno. do 4 right. left. reflexivity. }
  destruct (String.eqb_spec step "taste") as [->|N6].
  { destruct (skip_to uid "aroma_warmed" VNone "Вкус: пропущено"
                QuickNote_eff_pick (ask_quick_effects uid) w ltac:(discriminate)
                (reprompts_effects uid)) as (w' & -> & H).
    cbn [fst snd]. split; [reflexivity|]. split.
    - intros key value next Hin.
      destruct (Hcase key value next Hin)
        as [H'|[H'|[H'|[H'|[H'|[(_ & -> & -> & ->)|[H'|H']]]]]]];
        try (destruct H' as (E & _); discriminate E). exact H.
    - intros Hno. exfalso. eapply Hno. do 5 right. left. reflexivity. }
  destruct (String.eqb_spec step "eff") as [->|N7].
  { destruct (skip_to uid "effects" (VStrs []) "Ощущения: пропущено"
                QuickNote_rating (ask_quick_rating uid) w ltac:(discriminate)
                (reprompts_rating uid)) as (w' & -> & H).
    cbn [fst snd]. split; [reflexivity|]. split.
    - intros key value next Hin.
      destruct (Hcase key value next Hin)
        as [H'|[H'|[H'|[H'|[H'|[H'|[(_ & -> & -> & ->)|H']]]]]]];
        try (destruct H' as (E & _); discriminate E). exact H.
    - intros Hno. exfalso. eapply Hno. do 6 right. left. reflexivity. }
  destruct (String.eqb_spec step "note") as [->|N8].
  { destruct (skip_to_photos uid "Заметка: пропущено" w) as (w' & -> & H).
    cbn [fst snd]. split; [reflexivity|]. split.
    - intros key value next Hin.
      destruct (Hcase key value next Hin)
        as [H'|[H'|[H'|[H'|[H'|[H'|[H'|(_ & -> & -> & ->)]]]]]]];
        try (destruct H' as (E & _); discriminate E). exact H.
    - intros Hno. exfalso. eapply Hno. do 7 right. left. reflexivity. }
  unfold bind, ret. rewrite call_answer_spec. cbn [fst snd].
  split; [reflexivity|]. split; [|reflexivity].
  intros key value next Hin.
  destruct (Hcase key value next Hin)
    as [H'|[H'|[H'|[H'|[H'|[H'|[H'|H']]]]]]]; destruct H' as (E & _); congruence.
Qed.

End FlowFacts.

(** ** app/main.py: the grams question of the quick flow *)

Section InputFacts.
Import Tastings Bot.
Local Open Scope list_scope.

(** Asking a question keeps what was sent before it. *)
Lemma ask_keeps_outbox (uid : Z) (text : string) (kb : list string) (o : Output)
    (w : World) :
  In o (outbox w) -> In o (outbox (snd (ask_ uid text kb w))).
Proof.
  intros H. unfold ask_, ask_next, bind, get_data, gets. cbv beta iota zeta.
  unfold remove_markup_if_set.
  destruct (dget (fsm_data (record_of w uid)) "live_q_id") as [| | i | | | | |];
    try (cbn; apply in_or_app; left; exact H).
  destruct (truthy (VInt i)); cbn; repeat (apply in_or_app; left); exact H.
Qed.

Lemma ask_quick_grams_outbox (uid : Z) (o : Output) (w : World) :
  In o (outbox w) -> In o (outbox (snd (ask_quick_grams uid w))).
Proof.
  intros H. unfold ask_quick_grams. unfold bind at 1.
  destruct (set_state_spec uid (Some QuickNote_grams) w) as (w1 & E1 & _).
  rewrite E1. apply ask_keeps_outbox.
  unfold set_state, modify in E1. injection E1 as <-. exact H.
Qed.


End InputFacts.

(** ** app/main.py: a finalisation that returns *)

Section SaveFacts.
Import Tastings Bot.
Local Open Scope list_scope.

Variable PHOTO_LIMIT : option Z.
Variable fetch : string -> Fetched.
Variable save_photo_bytes : Value -> Z -> string -> string -> Result SaveResult.
Variable concurrent : nat -> Database -> Database.

Lemma finalizer_saved (mk : gmap string Value -> TastingData)
    (infs : gmap string Value -> list Infusion)
    (cut : list PhotoEntry -> list PhotoEntry) (uid : Z) (w w' : World) :
  reads_fields mk -> reads_fields infs ->
  finalizer PHOTO_LIMIT fetch save_photo_bytes concurrent mk infs cut uid w = (Ok tt, w') ->
  exists t n sent,
    tastings (database w') = tastings (others concurrent n (database w)) ++ [t]
    /\ (forall t', In t' (tastings (others concurrent n (database w))) -> id t' < id t)
    /\ columns t = mk (data_of w uid)
    /\ infusions (database w')
       = infusions (others concurrent n (database w))
         ++ map (fun i => {| ir_tasting_id := id t; ir_infusion := i |})
                (infs (data_of w uid))
    /\ record_of w' uid = empty_record
    /\ (forall v, v <> uid -> record_of w' v = record_of w v)
    /\ In (Card uid (id t) sent) (outbox w').
Proof.
  intros Hmk Hinfs Hrun.
  destruct (flush_user_albums PHOTO_LIMIT fetch (dget (data_of w uid) "user_id") uid true w)
    as [[[]|e1] w1] eqn:Hflush.
  2:{ unfold finalizer in Hrun. unfold bind at 1 in Hrun.
      unfold get_data at 1, gets in Hrun. cbv beta iota in Hrun.
      fold (data_of w uid) in Hrun. unfold bind at 1 in Hrun.
      rewrite Hflush in Hrun. discriminate. }
  pose proof (flush_frame PHOTO_LIMIT fetch (dget (data_of w uid) "user_id") uid true w)
    as F.
  rewrite Hflush in F. cbn [snd] in F.
  destruct (fr_draft _ _ _ F) as (_ & Hfields & _).
  fold (data_of w1 uid) (data_of w uid) in Hfields.
  pose proof (finalizer_after_flush PHOTO_LIMIT fetch save_photo_bytes concurrent
                mk infs cut uid w w1 Hflush) as H.
  cbv zeta in H.
  set (td := mk (data_of w1 uid)) in *.
  set (infl := infs (data_of w1 uid)) in *.
  set (phs := cut (photos_of (data_of w1 uid))) in *.
  pose proof (create_tasting_committed save_photo_bytes concurrent (database w1)
                td infl phs) as Hrows.
  cbv zeta in Hrows.
  unfold after_gateway in H.
  unfold create_tasting in H. cbn [fst snd] in H.
  destruct (Tastings.create_tasting save_photo_bytes concurrent (database w1) td infl phs)
    as [[db' [t|e2]] n] eqn:Hcall; cbn [fst snd] in *;
    rewrite H in Hrun; [|discriminate].
  injection Hrun as <-.
  destruct (Hrows t eq_refl) as (Ht & Hid & Hcol & _ & _ & Hi & _).
  rewrite (fr_db _ _ _ F) in Ht, Hid, Hi.
  exists t, n, (photo_ids_to_send phs).
  cbn [database notified set_record].
  split; [exact Ht|]. split; [exact Hid|].
  split; [rewrite Hcol; subst td; apply Hmk; exact Hfields|].
  split; [rewrite Hi; subst infl; rewrite (Hinfs _ _ Hfields); reflexivity|].
  split.
  { change (record_of (notified ?o ?x) uid) with (record_of x uid).
    rewrite record_of_set_record. destruct (decide (uid = uid)); congruence. }
  split.
  { intros v Hv. change (record_of (notified ?o ?x) v) with (record_of x v).
    rewrite record_of_set_record. destruct (decide (uid = v)); [congruence|].
    rewrite <- (fr_others _ _ _ F v Hv). reflexivity. }
  cbn [outbox notified]. apply in_or_app. right. left. reflexivity.
Qed.


End SaveFacts.

(** ** app/main.py: the cursor of the "more" buttons *)

Section PayloadFacts.
Import Validators Bot.
Local Open Scope list_scope.

Definition all_ascii : list ascii := map ascii_of_nat (seq 0 256).

Lemma in_all_ascii (a : ascii) : In a all_ascii.
Proof.
  rewrite <- (ascii_nat_embedding a). apply in_map, in_seq.
  pose proof (nat_ascii_bounded a). lia.
Qed.

Lemma each_ascii (P : ascii -> bool) :
  forallb P all_ascii = true -> forall a, P a = true.
Proof. intros H a. rewrite forallb_forall in H. apply H, in_all_ascii. Qed.

Lemma each_ascii2 (P : ascii -> ascii -> bool) :
  forallb (fun a => forallb (P a) all_ascii) all_ascii = true ->
  forall a b, P a b = true.
Proof.
  intros H a b. rewrite forallb_forall in H.
  apply (each_ascii (P a)), H, in_all_ascii.
Qed.

Lemma each_sextet (P : N -> bool) :
  forallb (fun n => P (N.of_nat n)) (seq 0 64) = true ->
  forall d, (d < 64)%N -> P d = true.
Proof.
  intros H d Hd. rewrite forallb_forall in H.
  rewrite <- (N2Nat.id d). apply H, in_seq. lia.
Qed.

(** A character of the encoding is ASCII, is not the pad character, and
    is read back as the six bits it stands for. *)
Lemma sextet_char (d : N) :
  (d < 64)%N ->
  let ch := _urlsafe_encode_translation (b64_char d) in
  Ascii.eqb (_urlsafe_decode_translation ch) "=" = false
  /\ b64_index (_urlsafe_decode_translation ch) = Some d
  /\ (N_of_ascii ch <? 128)%N = true
  /\ Ascii.eqb ch "=" = false.
Proof.
  intros Hd. cbv zeta.
  pose proof (each_sextet
    (fun d =>
       let ch := _urlsafe_encode_translation (b64_char d) in
       negb (Ascii.eqb (_urlsafe_decode_translation ch) "=")
       && match b64_index (_urlsafe_decode_translation ch) with
          | Some i => N.eqb i d
          | None => false
          end
       && (N_of_ascii ch <? 128)%N
       && negb (Ascii.eqb ch "="))
    ltac:(vm_compute; reflexivity) d Hd) as H.
  cbv beta zeta in H.
  apply andb_true_iff in H as [H H4]. apply andb_true_iff in H as [H H3].
  apply andb_true_iff in H as [H1 H2].
  apply negb_true_iff in H1, H4.
  destruct (b64_index _) as [i|]; [|discriminate]. apply N.eqb_eq in H2. subst i.
  auto.
Qed.

Lemma q1_bound (a : ascii) : (q1 a < 64)%N.
Proof.
  apply N.ltb_lt.
  exact (each_ascii (fun a => (q1 a <? 64)%N) ltac:(vm_compute; reflexivity) a).
Qed.

Lemma q4_bound (c : ascii) : (q4 c < 64)%N.
Proof.
  apply N.ltb_lt.
  exact (each_ascii (fun a => (q4 a <? 64)%N) ltac:(vm_compute; reflexivity) c).
Qed.

Lemma q2_bound (a b : ascii) : (q2 a b < 64)%N.
Proof.
  apply N.ltb_lt.
  exact (each_ascii2 (fun a b => (q2 a b <? 64)%N) ltac:(vm_compute; reflexivity) a b).
Qed.

Lemma q3_bound (b c : ascii) : (q3 b c < 64)%N.
Proof.
  apply N.ltb_lt.
  exact (each_ascii2 (fun a b => (q3 a b <? 64)%N) ltac:(vm_compute; reflexivity) b c).
Qed.

(** The bytes the decoder puts together from the six-bit groups. *)
Lemma first_byte (a b : ascii) :
  ascii_of_N (N.lor (N.shiftl (q1 a) 2) (N.shiftr (q2 a b) 4)) = a.
Proof.
  apply Ascii.eqb_eq.
  exact (each_ascii2
           (fun a b => Ascii.eqb (ascii_of_N (N.lor (N.shiftl (q1 a) 2)
                                                (N.shiftr (q2 a b) 4))) a)
           ltac:(vm_compute; reflexivity) a b).
Qed.

Lemma second_left (a b : ascii) :
  N.land (q2 a b) 15 = N.land (N_of_ascii b / 16) 15.
Proof.
  apply N.eqb_eq.
  exact (each_ascii2
           (fun a b => N.eqb (N.land (q2 a b) 15) (N.land (N_of_ascii b / 16) 15))
           ltac:(vm_compute; reflexivity) a b).
Qed.

Lemma second_byte (b c : ascii) :
  ascii_of_N (N.lor (N.shiftl (N.land (N_of_ascii b / 16) 15) 4) (N.shiftr (q3 b c) 2))
  = b.
Proof.
  apply Ascii.eqb_eq.
  exact (each_ascii2
           (fun b c => Ascii.eqb
                         (ascii_of_N (N.lor (N.shiftl (N.land (N_of_ascii b / 16) 15) 4)
                                            (N.shiftr (q3 b c) 2))) b)
           ltac:(vm_compute; reflexivity) b c).
Qed.

Lemma third_left (b c : ascii) :
  N.land (q3 b c) 3 = N.land (N_of_ascii c / 64) 3.
Proof.
  apply N.eqb_eq.
  exact (each_ascii2
           (fun b c => N.eqb (N.land (q3 b c) 3) (N.land (N_of_ascii c / 64) 3))
           ltac:(vm_compute; reflexivity) b c).
Qed.

Lemma third_byte (c : ascii) :
  ascii_of_N (N.lor (N.shiftl (N.land (N_of_ascii c / 64) 3) 6) (q4 c)) = c.
Proof.
  apply Ascii.eqb_eq.
  exact (each_ascii
           (fun c => Ascii.eqb
                       (ascii_of_N (N.lor (N.shiftl (N.land (N_of_ascii c / 64) 3) 6)
                                          (q4 c))) c)
           ltac:(vm_compute; reflexivity) c).
Qed.

(** One step of the decoder on a character of the encoding. *)
Lemma a2b_sextet (d : N) (rest : list ascii) (quad_pos : nat) (leftchar : N)
    (pads : nat) (out : list ascii) :
  (d < 64)%N ->
  a2b_base64 (_urlsafe_decode_translation (_urlsafe_encode_translation (b64_char d))
              :: rest) quad_pos leftchar pads out
  = match quad_pos with
    | 0%nat => a2b_base64 rest 1%nat d 0%nat out
    | 1%nat =>
        a2b_base64 rest 2%nat (N.land d 15) 0%nat
          (out ++ [ascii_of_N (N.lor (N.shiftl leftchar 2) (N.shiftr d 4))])
    | 2%nat =>
        a2b_base64 rest 3%nat (N.land d 3) 0%nat
          (out ++ [ascii_of_N (N.lor (N.shiftl leftchar 4) (N.shiftr d 2))])
    | _ =>
        a2b_base64 rest 0%nat 0%N 0%nat
          (out ++ [ascii_of_N (N.lor (N.shiftl leftchar 6) d)])
    end.
Proof.
  intros Hd. destruct (sextet_char d Hd) as (H1 & H2 & _).
  cbn [a2b_base64]. rewrite H1, H2. reflexivity.
Qed.

Lemma list_ind3 {A} (P : list A -> Prop) :
  P [] -> (forall a, P [a]) -> (forall a b, P [a; b]) ->
  (forall a b c l, P l -> P (a :: b :: c :: l)) ->
  forall l, P l.
Proof.
  intros H0 H1 H2 H3.
  fix IH 1. intros [|a [|b [|c l]]]; [exact H0 | apply H1 | apply H2 | apply H3, IH].
Qed.

(** The characters of the encoding that carry data, and the number of
    pad characters after them. *)
Fixpoint b64_data (data : list ascii) : list ascii :=
  match data with
  | [] => []
  | [a] => [b64_char (q1 a); b64_char (q2 a zero)]
  | [a; b] => [b64_char (q1 a); b64_char (q2 a b); b64_char (q3 b zero)]
  | a :: b :: c :: rest =>
      b64_char (q1 a) :: b64_char (q2 a b) :: b64_char (q3 b c) :: b64_char (q4 c)
      :: b64_data rest
  end.

Fixpoint pad_count (data : list ascii) : nat :=
  match data with
  | [] => 0
  | [_] => 2
  | [_; _] => 1
  | _ :: _ :: _ :: rest => pad_count rest
  end.

Lemma b2a_base64_data (data : list ascii) :
  b2a_base64 data = b64_data data ++ repeat "="%char (pad_count data).
Proof.
  induction data as [|a|a b|a b c l IH] using list_ind3; try reflexivity.
  cbn [b2a_base64 b64_data pad_count app]. rewrite IH. reflexivity.
Qed.

Lemma pad_count_length (data : list ascii) :
  Z.to_nat ((- Z.of_nat (List.length (b64_data data))) mod 4) = pad_count data.
Proof.
  induction data as [|a|a b|a b c l IH] using list_ind3; try reflexivity.
  cbn [b64_data pad_count List.length]. rewrite <- IH. f_equal.
  rewrite !Nat2Z.inj_succ.
  replace (- Z.succ (Z.succ (Z.succ (Z.succ (Z.of_nat (List.length (b64_data l)))))))
    with (- Z.of_nat (List.length (b64_data l)) + (-1) * 4) by lia.
  apply Z_mod_plus_full.
Qed.

Lemma b64_data_sextets (data : list ascii) (ch : ascii) :
  In ch (b64_data data) -> exists d, (d < 64)%N /\ ch = b64_char d.
Proof.
  induction data as [|a|a b|a b c l IH] using list_ind3; cbn [b64_data In];
    intros H;
    repeat (destruct H as [<-|H];
            [eexists; split; [|reflexivity];
             first [apply q1_bound | apply q2_bound | apply q3_bound | apply q4_bound]|]);
    [destruct H .. | exact (IH H)].
Qed.

Lemma b64_data_nonempty (data : list ascii) : data <> [] -> b64_data data <> [].
Proof. destruct data as [|a [|b [|c l]]]; [congruence | discriminate ..]. Qed.

Lemma lstrip_pad_repeat (n : nat) (s : list ascii) :
  lstrip_pad (repeat "="%char n ++ s) = lstrip_pad s.
Proof. induction n as [|n IH]; [reflexivity|exact IH]. Qed.

Lemma rev_repeat {A} (x : A) (n : nat) : rev (repeat x n) = repeat x n.
Proof.
  induction n as [|n IH]; [reflexivity|].
  cbn [repeat rev]. rewrite IH. clear IH.
  induction n as [|n IH]; [reflexivity|]. cbn [repeat app]. rewrite IH. reflexivity.
Qed.

Lemma rstrip_pad_data (s : list ascii) (n : nat) :
  (forall ch, In ch s -> Ascii.eqb ch "=" = false) ->
  rstrip_pad (s ++ repeat "="%char n) = s.
Proof.
  intros H. unfold rstrip_pad. rewrite rev_app_distr, rev_repeat, lstrip_pad_repeat.
  assert (Hk : lstrip_pad (rev s) = rev s).
  { destruct (rev s) as [|a t] eqn:E; [reflexivity|].
    cbn [lstrip_pad]. rewrite (H a); [reflexivity|].
    apply in_rev. rewrite E. left. reflexivity. }
  rewrite Hk. apply rev_involutive.
Qed.

Lemma urlsafe_b64encode_data (data : list ascii) :
  urlsafe_b64encode data
  = map _urlsafe_encode_translation (b64_data data) ++ repeat "="%char (pad_count data).
Proof.
  unfold urlsafe_b64encode. rewrite b2a_base64_data, map_app.
  f_equal. induction (pad_count data) as [|n IH]; [reflexivity|].
  cbn [repeat map]. rewrite IH. reflexivity.
Qed.

Lemma rstrip_pad_encoded (data : list ascii) :
  rstrip_pad (urlsafe_b64encode data)
  = map _urlsafe_encode_translation (b64_data data).
Proof.
  rewrite urlsafe_b64encode_data. apply rstrip_pad_data.
  intros ch Hin. apply in_map_iff in Hin as (x & <- & Hx).
  destruct (b64_data_sextets data x Hx) as (d & Hd & ->). apply (sextet_char d Hd).
Qed.

Lemma a2b_encoded (data out : list ascii) :
  a2b_base64 (map _urlsafe_decode_translation
                (map _urlsafe_encode_translation (b64_data data)
                 ++ repeat "="%char (pad_count data)))
             0%nat 0%N 0%nat out
  = Some (out ++ data).
Proof.
  revert out. induction data as [|a|a b|a b c l IH] using list_ind3; intros out.
  - cbn. rewrite app_nil_r. reflexivity.
  - cbn [b64_data pad_count repeat map app].
    rewrite a2b_sextet by apply q1_bound. rewrite a2b_sextet by apply q2_bound.
    rewrite first_byte. reflexivity.
  - cbn [b64_data pad_count repeat map app].
    rewrite a2b_sextet by apply q1_bound. rewrite a2b_sextet by apply q2_bound.
    rewrite a2b_sextet by apply q3_bound.
    rewrite first_byte, second_left, second_byte.
    cbn. rewrite <- app_assoc. reflexivity.
  - cbn [b64_data pad_count map app].
    rewrite a2b_sextet by apply q1_bound. rewrite a2b_sextet by apply q2_bound.
    rewrite a2b_sextet by apply q3_bound. rewrite a2b_sextet by apply q4_bound.
    rewrite first_byte, second_left, second_byte, third_left, third_byte.
    rewrite IH. rewrite <- !app_assoc. reflexivity.
Qed.

Lemma encoded_ascii (data : list ascii) :
  forallb (fun ch => (N_of_ascii ch <? 128)%N)
          (map _urlsafe_encode_translation (b64_data data)
           ++ repeat "="%char (pad_count data)) = true.
Proof.
  rewrite forallb_app. apply andb_true_iff. split.
  - apply forallb_forall. intros ch Hin. apply in_map_iff in Hin as (x & <- & Hx).
    destruct (b64_data_sextets data x Hx) as (d & Hd & ->). apply (sextet_char d Hd).
  - apply forallb_forall. intros ch Hin. apply repeat_spec in Hin. subst ch. reflexivity.
Qed.

(** Stripped of its padding and padded again, the encoding decodes to the
    bytes. *)
Lemma urlsafe_b64decode_encoded (data : list ascii) :
  let enc := rstrip_pad (urlsafe_b64encode data) in
  urlsafe_b64decode
    (enc ++ repeat "="%char (Z.to_nat ((- Z.of_nat (List.length enc)) mod 4)))
  = Some data.
Proof.
  cbv zeta. rewrite rstrip_pad_encoded, length_map, pad_count_length.
  unfold urlsafe_b64decode. rewrite encoded_ascii.
  apply (a2b_encoded data []).
Qed.

Lemma split_bar_app (p rest cur : list ascii) :
  (forall a, In a p -> Ascii.eqb a "|" = false) ->
  split_bar (p ++ "|"%char :: rest) cur = Some (rev cur ++ p, rest).
Proof.
  revert cur. induction p as [|a p IH]; intros cur H.
  - cbn. rewrite app_nil_r. reflexivity.
  - cbn [app split_bar]. rewrite (H a) by (left; reflexivity).
    rewrite IH by (intros x Hx; apply H; right; exact Hx).
    cbn [rev]. rewrite <- app_assoc. reflexivity.
Qed.

Lemma is_digit_not_bar (a : ascii) : is_digit a = true -> Ascii.eqb a "|" = false.
Proof.
  intros H.
  pose proof (each_ascii (fun a => negb (is_digit a) || negb (Ascii.eqb a "|"))
                ltac:(vm_compute; reflexivity) a) as E.
  cbv beta in E. rewrite H in E. cbn [negb orb] in E. apply negb_true_iff. exact E.
Qed.

Lemma str_of_int_no_bar (v : Z) (a : ascii) :
  In a (str_of_int v) -> Ascii.eqb a "|" = false.
Proof.
  unfold str_of_int. destruct (Z.ltb_spec v 0) as [Hneg|Hpos].
  - destruct (str_of_nat_spec (- v)) as (_ & Hd & _); [lia|].
    rewrite forallb_forall in Hd.
    intros [<-|Hin]; [reflexivity|]. apply is_digit_not_bar, Hd, Hin.
  - destruct (str_of_nat_spec v Hpos) as (_ & Hd & _).
    rewrite forallb_forall in Hd. intros Hin. apply is_digit_not_bar, Hd, Hin.
Qed.



(** The payload of the example, and what [decode_more_payload] makes of
    text that is no payload. *)
Example decode_more_payload_examples :
  string_of_list_ascii (encode_more_payload 7 120 (list_ascii_of_string "Шу пуэр"))
  = "7|120|0KjRgyDQv9GD0Y3RgA"%string
  /\ decode_more_payload (list_ascii_of_string "7|120") = Some (7, 120, [])
  /\ decode_more_payload (list_ascii_of_string "7") = None
  /\ decode_more_payload (list_ascii_of_string "7|x|") = None
  /\ decode_more_payload (list_ascii_of_string "7|120|0") = None
  /\ decode_more_payload (list_ascii_of_string "7|120|_w") = None.
Proof. repeat split; vm_compute; reflexivity. Qed.

End PayloadFacts.

(** ** The further properties on concrete drafts *)

Section FurtherExamples.
Import Tastings Bot.
Local Open Scope list_scope.

(** The photo step with as many photos as the draft takes. *)
Definition example_world_full : World :=
  {| now := 1000;
     storage :=
       {[ 7 := {| fsm_state := Some PhotoFlow_photos;
                  fsm_data :=
                    <["new_photos" := VPhotos [example_photo "p0"; example_photo "p1";
                                                example_photo "p2"]]> example_draft |} ]};
     ALBUM_BUFFER := []; tasks := []; database := example_db; outbox := [];
     next_message_id := 42; gateway_calls := [] |}.

(** A photo of user 7 that belongs to no album. *)
Definition example_single : PhotoMessage :=
  {| from_user := 7; media_group_id := None; photo_file_id := "s1";
     photo_file_unique_id := "s1-u" |}.

Lemma photo_add_full_witness :
  let w := example_world_full in
  let m := example_message "a4" in
  let out := photo_add example_fetch m w in
  data_of w 7 !! "photo_limit" = Some (VInt 3)
  /\ 3 <= zlen (photos_of (data_of w 7))
  /\ fst out = Ok tt
  /\ photos_of (data_of (snd out) 7) = photos_of (data_of w 7)
  /\ ALBUM_BUFFER (snd out) = ALBUM_BUFFER w
  /\ tasks (snd out) = tasks w
  /\ In (LimitReached 7 (zlen (photos_of (data_of w 7))) 3) (outbox (snd out)).
Proof.
  cbv zeta. split; [reflexivity|]. split; [vm_compute; discriminate|].
  apply (photo_add_full example_fetch (example_message "a4") 3 example_world_full);
    [reflexivity | vm_compute; discriminate].
Defined.

Lemma photo_add_single_witness :
  let w := example_world_empty in
  let out := photo_add example_fetch example_single w in
  data_of w 7 !! "photo_limit" = Some (VInt 3)
  /\ zlen (photos_of (data_of w 7)) < 3
  /\ media_group_id example_single = None
  /\ fst out = Ok tt
  /\ photos_of (data_of (snd out) 7) = [example_photo "s1"]
  /\ state_of (snd out) 7 = state_of w 7
  /\ ALBUM_BUFFER (snd out) = ALBUM_BUFFER w
  /\ tasks (snd out) = tasks w.
Proof.
  cbv zeta. split; [reflexivity|]. split; [vm_compute; reflexivity|].
  split; [reflexivity|].
  destruct (photo_add_single example_fetch example_single 3 example_world_empty)
    as (H1 & H2 & _ & H4 & _ & H6 & H7);
    [reflexivity | vm_compute; reflexivity | left; reflexivity |].
  split; [exact H1|].
  split; [etransitivity; [exact H2 | vm_compute; reflexivity]|].
  split; [exact H4|]. split; [exact H6|exact H7].
Defined.

Lemma example_within_limit : within_limit None example_world_empty.
Proof.
  intros uid limit. destruct (Z.eq_dec uid 7) as [->|Hne].
  - intros [= <-]. vm_compute. discriminate.
  - unfold data_of, record_of, example_world_empty. cbn [storage].
    rewrite lookup_singleton_ne by congruence.
    intros [= <-]. vm_compute. discriminate.
Qed.

Lemma photos_stay_within_limit_witness :
  within_limit None example_world_empty
  /\ within_limit None (run_photos None example_fetch example_over 5000
                                    example_world_empty).
Proof.
  split; [exact example_within_limit|].
  apply (photos_stay_within_limit None example_fetch example_over 5000
           example_world_empty).
  exact example_within_limit.
Defined.

(** The four photos of [example_over] and a fifth one sent alone: three
    are kept. *)
Example photos_stay_within_limit_example :
  let w := run_photos None example_fetch (example_over ++ [(6000, example_single)]) 9000
             example_world_empty in
  List.length (photos_of (data_of w 7)) = 3%nat.
Proof. vm_compute. reflexivity. Qed.

Lemma cancel_confirmed_witness :
  let w := quick_world QuickCancel_confirm in
  let out := example_dispatch 7 "q:cancel:yes" w in
  state_of w 7 = Some QuickCancel_confirm
  /\ fst out = Ok tt
  /\ record_of (snd out) 7 = empty_record
  /\ database (snd out) = database w
  /\ In (Answer 7 "Привет! Что делаем?" main_kb) (outbox (snd out)).
Proof.
  cbv zeta. split; [reflexivity|].
  destruct (cancel_confirmed None example_fetch example_storage alone example_clock 7
              (quick_world QuickCancel_confirm)) as [H _].
  destruct (H eq_refl) as (H1 & H2 & _ & _ & _ & H6 & _ & H8).
  split; [exact H1|]. split; [exact H2|]. split; [exact H6|exact H8].
Defined.

Lemma quick_skip_moves_witness :
  let w := quick_world QuickNote_grams in
  let out := example_dispatch 7 "q:skip:grams" w in
  In ("grams", ("grams", VNone, QuickNote_temp_pick)) quick_skip_steps
  /\ fst out = Ok tt
  /\ skipped 7 "grams" VNone QuickNote_temp_pick w (snd out).
Proof.
  cbv zeta.
  assert (Hin : In ("grams", ("grams", VNone, QuickNote_temp_pick)) quick_skip_steps)
    by (right; left; reflexivity).
  split; [exact Hin|].
  destruct (quick_skip_moves None example_fetch example_storage alone example_clock 7
              "grams" (quick_world QuickNote_grams)) as (H1 & H2 & _).
  split; [exact H1|exact (H2 _ _ _ Hin)].
Defined.

(** The skip button of the taste question pressed at the grams step: the
    flow jumps to the question after the taste. *)
Example quick_skip_moves_example :
  let out := example_dispatch 7 "q:skip:taste" (quick_world QuickNote_grams) in
  state_of (snd out) 7 = Some QuickNote_eff_pick
  /\ data_of (snd out) 7 !! "aroma_warmed" = Some VNone.
Proof. cbv zeta. split; vm_compute; reflexivity. Qed.

(** Answers to the grams question. *)
Example quick_grams_examples :
  let w := quick_world QuickNote_grams in
  data_of (snd (quick_grams_in 7 " 5,25 " w)) 7 !! "grams"
  = Some (VFloat (Validators.Finite false 53 (-1)))
  /\ state_of (snd (quick_grams_in 7 "0,04" w)) 7 = Some QuickNote_grams
  /\ data_of (snd (quick_grams_in 7 "0,04" w)) 7 !! "grams" = data_of w 7 !! "grams"
  /\ quick_grams_in 7 "nan" w = (Raise InvalidOperation, w).
Proof. cbv zeta. repeat split; vm_compute; reflexivity. Qed.


End FurtherExamples.
